(* ===== verification/_CoqProject ===== *)
-Q . S2P
Prelude.v
Digits.v
JsNumber.v
Shortest.v
Rounding.v
Valid.v
JsObject.v
Ticket.v
Filters.v
FilterEngine.v
Price.v
Component.v
Liveness.v
View.v
App.v
Wellformed.v
Spec.v
