(* ===== verification/Prelude.v ===== *)
(** * Tickets: a verification development for the flight-ticket list

    The program (src/src/components/TicketList.tsx, src/src/App.tsx) is a
    React application that shows a static list of flight tickets, filters
    it by number of stops with five check boxes and shows each price
    converted to a currency chosen with three buttons.  This library models
    the program as executable Rocq definitions, file by file in the order
    of their dependencies, and proves the properties that make it correct.

    ** Parts of the program and where they are modelled

    - [Prelude] (this file): the scope [js_scope], the tactics
      [bool_cases] and [case_if], the hint databases [tickets] (for [auto])
      and [tickets_rw] (for [autorewrite]), and generic lemmas: lists
      filtered by a boolean predicate, rounding by integer division
      ([round_half_up]), strings.
    - [Digits]: decimal digit strings, the [DecimalString] of ECMA-262:
      [digits] prints a natural number, [value] reads it back,
      [insert_point] places the decimal point as [toFixed] does (step 11.c)
      and [fixed_ref] is its arithmetic reference; [strip_trailing_zeros].
    - [JsNumber]: the values of the type [number], IEEE-754 binary64, on the
      Standard Library's [spec_float] at precision 53 and maximal exponent
      1024: literals ([of_Z], [of_decimal]), [strict_eq] for [===], [mul]
      for [*], [to_boolean], [toFixed] for [Number.prototype.toFixed]
      (ECMA-262 21.1.3.3) and [to_string] for [Number::toString]
      (6.1.6.1.20), which the template literal of the stop label applies.
    - [Shortest]: the digit search of [to_string] ([shortest_go]) always
      finds digits that read back as the number.
    - [Rounding]: what the rounding of [SpecFloat] computes: the record of
      a mantissa shifted right ([shifted]), the mantissa rounded to nearest
      ([round_shift]) with its error of at most half a unit, and the
      product of two normal numbers ([mul_finite_nearest]).
    - [Valid]: the type of numbers: [valid] is kept by [mul] and holds of
      [of_Z] at every integer ([exponent_of] is the exponent at which a
      number of a given magnitude is written).
    - [JsObject]: the read [o[key]] of an object literal by any string key
      ([get]), with the properties inherited from [Object.prototype],
      ToBoolean, [||] ([js_or]) and ToNumber.
    - [Ticket]: the interface [Ticket] (lines 6-18) as a record;
      [well_formed] states what spec.md assumes of the data.
    - [Filters]: the interface [Filters] (lines 20-28), its keys as the
      enumeration [FilterType], the initial selection (lines 40-48) and the
      handler [handleFilterChange] (lines 68-90); the selection as a
      transition system ([step], [reachable], [run]), its invariant [inv],
      and the specification of spec.md section 9 ([Selection], [toggle])
      with the abstraction [abs].
    - [FilterEngine]: the predicate given to [tickets.filter] (lines 54-61)
      as [visible], its tests in the order of the source, and the filtered
      list [filterTickets].  The class [FilterEngine] states what the
      component relies on (membership, order, the case [all]); the instance
      [filter_engine] discharges it for the program.
    - [Price]: [exchangeRates], [defaultCurrency], the rate read
      [rate_of] and [convertCurrency] (lines 30-36, 96-100); [convertWith]
      is [convertCurrency] over any rate table.
    - [Component]: the function component [TicketList] (lines 38-94) as a
      state machine.  [State] holds the prop [tickets] and the three
      [useState] cells, with an identity for the two objects in the
      dependency list of [useEffect]; [Machine] adds what React keeps (the
      cells of the committed render, a queued render, a pending effect).
      [step_fn] gives the steps: [Render], [RunEffect] (the body of the
      effect, [run_effect]), and the events [ClickFilter], [ClickCurrency]
      and [SetTickets]; [machine_step] is the step relation, [settle] runs
      React's rounds until nothing is queued and [dispatch] is an event
      with its rounds.  The machine is defined over any [FilterEngine].
    - [Liveness]: the rounds as a relation ([internal_step], the graph of
      [next]) with stdpp's notions of normal form and strong
      normalisation.
    - [View]: the JSX that [TicketList] returns (lines 102-208) as a tree
      of [Node]s: [view] and its parts ([currency_buttons],
      [filter_checkboxes], [ticket_card], [buy_button], [stops_label],
      [carrier_image]).  The observations of a tree ([handlers],
      [checkboxes], [texts], [find_class], [key_of]) stand for what the DOM
      offers; [ui_step] is the machine restricted to the events that the
      tree raises.
    - [App]: the root component (src/src/App.tsx): the tree around
      [TicketList] and the application after a list of events ([after]).
    - [Wellformed]: the check [wf_node] that a tree is one that React and
      the browser accept (distinct keys among siblings, images with an
      address and an [alt], controlled check boxes, handlers on buttons
      and check boxes only), and [known_carrier], the assumption behind the
      cast in [carrierImages[ticket.carrier as ...]].
    - [Spec]: the description of spec.md without React: the state
      [Abstract] (a selection and a currency), the user actions of its
      section 6 with [apply_action], and the visible tickets of its section
      4.1 ([shows], [visible_tickets]); [abstract] and [action_of] map the
      machine and its events to it, [expected_boxes] and [expected_prices]
      say what the screen of an abstract state shows.

    ** What the theorems show

    - Numbers: [toFixed] prints the integer nearest to the exact value
      times [10^f] (never truncates), with exactly [f] fraction digits, and
      agrees with the arithmetic reference [fixed_ref]; [to_string] of a
      whole number below 2^53 is its digits, and of any finite number
      digits inside its rounding interval ([to_string_reads_back]);
      integers below 2^53 are represented exactly, so [===] on them is
      equality; the product of two binary64 values is a binary64 value, in
      the normal and the subnormal range, on underflow and on overflow
      ([mul_binary64]), and so is the number that [convertCurrency]
      formats, for every currency code ([convertCurrency_number]).
    - Selection: each branch of [handleFilterChange]; a selection is
      reachable exactly when it satisfies [inv] ("[all] set implies no
      other flag set"), which makes seventeen selections; two clicks on a
      flag restore it and clicks on different flags commute; the handler
      refines [toggle]; the selection with no flag at all is reachable.
    - Filter engine: membership in the filtered list is exactly visibility;
      the list is a sublist of the tickets (order kept, nothing invented or
      repeated); several flags give the union of the single-flag lists;
      tickets with four or more stops are shown only under [all]; setting
      more flags shows more.
    - Price: the examples of spec.md section 8; the default currency shows
      the price unconverted; unknown codes fall back to rate 1 while codes
      that [Object.prototype] has give ["NaN"]; every whole price up to
      2^51 is shown exactly in USD, and every whole price up to 2^47 as the
      nearest hundredth in EUR except at ties, where the binary product
      decides (50 is shown as 0.47); every price from 2^-1015 to 2^57,
      whole or not, is shown within half a hundredth and a relative error
      of 2^-52 of the exact decimal amount ([convertCurrency_accuracy]); at
      10^21 the two fraction digits are lost.
    - Component: React's rounds end within four steps from any state; in
      every reachable state with nothing queued the list on the screen is
      the tickets filtered by the selection on the screen; after any list
      of clicks the screen is determined by the handler run over the
      clicks; a click on a check box costs render, effect, render; a
      currency click never runs the effect; a click that arrives before the
      pending effect leads to the same state.
    - Liveness: the rounds are deterministic and every round lowers
      [measure], so no run of rounds is infinite; the states where no round
      is due are those with nothing queued; every run, however far it has
      got, goes on to the state that [settle] computes
      ([rounds_converge]); hence a click on a check box is always shown in
      the end ([click_eventually_shown]).
    - Refinement: an event of the screen with React's rounds is one action
      of the specification, and the list on the screen is the list of
      visible tickets that the specification gives
      ([dispatch_refines_action], [start_refines_initial]); on every trace
      of clicks the check boxes and the buy buttons show what the
      specification expects in the state its actions lead to
      ([after_refines_trace]).
    - View and App: the check boxes show the flags and the buy buttons the
      converted prices of the filtered tickets, in order; from the screen
      only the three currencies of the table can be selected; the cards are
      keyed by position; the stop label for whole numbers of stops, with
      its two plural forms; the tree of the application is a function of
      the data and the clicks, in which the interleaving of currency clicks
      and check-box clicks cannot be observed; selecting the selected
      currency or [all] again leaves the tree as it is.
    - Well-formedness: the tree of a render passes [wf_node] exactly when
      every ticket shown has a carrier of [carrierImages]; with such data
      it does so in every state a user reaches, where the tickets on the
      screen are a sublist of the data; a ticket of another carrier gets an
      [img] without [src].

    ** Bounds and fuel

    Numbers are kept at their width: [mul] and the literals round to 53
    bits as the hardware does, and [toFixed] works on the exact value
    [m * 2^e] by integer division, without fuel.  [digits] recurses on the
    binary logarithm of its argument, which exceeds the number of decimal
    digits ([digits_go_enough]).  The digit search of [to_string] tries 1
    to 17 significant digits: 17 always identify a binary64 value, which
    [Shortest] proves ([candidates_17]: at 17 digits two neighbouring
    decimals lie inside the rounding interval, so the search never runs out
    of fuel).
    [settle] has fuel 4: [measure] counts the internal steps that remain
    and is at most 4 ([settle_terminates]), and 4 is reached by a click
    that arrives before the first effect ([four_rounds_needed]).  The theorems on whole prices
    hold up to the price where the two rounding errors (of the product to
    53 bits, of [toFixed] to hundredths) could add up to half a hundredth:
    2^51 for USD, 2^47 for EUR.

    ** Not modelled

    Style sheets, the pictures behind [carrierImages] and what the bundler
    makes of their paths (the files are not under src/; the model keeps the
    module path as the address), the inner structure of the [antd] widgets,
    and the data file tickets.json (the theorems hold for every list of
    tickets).  Everything else of the two source files is modelled; only
    the import and export lines have no counterpart.
    React's scheduler is modelled by its documented order (render, commit,
    effect, render again when a setter was called with another value), not
    by its implementation; the second render and effect that StrictMode
    adds in development builds are not modelled.  Strings are sequences
    of bytes (the UTF-8 encoding of the source text); no operation of the
    program depends on their length. *)

From stdpp Require Export base tactics list strings.
From Stdlib Require Export ZArith Lia.

#[global] Open Scope Z_scope.

Declare Scope js_scope.
Delimit Scope js_scope with js.

Create HintDb tickets discriminated.
Create Rewrite HintDb tickets_rw.

(** ** Tactics *)

(** Case analysis on every boolean variable of the goal, then computation. *)
Ltac bool_cases :=
  repeat match goal with
         | b : bool |- _ => destruct b
         end;
  simpl in *; try done.

(** Split a test [if b then _ else _] of the goal, keeping the equation. *)
Ltac case_if :=
  match goal with
  | |- context [if ?b then _ else _] =>
      let E := fresh "E" in destruct b eqn:E
  end.

(** ** Lists filtered by a boolean predicate

    [tickets.filter(p)] is stdpp's [filter] at the proposition [Is_true (p x)];
    these lemmas are stated for that form. *)

Section filter_bool.
Context {A : Type}.
Implicit Types (p q : A → bool) (l : list A).

Lemma filter_bool_cons p x l :
  filter p (x :: l) = if p x then x :: filter p l else filter p l.
Proof.
  rewrite filter_cons. destruct (p x); by case_decide.
Qed.

Lemma filter_bool_true p l :
  (∀ x, x ∈ l → p x = true) → filter p l = l.
Proof.
  induction l as [|x l IH]; intros H; [done|].
  rewrite filter_bool_cons, H by left. f_equal. apply IH.
  intros y Hy. apply H. by right.
Qed.

Lemma filter_bool_false p l :
  (∀ x, x ∈ l → p x = false) → filter p l = [].
Proof.
  induction l as [|x l IH]; intros H; [done|].
  rewrite filter_bool_cons, H by left. apply IH.
  intros y Hy. apply H. by right.
Qed.

Lemma filter_bool_ext p q l :
  (∀ x, x ∈ l → p x = q x) → filter p l = filter q l.
Proof.
  induction l as [|x l IH]; intros H; [done|].
  rewrite !filter_bool_cons, H by left.
  rewrite IH; [done|]. intros y Hy. apply H. by right.
Qed.

Lemma elem_of_filter_bool p l x :
  x ∈ filter p l ↔ p x = true ∧ x ∈ l.
Proof. rewrite list_elem_of_filter, Is_true_true. tauto. Qed.

Lemma filter_bool_idemp p l : filter p (filter p l) = filter p l.
Proof.
  apply filter_bool_true. intros x Hx.
  by apply elem_of_filter_bool in Hx as [? _].
Qed.

Lemma filter_bool_andb p q l :
  filter p (filter q l) = filter (λ x, q x && p x) l.
Proof.
  induction l as [|x l IH]; [done|].
  rewrite !filter_bool_cons. destruct (q x); simpl.
  - rewrite filter_bool_cons. destruct (p x); by rewrite IH.
  - done.
Qed.

Lemma filter_bool_length p l : (length (filter p l) ≤ length l)%nat.
Proof. apply length_filter. Qed.

End filter_bool.

#[export] Hint Rewrite @filter_bool_cons @filter_bool_idemp : tickets_rw.
#[export] Hint Resolve filter_bool_length : tickets.

(** ** Rounding an integer quotient to the nearest integer, ties upwards

    [round_half_up a d] is the integer [n] closest to [a / d], the larger
    one when two are equally close. *)

Definition round_half_up (a d : Z) : Z := (2 * a + d) / (2 * d).

Section rounding.
Context (a d : Z) (Hd : 0 < d).

Lemma round_half_up_bounds :
  2 * a - d < 2 * d * round_half_up a d ≤ 2 * a + d.
Proof.
  unfold round_half_up.
  pose proof (Z.mul_div_le (2 * a + d) (2 * d)).
  pose proof (Z.mul_succ_div_gt (2 * a + d) (2 * d)). lia.
Qed.

Lemma round_half_up_nearest n :
  Z.abs (2 * (d * round_half_up a d - a)) ≤ Z.abs (2 * (d * n - a)).
Proof.
  pose proof round_half_up_bounds.
  destruct (Z.lt_trichotomy n (round_half_up a d)) as [?|[->|?]]; [nia|lia|nia].
Qed.

Lemma round_half_up_exact q : a = d * q → round_half_up a d = q.
Proof.
  intros ->. unfold round_half_up.
  replace (2 * (d * q) + d) with (q * (2 * d) + d) by lia.
  rewrite Z.div_add_l, Z.div_small; lia.
Qed.

Lemma round_half_up_nonneg : 0 ≤ a → 0 ≤ round_half_up a d.
Proof. intros. unfold round_half_up. apply Z.div_pos; lia. Qed.

(** An integer nearer than one half is the rounded value. *)
Lemma round_half_up_unique n :
  2 * Z.abs (a - n * d) < d → round_half_up a d = n.
Proof.
  intros H. unfold round_half_up. symmetry.
  apply (Z.div_unique _ _ _ (2 * a + d - 2 * d * n)); lia.
Qed.

End rounding.

Lemma round_half_up_mono a b d :
  0 < d → a ≤ b → round_half_up a d ≤ round_half_up b d.
Proof. intros. unfold round_half_up. apply Z.div_le_mono; lia. Qed.

#[export] Hint Resolve round_half_up_nonneg round_half_up_mono : tickets.

(** ** Strings *)

Lemma string_app_cons c (s t : string) : String c s +:+ t = String c (s +:+ t).
Proof. reflexivity. Qed.

Lemma string_app_nil_l (s : string) : "" +:+ s = s.
Proof. reflexivity. Qed.

Lemma string_length_app (s t : string) :
  String.length (s +:+ t) = (String.length s + String.length t)%nat.
Proof.
  induction s as [|c s IH]; [done|].
  rewrite string_app_cons. simpl. by rewrite IH.
Qed.

Lemma string_app_nil_r (s : string) : s +:+ "" = s.
Proof.
  induction s as [|c s IH]; [done|]. by rewrite string_app_cons, IH.
Qed.

Lemma string_app_assoc (s t u : string) : (s +:+ t) +:+ u = s +:+ (t +:+ u).
Proof.
  induction s as [|c s IH]; [done|]. by rewrite !string_app_cons, IH.
Qed.

#[export] Hint Rewrite string_app_cons string_app_nil_l string_length_app
  string_app_nil_r string_app_assoc : tickets_rw.
