(* ===== verification/Digits.v ===== *)
(** * Digits: decimal digit strings

    The digit strings that [Number.prototype.toFixed] and
    [Number::toString] produce: the decimal representation of a natural
    number with no leading zero ([digits]), its inverse ([value]), the
    fixed-width form ([pad_digits]), runs of zeros ([zeros]), and the
    placement of the decimal point as ECMA-262 words it, on the string
    ([insert_point]), beside an arithmetic reference ([fixed_ref]).

    [digits] divides by ten until the quotient is below ten; the fuel
    [digits_fuel n] is the binary length of [n], which bounds the number of
    divisions. *)

From S2P Require Import Prelude.
From Stdlib Require Import Ascii.

(** ** Definitions *)

(** The character of a digit [0..9]: code unit [0x30 + d]. *)
Definition digit_char (d : Z) : ascii := ascii_of_N (48 + Z.to_N d).

(** The digit a character stands for. *)
Definition digit_val (c : ascii) : Z := Z.of_N (N_of_ascii c) - 48.

Definition is_digit (c : ascii) : bool :=
  (48 <=? Z.of_N (N_of_ascii c)) && (Z.of_N (N_of_ascii c) <=? 57).

Fixpoint all_digits (s : string) : bool :=
  match s with
  | EmptyString => true
  | String c s' => is_digit c && all_digits s'
  end.

Fixpoint digits_go (fuel : nat) (n : Z) (acc : string) : string :=
  match fuel with
  | O => acc
  | S fuel' =>
      let acc' := String (digit_char (n mod 10)) acc in
      if n <? 10 then acc' else digits_go fuel' (n / 10) acc'
  end.

Definition digits_fuel (n : Z) : nat := S (Z.to_nat (Z.log2 n)).

(** The digits of the decimal representation of [n], in order, with no
    leading zero; ["0"] for zero. *)
Definition digits (n : Z) : string := digits_go (digits_fuel n) n "".

Fixpoint value_go (s : string) (acc : Z) : Z :=
  match s with
  | EmptyString => acc
  | String c s' => value_go s' (10 * acc + digit_val c)
  end.

(** The number a digit string denotes. *)
Definition value (s : string) : Z := value_go s 0.

(** [k] occurrences of the code unit 0x0030 (DIGIT ZERO). *)
Fixpoint zeros (k : nat) : string :=
  match k with
  | O => ""
  | S k' => String "0" (zeros k')
  end.

(** The last [f] digits of [r], zero-padded on the left. *)
Fixpoint pad_digits (f : nat) (r : Z) : string :=
  match f with
  | O => ""
  | S f' => pad_digits f' (r / 10) +:+ String (digit_char (r mod 10)) ""
  end.

(** ECMA-262, Number.prototype.toFixed, step 11.c: given the digit string
    [m] of [n] and [f] fraction digits, pad [m] to [f + 1] digits and put
    the point before the last [f]. *)
Definition insert_point (m : string) (f : nat) : string :=
  match f with
  | O => m
  | S _ =>
      let k := String.length m in
      let m' := if (k <=? f)%nat then zeros (f + 1 - k) +:+ m else m in
      let k' := if (k <=? f)%nat then (f + 1)%nat else k in
      let a := String.substring 0 (k' - f) m' in
      let b := String.substring (k' - f) f m' in
      a +:+ "." +:+ b
  end.

(** The same string by arithmetic: integer part, point, fraction part. *)
Definition fixed_ref (n : Z) (f : nat) : string :=
  match f with
  | O => digits n
  | S _ => digits (n / 10 ^ Z.of_nat f) +:+ "." +:+ pad_digits f (n mod 10 ^ Z.of_nat f)
  end.

(** Removes the zeros at the end of a digit string. *)
Fixpoint strip_trailing_zeros (s : string) : string :=
  match s with
  | EmptyString => ""
  | String c s' =>
      match strip_trailing_zeros s' with
      | EmptyString => if Ascii.eqb c "0" then "" else String c ""
      | r => String c r
      end
  end.

(** ** Characters *)

Lemma digit_val_char d : 0 ≤ d < 10 → digit_val (digit_char d) = d.
Proof.
  intros Hd. unfold digit_val, digit_char.
  rewrite N_ascii_embedding; lia.
Qed.

Lemma is_digit_char d : 0 ≤ d < 10 → is_digit (digit_char d) = true.
Proof.
  intros Hd. unfold is_digit, digit_char.
  rewrite N_ascii_embedding by lia.
  apply andb_true_intro; split; apply Z.leb_le; lia.
Qed.

Lemma digit_char_mod n : is_digit (digit_char (n mod 10)) = true.
Proof. apply is_digit_char, Z.mod_pos_bound. lia. Qed.

Lemma digit_val_mod n : digit_val (digit_char (n mod 10)) = n mod 10.
Proof. apply digit_val_char, Z.mod_pos_bound. lia. Qed.

#[export] Hint Resolve digit_char_mod : tickets.
#[export] Hint Rewrite digit_val_mod : tickets_rw.

(** ** Strings of digits *)

Lemma all_digits_app s t :
  all_digits (s +:+ t) = all_digits s && all_digits t.
Proof.
  induction s as [|c s IH]; [done|].
  rewrite string_app_cons. simpl. by rewrite IH, andb_assoc.
Qed.

Lemma value_go_app s t acc :
  value_go (s +:+ t) acc = value_go t (value_go s acc).
Proof.
  revert acc. induction s as [|c s IH]; intros acc; [done|].
  rewrite string_app_cons. simpl. apply IH.
Qed.

Lemma value_go_shift s acc :
  value_go s acc = acc * 10 ^ Z.of_nat (String.length s) + value_go s 0.
Proof.
  revert acc. induction s as [|c s IH]; intros acc; simpl String.length.
  - simpl. lia.
  - simpl value_go. rewrite IH, (IH (10 * 0 + _)).
    rewrite Nat2Z.inj_succ, Z.pow_succ_r by lia. lia.
Qed.

Lemma value_app s t :
  value (s +:+ t) = value s * 10 ^ Z.of_nat (String.length t) + value t.
Proof. unfold value. rewrite value_go_app. apply value_go_shift. Qed.

Lemma length_zeros k : String.length (zeros k) = k.
Proof. induction k; simpl; congruence. Qed.

Lemma all_digits_zeros k : all_digits (zeros k) = true.
Proof. induction k; [done|]. simpl. by rewrite IHk. Qed.

Lemma value_zeros k : value (zeros k) = 0.
Proof.
  unfold value. induction k as [|k IH]; [done|]. simpl. apply IH.
Qed.

Lemma length_pad_digits f r : String.length (pad_digits f r) = f.
Proof.
  revert r. induction f as [|f IH]; intros r; [done|].
  simpl. rewrite string_length_app, IH. simpl. lia.
Qed.

Lemma all_digits_pad_digits f r : all_digits (pad_digits f r) = true.
Proof.
  revert r. induction f as [|f IH]; intros r; [done|].
  simpl. rewrite all_digits_app, IH. simpl. by rewrite digit_char_mod.
Qed.

Lemma value_pad_digits f r :
  0 ≤ r → value (pad_digits f r) = r mod 10 ^ Z.of_nat f.
Proof.
  revert r. induction f as [|f IH]; intros r Hr.
  - simpl. by rewrite Z.mod_1_r.
  - simpl pad_digits. rewrite value_app, IH by (apply Z.div_pos; lia).
    change (value (String (digit_char (r mod 10)) ""))
      with (10 * 0 + digit_val (digit_char (r mod 10))).
    change (Z.of_nat (String.length (String (digit_char (r mod 10)) ""))) with 1.
    rewrite digit_val_mod.
    replace (10 ^ Z.of_nat (S f)) with (10 * 10 ^ Z.of_nat f)
      by (rewrite Nat2Z.inj_succ, Z.pow_succ_r; lia).
    rewrite Z.rem_mul_r by lia. lia.
Qed.

#[export] Hint Rewrite length_zeros length_pad_digits all_digits_zeros
  all_digits_pad_digits all_digits_app : tickets_rw.

(** ** Fuel *)

Lemma digits_go_acc fuel n acc :
  digits_go fuel n acc = digits_go fuel n "" +:+ acc.
Proof.
  revert n acc. induction fuel as [|fuel IH]; intros n acc; [done|].
  simpl. destruct (n <? 10); [done|].
  rewrite IH, (IH _ (String _ "")), string_app_assoc. done.
Qed.

Lemma log2_div10_lt n : 10 ≤ n → Z.log2 (n / 10) < Z.log2 n.
Proof.
  intros Hn.
  assert (0 < n / 10) by (apply Z.div_str_pos; lia).
  apply Z.log2_lt_pow2; [done|].
  destruct (Z.log2_spec n) as [_ Hhi]; [lia|].
  rewrite Z.pow_succ_r in Hhi by apply Z.log2_nonneg.
  apply Z.div_lt_upper_bound; lia.
Qed.

Lemma digits_fuel_div10 n f :
  10 ≤ n → (digits_fuel n ≤ S f)%nat → (digits_fuel (n / 10) ≤ f)%nat.
Proof.
  intros Hn Hf. pose proof (log2_div10_lt n Hn).
  pose proof (Z.log2_nonneg (n / 10)). unfold digits_fuel in *. lia.
Qed.

(** Any two fuels of at least [digits_fuel n] give the same string: the
    loop has stopped by then. *)
Lemma digits_go_fuel f1 f2 n acc :
  (digits_fuel n ≤ f1)%nat → (digits_fuel n ≤ f2)%nat →
  digits_go f1 n acc = digits_go f2 n acc.
Proof.
  revert f2 n acc. induction f1 as [|f1 IH]; intros [|f2] n acc H1 H2;
    try (unfold digits_fuel in *; lia).
  simpl. destruct (Z.ltb_spec n 10) as [|Hge]; [done|].
  apply IH; by apply digits_fuel_div10.
Qed.

Lemma digits_go_enough fuel n acc :
  (digits_fuel n ≤ fuel)%nat →
  digits_go fuel n acc = digits_go (digits_fuel n) n acc.
Proof. intros. by apply digits_go_fuel. Qed.

Lemma digits_small n : 0 ≤ n < 10 → digits n = String (digit_char n) "".
Proof.
  intros Hn. unfold digits, digits_fuel. simpl.
  destruct (Z.ltb_spec n 10); [|lia]. by rewrite Z.mod_small.
Qed.

Lemma digits_step n :
  10 ≤ n → digits n = digits (n / 10) +:+ String (digit_char (n mod 10)) "".
Proof.
  intros Hn. unfold digits at 1. unfold digits_fuel. simpl.
  destruct (Z.ltb_spec n 10); [lia|].
  rewrite digits_go_acc. f_equal.
  apply digits_go_enough, digits_fuel_div10; [done|].
  unfold digits_fuel. lia.
Qed.

(** Induction on a natural number along its decimal digits. *)
Lemma decimal_ind (P : Z → Prop) :
  (∀ n, 0 ≤ n < 10 → P n) →
  (∀ n, 10 ≤ n → P (n / 10) → P n) →
  ∀ n, 0 ≤ n → P n.
Proof.
  intros Hsmall Hstep. apply Zlt_0_ind. intros n IH Hn.
  destruct (Z.lt_ge_cases n 10); [apply Hsmall; lia|].
  apply Hstep; [done|]. apply IH.
  split; [apply Z.div_pos; lia|apply Z.div_lt; lia].
Qed.

(** ** Digits of a number *)

Lemma all_digits_digits n : 0 ≤ n → all_digits (digits n) = true.
Proof.
  revert n. apply decimal_ind; intros n Hn.
  - rewrite digits_small by done. simpl. by rewrite is_digit_char.
  - intros IH. rewrite digits_step, all_digits_app, IH by done.
    simpl. by rewrite digit_char_mod.
Qed.

Lemma value_digits n : 0 ≤ n → value (digits n) = n.
Proof.
  revert n. apply decimal_ind; intros n Hn.
  - rewrite digits_small by done. unfold value. simpl.
    rewrite digit_val_char; lia.
  - intros IH. rewrite digits_step, value_app, IH by done.
    unfold value. simpl. rewrite digit_val_mod.
    change (Z.of_nat 1) with 1. pose proof (Z.div_mod n 10). lia.
Qed.

Lemma digits_inj n1 n2 : 0 ≤ n1 → 0 ≤ n2 → digits n1 = digits n2 → n1 = n2.
Proof.
  intros H1 H2 E. apply (f_equal value) in E. by rewrite !value_digits in E.
Qed.

(** A number of [k] digits is below [10^k], and at least [10^(k-1)] when it
    is not zero. *)
Lemma digits_length_bounds n :
  0 ≤ n →
  n < 10 ^ Z.of_nat (String.length (digits n)) ∧
  (0 < n → 10 ^ (Z.of_nat (String.length (digits n)) - 1) ≤ n).
Proof.
  revert n. apply decimal_ind; intros n Hn.
  - rewrite digits_small by done. simpl. lia.
  - intros [IH1 IH2]. rewrite digits_step, string_length_app by done.
    simpl String.length. rewrite Nat2Z.inj_add. change (Z.of_nat 1) with 1.
    pose proof (Z.div_mod n 10). pose proof (Z.mod_pos_bound n 10).
    assert (0 < n / 10) by (apply Z.div_str_pos; lia).
    rewrite Z.pow_add_r, Z.pow_1_r, Z.add_simpl_r by lia.
    split; [lia|]. intros _. specialize (IH2 H1).
    replace (Z.of_nat (String.length (digits (n / 10))))
      with (Z.succ (Z.of_nat (String.length (digits (n / 10))) - 1)) by lia.
    rewrite Z.pow_succ_r; [lia|].
    destruct (digits (n / 10)); simpl in *; lia.
Qed.

Lemma digits_length_pos n : (1 ≤ String.length (digits n))%nat.
Proof.
  unfold digits, digits_fuel. simpl. destruct (n <? 10); [simpl; lia|].
  rewrite digits_go_acc, string_length_app. simpl. lia.
Qed.

Lemma digits_length_le n f :
  0 ≤ n → (String.length (digits n) ≤ f)%nat → n < 10 ^ Z.of_nat f.
Proof.
  intros Hn Hf. destruct (digits_length_bounds n Hn) as [Hlt _].
  eapply Z.lt_le_trans; [done|]. apply Z.pow_le_mono_r; lia.
Qed.

Lemma digits_length_gt n f :
  0 ≤ n → (0 < f < String.length (digits n))%nat → 10 ^ Z.of_nat f ≤ n.
Proof.
  intros Hn Hf. destruct (digits_length_bounds n Hn) as [_ Hge].
  destruct (Z.eq_dec n 0) as [->|].
  { change (digits 0) with "0"%string in Hf. simpl in Hf. lia. }
  etrans; [|apply Hge; lia]. apply Z.pow_le_mono_r; lia.
Qed.

(** ** Fixed-width digits *)

Lemma zeros_snoc k : zeros k +:+ "0" = zeros (S k).
Proof. induction k as [|k IH]; [done|]. simpl. by rewrite string_app_cons, IH. Qed.

Lemma zeros_add j k : zeros j +:+ zeros k = zeros (j + k).
Proof. induction j as [|j IH]; [done|]. simpl. by rewrite string_app_cons, IH. Qed.

Lemma pad_digits_zero f : pad_digits f 0 = zeros f.
Proof.
  induction f as [|f IH]; [done|].
  simpl pad_digits. change (0 / 10) with 0. change (0 mod 10) with 0.
  rewrite IH. apply zeros_snoc.
Qed.

(** A number that fits in [f] digits is padded with zeros on the left. *)
Lemma pad_digits_small f n :
  0 ≤ n → (String.length (digits n) ≤ f)%nat →
  pad_digits f n = zeros (f - String.length (digits n)) +:+ digits n.
Proof.
  revert n. induction f as [|f IH]; intros n Hn Hf.
  { pose proof (digits_length_pos n). lia. }
  simpl pad_digits. destruct (Z.lt_ge_cases n 10) as [Hlt|Hge].
  - rewrite digits_small, Z.div_small, Z.mod_small, pad_digits_zero by lia.
    simpl String.length. by replace (S f - 1)%nat with f by lia.
  - rewrite digits_step, string_length_app in * by done. simpl in Hf.
    rewrite IH by (try apply Z.div_pos; lia).
    rewrite string_app_assoc. do 2 f_equal. simpl. lia.
Qed.

(** A number of more than [f] digits splits into its leading digits and
    its last [f] digits. *)
Lemma digits_split f n :
  10 ^ Z.of_nat f ≤ n → 0 < n →
  digits n = digits (n / 10 ^ Z.of_nat f) +:+ pad_digits f (n mod 10 ^ Z.of_nat f).
Proof.
  revert n. induction f as [|f IH]; intros n Hf Hn.
  { change (10 ^ Z.of_nat 0) with 1. simpl.
    by rewrite Z.div_1_r, string_app_nil_r. }
  rewrite Nat2Z.inj_succ, Z.pow_succ_r in * by lia.
  assert (0 < 10 ^ Z.of_nat f) by (apply Z.pow_pos_nonneg; lia).
  rewrite digits_step by lia. simpl pad_digits.
  rewrite IH by (try apply Z.div_le_lower_bound; try apply Z.div_str_pos; lia).
  rewrite Z.div_div, string_app_assoc by lia. do 3 f_equal.
  - rewrite Z.rem_mul_r, (Z.mul_comm 10), Z.div_add by lia.
    rewrite (Z.div_small (n mod 10)) by (apply Z.mod_pos_bound; lia). lia.
  - rewrite Z.rem_mul_r, (Z.mul_comm 10), Z.mod_add by lia.
    by rewrite Z.mod_mod by lia.
Qed.

(** ** Substrings of a concatenation *)

Lemma substring_all s : String.substring 0 (String.length s) s = s.
Proof. induction s as [|c s IH]; [done|]. simpl. by rewrite IH. Qed.

Lemma substring_app_l a b :
  String.substring 0 (String.length a) (a +:+ b) = a.
Proof.
  induction a as [|c a IH]; [by destruct b|].
  rewrite string_app_cons. simpl. by rewrite IH.
Qed.

Lemma substring_app_r a b :
  String.substring (String.length a) (String.length b) (a +:+ b) = b.
Proof.
  induction a as [|c a IH]; [apply substring_all|].
  rewrite string_app_cons. simpl. apply IH.
Qed.

(** ** The decimal point *)

(** The string manipulation of ECMA-262 computes the arithmetic reference. *)
Lemma insert_point_digits n f :
  0 ≤ n → insert_point (digits n) f = fixed_ref n f.
Proof.
  intros Hn. destruct f as [|f']; [done|].
  unfold insert_point, fixed_ref. set (f := S f').
  assert (0 < f)%nat by (unfold f; lia).
  assert (0 < 10 ^ Z.of_nat f) by (apply Z.pow_pos_nonneg; lia).
  destruct (Nat.leb_spec (String.length (digits n)) f) as [Hk|Hk].
  - pose proof (digits_length_le n f Hn Hk).
    rewrite Z.div_small, Z.mod_small, pad_digits_small by lia.
    replace (f + 1 - String.length (digits n))%nat
      with (1 + (f - String.length (digits n)))%nat by lia.
    rewrite <- zeros_add, string_app_assoc.
    replace (f + 1 - f)%nat with (String.length (zeros 1)) by (simpl; lia).
    rewrite substring_app_l. do 2 f_equal.
    set (b := zeros _ +:+ digits n).
    replace f with (String.length b) at 1.
    + apply substring_app_r.
    + unfold b. autorewrite with tickets_rw. lia.
  - assert (10 ^ Z.of_nat f ≤ n) as Hge by (apply digits_length_gt; lia).
    rewrite (digits_split f n Hge) by lia.
    set (a := digits (n / 10 ^ Z.of_nat f)).
    set (b := pad_digits f (n mod 10 ^ Z.of_nat f)).
    assert (String.length b = f) as Hb by apply length_pad_digits.
    rewrite string_length_app, Hb.
    replace (String.length a + f - f)%nat with (String.length a) by lia.
    rewrite substring_app_l. do 2 f_equal.
    rewrite <- Hb at 1. apply substring_app_r.
Qed.

(** The digits around the point denote the whole number again. *)
Lemma value_fixed_parts n f :
  0 ≤ n →
  value (digits (n / 10 ^ Z.of_nat f)) * 10 ^ Z.of_nat f
  + value (pad_digits f (n mod 10 ^ Z.of_nat f)) = n.
Proof.
  intros Hn. assert (0 < 10 ^ Z.of_nat f) by (apply Z.pow_pos_nonneg; lia).
  rewrite value_digits by (apply Z.div_pos; lia).
  rewrite value_pad_digits by (apply Z.mod_pos_bound; lia).
  rewrite Z.mod_mod by lia. pose proof (Z.div_mod n (10 ^ Z.of_nat f)). lia.
Qed.


(** ** Trailing zeros *)

(** The digits of a multiple of a power of ten end in zeros. *)
Lemma digits_mul_pow10 n k :
  0 < n → digits (n * 10 ^ Z.of_nat k) = digits n +:+ zeros k.
Proof.
  intros Hn. assert (0 < 10 ^ Z.of_nat k) by (apply Z.pow_pos_nonneg; lia).
  rewrite (digits_split k) by nia.
  by rewrite Z.div_mul, Z.mod_mul, pad_digits_zero by lia.
Qed.

Lemma strip_trailing_zeros_cons c s :
  strip_trailing_zeros (String c s) =
    match strip_trailing_zeros s with
    | EmptyString => if Ascii.eqb c "0" then "" else String c ""
    | r => String c r
    end.
Proof. done. Qed.

Lemma strip_trailing_zeros_zeros k : strip_trailing_zeros (zeros k) = "".
Proof.
  induction k as [|k IH]; [done|].
  cbn [zeros]. by rewrite strip_trailing_zeros_cons, IH.
Qed.

Lemma strip_trailing_zeros_app_zeros s k :
  strip_trailing_zeros (s +:+ zeros k) = strip_trailing_zeros s.
Proof.
  induction s as [|c s IH].
  - rewrite string_app_nil_l. apply strip_trailing_zeros_zeros.
  - by rewrite string_app_cons, !strip_trailing_zeros_cons, IH.
Qed.

(** What is removed is zeros, and putting them back restores the string. *)
Lemma strip_trailing_zeros_restore s :
  strip_trailing_zeros s
  +:+ zeros (String.length s - String.length (strip_trailing_zeros s)) = s.
Proof.
  induction s as [|c s IH]; [done|]. rewrite strip_trailing_zeros_cons.
  destruct (strip_trailing_zeros s) as [|d r] eqn:Hs.
  - rewrite string_app_nil_l in IH. simpl in IH. rewrite Nat.sub_0_r in IH.
    destruct (Ascii.eqb_spec c "0") as [->|_].
    + rewrite string_app_nil_l. cbn [String.length Nat.sub zeros]. by rewrite IH.
    + rewrite string_app_cons, string_app_nil_l. cbn [String.length Nat.sub].
      by rewrite Nat.sub_0_r, IH.
  - rewrite string_app_cons.
    change (String.length (String c s) - String.length (String c (String d r)))%nat
      with (String.length s - String.length (String d r))%nat.
    by rewrite IH.
Qed.

Lemma strip_trailing_zeros_length s :
  (String.length (strip_trailing_zeros s) ≤ String.length s)%nat.
Proof.
  rewrite <- (strip_trailing_zeros_restore s) at 2.
  rewrite string_length_app. lia.
Qed.
