(* ===== verification/JsNumber.v ===== *)
(** * JsNumber: the values of the type [number]

    A [number] is an IEEE-754 binary64 value: the Standard Library's
    [spec_float] at precision [prec = 53] and maximal exponent
    [emax = 1024].  A finite value [S754_finite s m e] is [(-1)^s * m * 2^e].

    The file gives the operations the program uses on numbers:
    - numeric literals: [of_Z] for [0], [1], [2], [3] and [of_decimal] for
      [0.01] and [0.0095] (the nearest binary64 value, as the parser gives);
    - [strict_eq] for [===], [mul] for [*], [to_boolean] for the truthiness
      test made by [||];
    - [toFixed] for [Number.prototype.toFixed], step by step as ECMA-262
      (21.1.3.3) words it, for [0 <= fractionDigits <= 100] (outside that
      range the method raises a RangeError; the program passes [2]).  For
      values of at least 10^21 the method returns [Number::toString];
    - [to_string] for [Number::toString] in radix 10 (ECMA-262 6.1.6.1.20),
      which the template literal of the stop-count label applies: the
      shortest decimal that reads back as the same number. *)

From S2P Require Import Prelude Digits.
From Stdlib Require Import SpecFloat.

(** ** Definitions *)

Definition prec : Z := 53.
Definition emax : Z := 1024.

Definition number : Type := spec_float.

Definition NaN : number := S754_nan.

(** The representation is the canonical one of a binary64 value. *)
Definition valid (x : number) : bool := valid_binary prec emax x.

(** An integer literal. *)
Definition of_Z (z : Z) : number := binary_normalize prec emax z 0 false.

(** The decimal literal [m * 10^-k]: the binary64 value nearest to it. *)
Definition of_decimal (m : Z) (k : nat) : number :=
  SFdiv prec emax (of_Z m) (of_Z (10 ^ Z.of_nat k)).

(** [x * y] *)
Definition mul (x y : number) : number := SFmul prec emax x y.

(** [x === y] on numbers: [NaN] differs from itself, [+0] equals [-0]. *)
Definition strict_eq (x y : number) : bool := SFeqb x y.

(** ToBoolean on a number: false for [+0], [-0] and [NaN]. *)
Definition to_boolean (x : number) : bool :=
  match x with
  | S754_zero _ | S754_nan => false
  | _ => true
  end.

Definition is_finite (x : number) : bool :=
  match x with
  | S754_zero _ | S754_finite _ _ _ => true
  | _ => false
  end.

(** [m * 2^e * 10^f] as a fraction [(a, d)], exactly. *)
Definition scaled (f : nat) (m : positive) (e : Z) : Z * Z :=
  if 0 <=? e then (Z.pos m * 2 ^ e * 10 ^ Z.of_nat f, 1)
  else (Z.pos m * 10 ^ Z.of_nat f, 2 ^ (- e)).

(** toFixed, step 11.a: the integer [n] for which [n / 10^f - x] is as close
    to zero as possible, the larger [n] if there are two. *)
Definition nearest_scaled (f : nat) (m : positive) (e : Z) : Z :=
  round_half_up (scaled f m e).1 (scaled f m e).2.

(** [m * 2^e >= 10^k] *)
Definition at_least_pow10 (k : nat) (m : positive) (e : Z) : bool :=
  10 ^ Z.of_nat k * (scaled 0 m e).2 <=? (scaled 0 m e).1.

(** The smallest exponent of a binary64 mantissa. *)
Definition emin : Z := 3 - emax - prec.

(** Number::toString works on [x = m * 2^e] scaled to an integer: [X] is
    [x * D * 10^a], where [D = 2^-e] clears the binary fraction and the
    decimal scale [a] is large enough for [x * 10^a] to have at least 17
    digits before the point. *)
Definition decimal_scale (m : positive) (e : Z) : Z :=
  if 0 <=? e then (if at_least_pow10 16 m e then 0 else 17)
  else Z.max 0 (17 + Z.of_nat (String.length (digits (2 ^ (- e))))
                   - Z.of_nat (String.length (digits (Z.pos m)))).

(** The reals that round to [m * 2^e], scaled as [X] is: four times the
    lower and the upper end, and whether the ends belong to it (ties go to
    the even mantissa).  Below a power of two the lower neighbour is half as
    far, except at the smallest exponent. *)
Definition rounding_interval (m : positive) (e a : Z) : Z * Z * bool :=
  let gap := 2 ^ Z.max 0 e * 10 ^ a in
  let X := Z.pos m * gap in
  let below :=
    if (Z.pos m =? 2 ^ (prec - 1)) && (emin <? e) then gap else 2 * gap in
  (4 * X - below, 4 * X + 2 * gap, Z.even (Z.pos m)).

Definition in_interval (I : Z * Z * bool) (V : Z) : bool :=
  let '(lo, hi, closed) := I in
  if closed then (lo <=? 4 * V) && (4 * V <=? hi)
  else (lo <? 4 * V) && (4 * V <? hi).

(** Number::toString, step 5: the decimal [s * 10^(n-k)] with the fewest
    digits [k] that rounds to [x], the closest to [x] among those, the even
    [s] on a tie.  The candidates with [k] digits are the two multiples of
    [10^(N-k)] around [x * 10^a], where [N] is the number of digits of its
    integer part; the result is the chosen candidate times [10^a]. *)
Fixpoint shortest_go (fuel : nat) (k : Z) (X D : Z) (I : Z * Z * bool) (N : Z) : Z :=
  match fuel with
  | O => X / D
  | S fuel' =>
      let p := D * 10 ^ (N - k) in
      let V1 := X / p * p in
      let V2 := V1 + p in
      match in_interval I V1, in_interval I V2 with
      | true, true =>
          if X - V1 <? V2 - X then V1 / D
          else if V2 - X <? X - V1 then V2 / D
          else if Z.even (X / p) then V1 / D else V2 / D
      | true, false => V1 / D
      | false, true => V2 / D
      | false, false => shortest_go fuel' (k + 1) X D I N
      end
  end.

(** The digits of [s] and the exponent [n] of Number::toString, step 5. *)
Definition shortest_digits (m : positive) (e : Z) : string * Z :=
  let a := decimal_scale m e in
  let D := 2 ^ Z.max 0 (- e) in
  let X := Z.pos m * 2 ^ Z.max 0 e * 10 ^ a in
  let N := Z.of_nat (String.length (digits (X / D))) in
  let W := shortest_go 17 1 X D (rounding_interval m e a) N in
  (strip_trailing_zeros (digits W), Z.of_nat (String.length (digits W)) - a).

(** Number::toString, steps 6 to 10: the digits [s] with the point or the
    exponent that [n] asks for. *)
Definition format_digits (s : string) (n : Z) : string :=
  let k := Z.of_nat (String.length s) in
  if (k <=? n) && (n <=? 21) then s +:+ zeros (Z.to_nat (n - k))
  else if (0 <? n) && (n <=? 21) then
    String.substring 0 (Z.to_nat n) s +:+ "." +:+
    String.substring (Z.to_nat n) (Z.to_nat (k - n)) s
  else if (-6 <? n) && (n <=? 0) then "0." +:+ zeros (Z.to_nat (- n)) +:+ s
  else
    let sign := if 0 <? n - 1 then "+" else "-" in
    let ex := digits (Z.abs (n - 1)) in
    match s with
    | EmptyString => ""
    | String c EmptyString => String c ("e" +:+ sign +:+ ex)
    | String c rest => String c ("." +:+ rest +:+ "e" +:+ sign +:+ ex)
    end.

(** Number::toString(x), radix 10 (ECMA-262 6.1.6.1.20). *)
Definition to_string (x : number) : string :=
  match x with
  | S754_nan => "NaN"
  | S754_zero _ => "0"
  | S754_infinity s => if s then "-Infinity" else "Infinity"
  | S754_finite s m e =>
      (if s then "-" else "") +:+
      (let '(d, n) := shortest_digits m e in format_digits d n)
  end.

(** Number.prototype.toFixed(fractionDigits) *)
Definition toFixed (x : number) (fractionDigits : nat) : string :=
  match x with
  | S754_nan => "NaN"
  | S754_infinity s => if s then "-Infinity" else "Infinity"
  | S754_zero _ => insert_point (digits 0) fractionDigits
  | S754_finite s m e =>
      (if s then "-" else "") +:+
      (if at_least_pow10 21 m e then to_string (S754_finite false m e)
       else insert_point (digits (nearest_scaled fractionDigits m e)) fractionDigits)
  end.


#[export] Instance number_eq_dec : EqDecision number.
Proof. solve_decision. Defined.

(** The integer a number denotes, when it denotes one. *)
Definition to_Z (x : number) : option Z :=
  match x with
  | S754_zero _ => Some 0
  | S754_finite s m e =>
      let sign := if s then -1 else 1 in
      if 0 <=? e then Some (sign * (Z.pos m * 2 ^ e))
      else if Z.pos m mod 2 ^ (- e) =? 0 then Some (sign * (Z.pos m / 2 ^ (- e)))
      else None
  | _ => None
  end.

(** ** Shifting a mantissa

    The rounding functions of [SpecFloat] shift a mantissa right one bit at
    a time, [iter_pos shr_1], and normalisation shifts it left with
    [Pos.iter xO].  Both are iterations of a function; the lemmas below
    relate them through [Nat.iter]. *)

Lemma iter_pos_nat {A} (f : A → A) p x :
  iter_pos f p x = Nat.iter (Pos.to_nat p) f x.
Proof.
  revert x. induction p as [p IH|p IH|]; intros x; cbn [iter_pos].
  - rewrite !IH, Pos2Nat.inj_xI, <- Nat.iter_add, <- Nat.iter_succ_r.
    f_equal. lia.
  - rewrite !IH, Pos2Nat.inj_xO, <- Nat.iter_add. f_equal. lia.
  - done.
Qed.

Lemma pos_iter_nat {A} (f : A → A) x p :
  Pos.iter f x p = Nat.iter (Pos.to_nat p) f x.
Proof. apply Pos2Nat.inj_iter. Qed.

Lemma shr_1_iter_xO n m :
  Nat.iter n shr_1 (Build_shr_record (Z.pos (Nat.iter n xO m)) false false)
  = Build_shr_record (Z.pos m) false false.
Proof.
  induction n as [|n IH]; [done|].
  rewrite Nat.iter_succ_r. simpl. apply IH.
Qed.

Lemma iter_pos_shr_1_xO k m :
  iter_pos shr_1 k (Build_shr_record (Z.pos (Pos.iter xO m k)) false false)
  = Build_shr_record (Z.pos m) false false.
Proof. rewrite iter_pos_nat, pos_iter_nat. apply shr_1_iter_xO. Qed.

Lemma digits2_pos_iter_xO k m :
  digits2_pos (Pos.iter xO m k) = (digits2_pos m + k)%positive.
Proof.
  rewrite pos_iter_nat. rewrite <- (Pos2Nat.id k) at 2.
  induction (Pos2Nat.is_succ k) as [n ->]. clear.
  induction n as [|n IH]; simpl in *; [lia|].
  rewrite IH. lia.
Qed.

Lemma digits2_pos_size p : digits2_pos p = Pos.size p.
Proof. induction p; simpl; congruence. Qed.

(** A mantissa has at most [k] bits exactly when it is below [2^k]. *)
Lemma digits2_pos_le p k :
  0 ≤ k → Z.pos (digits2_pos p) ≤ k ↔ Z.pos p < 2 ^ k.
Proof.
  intros Hk. rewrite digits2_pos_size. split; intros H.
  - pose proof (Pos.size_gt p) as Hgt.
    apply Pos2Z.pos_lt_pos in Hgt. rewrite Pos2Z.inj_pow in Hgt.
    eapply Z.lt_le_trans; [done|]. apply Z.pow_le_mono_r; lia.
  - pose proof (Pos.size_le p) as Hle.
    apply Pos2Z.pos_le_pos in Hle. rewrite Pos2Z.inj_pow in Hle.
    destruct (Z.le_gt_cases (Z.pos (Pos.size p)) k) as [|Hgt]; [done|].
    assert (2 ^ (k + 1) ≤ 2 ^ Z.pos (Pos.size p)) by (apply Z.pow_le_mono_r; lia).
    rewrite Z.pow_add_r in * by lia. lia.
Qed.

(** ** Rounding a value that needs none *)

(** A canonical mantissa is returned as it is. *)
Lemma binary_round_aux_canonical s m e :
  canonical_mantissa prec emax m e = true → e ≤ emax - prec →
  binary_round_aux prec emax s (Z.pos m) e loc_Exact = S754_finite s m e.
Proof.
  intros Hc He. apply Z.eqb_eq in Hc.
  unfold binary_round_aux, shr_fexp. simpl Zdigits2.
  rewrite Hc, Z.sub_diag. simpl. rewrite Hc, Z.sub_diag. simpl.
  by rewrite (proj2 (Z.leb_le _ _) He).
Qed.

(** Zeros at the end of a mantissa are shifted out exactly. *)
Lemma binary_round_aux_shift s m k e :
  canonical_mantissa prec emax m e = true → e ≤ emax - prec →
  binary_round_aux prec emax s (Z.pos (Pos.iter xO m k)) (e - Z.pos k) loc_Exact
  = S754_finite s m e.
Proof.
  intros Hc He. apply Z.eqb_eq in Hc.
  unfold binary_round_aux, shr_fexp at 1. simpl Zdigits2.
  rewrite digits2_pos_iter_xO.
  replace (Z.pos (digits2_pos m + k) + (e - Z.pos k))
    with (Z.pos (digits2_pos m) + e) by lia.
  rewrite Hc. replace (e - (e - Z.pos k)) with (Z.pos k) by lia.
  simpl shr. rewrite iter_pos_shr_1_xO. simpl.
  replace (e - Z.pos k + Z.pos k) with e by lia.
  unfold shr_fexp. simpl Zdigits2. rewrite Hc, Z.sub_diag. simpl.
  by rewrite (proj2 (Z.leb_le _ _) He).
Qed.

(** ** Integer literals *)

Lemma pos_iter_xO_nat n p : Z.pos (Nat.iter n xO p) = Z.pos p * 2 ^ Z.of_nat n.
Proof.
  induction n as [|n IH]; [simpl; rewrite Z.pow_0_r; lia|].
  rewrite Nat2Z.inj_succ, Z.pow_succ_r by lia. simpl Nat.iter.
  rewrite Pos2Z.inj_xO, IH. lia.
Qed.

Lemma pos_shiftl_mul p n : Z.pos (Pos.shiftl p n) = Z.pos p * 2 ^ Z.of_N n.
Proof.
  destruct n as [|k]; cbv [Pos.shiftl].
  - change (Z.of_N 0) with 0. rewrite Z.pow_0_r. lia.
  - by rewrite pos_iter_nat, pos_iter_xO_nat, positive_nat_Z.
Qed.

(** The canonical form of an integer below [2^53]: the mantissa shifted
    left to 53 bits. *)
Lemma binary_round_small s p :
  Z.pos p < 2 ^ prec →
  binary_round prec emax s p 0 =
    S754_finite s (Pos.shiftl p (Z.to_N (prec - Z.pos (digits2_pos p))))
                (Z.pos (digits2_pos p) - prec).
Proof.
  intros Hp. apply digits2_pos_le in Hp; [|done].
  unfold binary_round. rewrite Z.add_0_r.
  assert (fexp prec emax (Z.pos (digits2_pos p)) = Z.pos (digits2_pos p) - prec) as ->.
  { unfold fexp, SpecFloat.emin, prec, emax in *. lia. }
  unfold shl_align. rewrite Z.sub_0_r.
  destruct (Z.pos (digits2_pos p) - prec) as [|k|k] eqn:Hd; [|lia|].
  - replace (prec - Z.pos (digits2_pos p)) with 0 by lia.
    change (Pos.shiftl p (Z.to_N 0)) with p.
    apply binary_round_aux_canonical; [|done].
    apply Z.eqb_eq. unfold fexp, SpecFloat.emin, prec, emax in *. lia.
  - replace (prec - Z.pos (digits2_pos p)) with (Z.pos k) by lia.
    change (Pos.shiftl p (Z.to_N (Z.pos k))) with (Pos.iter xO p k).
    apply binary_round_aux_canonical; [|unfold prec, emax in *; lia].
    apply Z.eqb_eq. rewrite digits2_pos_iter_xO.
    unfold fexp, SpecFloat.emin, prec, emax in *. lia.
Qed.

Lemma of_Z_repr a :
  a ≠ 0 → Z.abs a < 2 ^ prec →
  ∃ m k, of_Z a = S754_finite (a <? 0) m (- Z.of_N k) ∧
         Z.pos m = Z.abs a * 2 ^ Z.of_N k ∧
         canonical_mantissa prec emax m (- Z.of_N k) = true.
Proof.
  intros Ha Hlt. unfold of_Z, binary_normalize.
  destruct a as [|p|p]; [done|..]; rewrite binary_round_small by done;
    (eexists _, (Z.to_N (prec - Z.pos (digits2_pos p))); split_and!;
     [f_equal; apply digits2_pos_le in Hlt; [lia|done]
     |by rewrite pos_shiftl_mul
     |]);
    apply Z.eqb_eq; apply digits2_pos_le in Hlt; try done;
    (destruct (Z.to_N (prec - Z.pos (digits2_pos p))) as [|k] eqn:Hk;
     cbv [Pos.shiftl]; rewrite ?digits2_pos_iter_xO;
     unfold fexp, SpecFloat.emin, prec, emax in *; lia).
Qed.

(** Integers of magnitude below [2^53] are represented exactly. *)
Lemma to_Z_of_Z a : Z.abs a < 2 ^ prec → to_Z (of_Z a) = Some a.
Proof.
  intros Hlt. destruct (Z.eq_dec a 0) as [->|Ha]; [done|].
  destruct (of_Z_repr a Ha Hlt) as (m & k & -> & Hm & _). unfold to_Z.
  assert (0 < 2 ^ Z.of_N k) by (apply Z.pow_pos_nonneg; lia).
  destruct (Z.leb_spec 0 (- Z.of_N k)).
  - assert (k = 0%N) as -> by lia. simpl in *.
    destruct (Z.ltb_spec a 0); f_equal; lia.
  - rewrite Z.opp_involutive, Hm, Z.mod_mul, Z.div_mul by lia. simpl.
    destruct (Z.ltb_spec a 0); f_equal; lia.
Qed.

Lemma valid_of_Z a : Z.abs a < 2 ^ prec → valid (of_Z a) = true.
Proof.
  intros Hlt. destruct (Z.eq_dec a 0) as [->|Ha]; [done|].
  destruct (of_Z_repr a Ha Hlt) as (m & k & -> & _ & Hc).
  unfold valid, valid_binary, bounded. rewrite Hc. simpl.
  apply Z.leb_le. unfold prec, emax. lia.
Qed.

Lemma of_Z_inj a b :
  Z.abs a < 2 ^ prec → Z.abs b < 2 ^ prec → of_Z a = of_Z b → a = b.
Proof.
  intros Ha Hb E. apply (f_equal to_Z) in E.
  rewrite !to_Z_of_Z in E by done. by injection E.
Qed.

(** ** Strict equality *)

Lemma strict_eq_refl x : x ≠ NaN → strict_eq x x = true.
Proof.
  unfold strict_eq, SFeqb, SFcompare.
  destruct x as [s|s| |s m e]; try done; intros _.
  - by destruct s.
  - rewrite Z.compare_refl, Pcompare_refl. by destruct s.
Qed.

(** Two numbers that are [===] are the same value, or both zeros. *)
Lemma strict_eq_true x y :
  strict_eq x y = true →
  x = y ∨ (∃ s1 s2, x = S754_zero s1 ∧ y = S754_zero s2).
Proof.
  unfold strict_eq, SFeqb, SFcompare.
  destruct x as [s1|s1| |s1 m1 e1], y as [s2|s2| |s2 m2 e2];
    try done; try (by destruct s1); try (by destruct s2).
  - right. eauto.
  - destruct s1, s2; try done; by left.
  - destruct s1, s2; try done;
      destruct (Z.compare_spec e1 e2) as [->| |]; try done;
      destruct (Pos.compare_cont Eq m1 m2) eqn:Hm; try done;
      apply Pcompare_Eq_eq in Hm as ->; by left.
Qed.

(** On integers of magnitude below [2^53], [===] is integer equality. *)
Lemma strict_eq_of_Z a b :
  Z.abs a < 2 ^ prec → Z.abs b < 2 ^ prec →
  strict_eq (of_Z a) (of_Z b) = bool_decide (a = b).
Proof.
  intros Ha Hb. case_bool_decide as Hab.
  - subst. apply strict_eq_refl. intros E. apply (f_equal to_Z) in E.
    by rewrite to_Z_of_Z in E.
  - apply not_true_is_false. intros [E|(s1 & s2 & E1 & E2)]%strict_eq_true.
    + by apply Hab, of_Z_inj.
    + apply (f_equal to_Z) in E1, E2. rewrite to_Z_of_Z in E1, E2 by done.
      simpl in *. congruence.
Qed.

Lemma strict_eq_NaN x : strict_eq NaN x = false ∧ strict_eq x NaN = false.
Proof. by destruct x. Qed.

(** ** Multiplication by one *)

Lemma of_Z_1 : of_Z 1 = S754_finite false (Pos.iter xO 1%positive 52) (-52).
Proof. done. Qed.

Lemma pos_mul_pow2 m k :
  (m * Pos.iter xO 1%positive k)%positive = Pos.iter xO m k.
Proof.
  apply Pos2Z.inj_pos. rewrite Pos2Z.inj_mul, !pos_iter_nat, !pos_iter_xO_nat. lia.
Qed.

(** [x * 1] is [x]. *)
Lemma mul_1_r x : valid x = true → mul x (of_Z 1) = x.
Proof.
  intros Hv. rewrite of_Z_1. destruct x as [s|s| |s m e]; simpl;
    rewrite ?xorb_false_r; try done.
  apply andb_prop in Hv as [Hc He%Z.leb_le].
  replace (m * 4503599627370496)%positive with (Pos.iter xO m 52)
    by (symmetry; apply (pos_mul_pow2 m 52)).
  by apply (binary_round_aux_shift s m 52 e).
Qed.

(** ** toFixed *)

Lemma scaled_den_pos f m e : 0 < (scaled f m e).2.
Proof.
  unfold scaled. destruct (Z.leb_spec 0 e); simpl; [lia|].
  apply Z.pow_pos_nonneg; lia.
Qed.

Lemma scaled_num_nonneg f m e : 0 ≤ (scaled f m e).1.
Proof.
  unfold scaled.
  assert (0 < 10 ^ Z.of_nat f) by (apply Z.pow_pos_nonneg; lia).
  destruct (Z.leb_spec 0 e); simpl; [|lia].
  assert (0 < 2 ^ e) by (apply Z.pow_pos_nonneg; lia). nia.
Qed.

#[export] Hint Resolve scaled_den_pos scaled_num_nonneg : tickets.

Lemma nearest_scaled_nonneg f m e : 0 ≤ nearest_scaled f m e.
Proof.
  apply round_half_up_nonneg; auto with tickets.
Qed.

#[export] Hint Resolve nearest_scaled_nonneg : tickets.

(** Below 10^21 the method prints the arithmetic reference of the nearest
    integer, after the sign. *)
Lemma toFixed_finite s m e f :
  at_least_pow10 21 m e = false →
  toFixed (S754_finite s m e) f =
    (if s then "-" else "") +:+ fixed_ref (nearest_scaled f m e) f.
Proof.
  intros H. unfold toFixed. rewrite H.
  by rewrite insert_point_digits by auto with tickets.
Qed.

Lemma toFixed_zero s f : toFixed (S754_zero s) f = fixed_ref 0 f.
Proof. unfold toFixed. by rewrite insert_point_digits. Qed.

(** C4: for a finite value below 10^21, [toFixed] prints the integer [n]
    nearest to the exact value times [10^f]: no integer is closer, and the
    distance is at most one half, so the value is never truncated. *)
Theorem toFixed_rounds_to_nearest s m e f :
  at_least_pow10 21 m e = false →
  let a := (scaled f m e).1 in
  let d := (scaled f m e).2 in
  ∃ n, toFixed (S754_finite s m e) f = (if s then "-" else "") +:+ fixed_ref n f ∧
       0 ≤ n ∧ 2 * Z.abs (d * n - a) ≤ d ∧
       ∀ n', Z.abs (d * n - a) ≤ Z.abs (d * n' - a).
Proof.
  intros H a d. exists (nearest_scaled f m e).
  pose proof (scaled_den_pos f m e) as Hd. fold d in Hd.
  split_and!; [by apply toFixed_finite|auto with tickets|..].
  - pose proof (round_half_up_bounds a d Hd). unfold nearest_scaled. fold a d. lia.
  - intros n'. pose proof (round_half_up_nearest a d Hd n').
    unfold nearest_scaled. fold a d. lia.
Qed.

Lemma toFixed_rounds_to_nearest_witness :
  ∃ n, toFixed (of_decimal 1005 3) 2 = "" +:+ fixed_ref n 2 ∧ 0 ≤ n.
Proof.
  assert (at_least_pow10 21 4526117625507348 (-52) = false) as H
    by (vm_compute; reflexivity).
  destruct (toFixed_rounds_to_nearest false 4526117625507348 (-52) 2 H)
    as (n & H1 & H2 & _).
  exists n. split; [exact H1|exact H2].
Defined.

(** C34: for a finite value below 10^21 and [f > 0], [toFixed] prints digits,
    a point and exactly [f] digits, and the digits without the point denote
    the nearest integer to the value times [10^f]. *)
Theorem toFixed_fraction_digits s m e f :
  at_least_pow10 21 m e = false → (0 < f)%nat →
  ∃ a b, toFixed (S754_finite s m e) f = (if s then "-" else "") +:+ a +:+ "." +:+ b ∧
         String.length b = f ∧ (0 < String.length a)%nat ∧
         all_digits a = true ∧ all_digits b = true ∧
         value a * 10 ^ Z.of_nat f + value b = nearest_scaled f m e.
Proof.
  intros H Hf. rewrite toFixed_finite by done.
  pose proof (nearest_scaled_nonneg f m e) as Hn.
  assert (0 < 10 ^ Z.of_nat f) by (apply Z.pow_pos_nonneg; lia).
  destruct f as [|f']; [lia|]. unfold fixed_ref. eexists _, _. split_and!.
  - done.
  - apply length_pad_digits.
  - pose proof (digits_length_pos (nearest_scaled (S f') m e / 10 ^ Z.of_nat (S f'))). lia.
  - apply all_digits_digits, Z.div_pos; lia.
  - apply all_digits_pad_digits.
  - by apply value_fixed_parts.
Qed.

Lemma toFixed_fraction_digits_witness :
  ∃ a b, toFixed (of_decimal 95 4) 2 = "" +:+ a +:+ "." +:+ b ∧ String.length b = 2%nat.
Proof.
  assert (at_least_pow10 21 5476377146882523 (-59) = false) as H
    by (vm_compute; reflexivity).
  destruct (toFixed_fraction_digits false 5476377146882523 (-59) 2 H)
    as (a & b & H1 & H2 & _); [lia|].
  exists a, b. split; [exact H1|exact H2].
Defined.

(** ** Number::toString on whole numbers *)

Lemma decimal_scale_nonneg m e : 0 ≤ decimal_scale m e.
Proof. unfold decimal_scale. repeat case_match; lia. Qed.

(** For [e <= 0] the reals that round to [m * 2^e] lie within half a unit. *)
Lemma in_interval_near m e a V :
  e ≤ 0 → 0 ≤ a →
  in_interval (rounding_interval m e a) V = true →
  2 * Z.abs (V - Z.pos m * 10 ^ a) ≤ 10 ^ a.
Proof.
  intros He Ha. unfold rounding_interval, in_interval.
  rewrite Z.max_l, Z.pow_0_r, Z.mul_1_l by lia.
  assert (0 < 10 ^ a) by (apply Z.pow_pos_nonneg; lia).
  repeat case_match; rewrite andb_true_iff;
    rewrite ?Z.leb_le, ?Z.ltb_lt; lia.
Qed.

Lemma in_interval_center m e a :
  e ≤ 0 → 0 ≤ a →
  in_interval (rounding_interval m e a) (Z.pos m * 10 ^ a) = true.
Proof.
  intros He Ha. unfold rounding_interval, in_interval.
  rewrite Z.max_l, Z.pow_0_r, Z.mul_1_l by lia.
  assert (0 < 10 ^ a) by (apply Z.pow_pos_nonneg; lia).
  repeat case_match; rewrite andb_true_iff;
    rewrite ?Z.leb_le, ?Z.ltb_lt; lia.
Qed.

(** The candidates around [X = c * p + r * q], where [q] divides the step
    [p = t * q] and [0 <= r < t]. *)
Lemma candidates_around c r t q :
  0 < q → 0 ≤ r < t →
  let X := c * (t * q) + r * q in
  X / (t * q) * (t * q) = X - r * q.
Proof.
  intros Hq Hr X. unfold X.
  rewrite Z.div_add_l, (Z.div_small (r * q)) by nia. lia.
Qed.

(** The search for the shortest decimal, at a value [w * 10^a] that is a
    candidate itself while every other value that rounds to it is nearer
    than [10^a]: the search returns the value, at the first number of
    digits that can write it. *)
Lemma shortest_go_multiple fuel k X D I N w a :
  0 < D → 0 ≤ a → 0 ≤ N - k - a < Z.of_nat fuel →
  X = w * 10 ^ a * D →
  in_interval I X = true →
  (∀ V, in_interval I V = true → 2 * Z.abs (V - X) ≤ 10 ^ a) →
  shortest_go fuel k X D I N = w * 10 ^ a.
Proof.
  intros HD Ha Hj HX Hin Hnear. revert k Hj.
  induction fuel as [|fuel IH]; intros k Hj; [lia|].
  assert (0 < 10 ^ a) as Hpa by (apply Z.pow_pos_nonneg; lia).
  assert (0 < 10 ^ (N - k - a)) as Hpj by (apply Z.pow_pos_nonneg; lia).
  set (q := 10 ^ a * D). assert (10 ^ a ≤ q) as Hq by (unfold q; nia).
  set (t := 10 ^ (N - k - a)) in *.
  set (r := w mod t). set (c := w / t).
  assert (0 ≤ r < t) as Hr by (apply Z.mod_pos_bound; lia).
  assert (D * 10 ^ (N - k) = t * q) as Hp.
  { unfold t, q. replace (N - k) with (N - k - a + a) at 1 by lia.
    rewrite Z.pow_add_r by lia. lia. }
  assert (X = c * (t * q) + r * q) as HX'.
  { rewrite HX. unfold q. rewrite (Z.div_mod w t) at 1 by lia. fold c r. lia. }
  cbn [shortest_go]. rewrite Hp, HX', candidates_around by lia.
  rewrite <- HX'. destruct (Z.eq_dec r 0) as [Hr0|Hr0].
  - rewrite Hr0, Z.mul_0_l, Z.sub_0_r, Hin.
    destruct (in_interval I (X + t * q)) eqn:H2.
    + apply Hnear in H2. nia.
    + rewrite HX. apply Z.div_mul. lia.
  - destruct (in_interval I (X - r * q)) eqn:H1; [apply Hnear in H1; nia|].
    destruct (in_interval I (X - r * q + t * q)) eqn:H2; [apply Hnear in H2; nia|].
    apply IH. assert (N - k - a ≠ 0); [|lia].
    intros H0. unfold r, t in Hr0. rewrite H0, Z.pow_0_r, Z.mod_1_r in Hr0. lia.
Qed.

Lemma digits_length_lt n f :
  0 ≤ n < 10 ^ Z.of_nat f → (0 < f)%nat → (String.length (digits n) ≤ f)%nat.
Proof.
  intros Hn Hf. destruct (Z.eq_dec n 0) as [->|Hn0]; [simpl; lia|].
  destruct (digits_length_bounds n) as [_ Hlo]; [lia|].
  specialize (Hlo ltac:(lia)).
  assert (10 ^ (Z.of_nat (String.length (digits n)) - 1) < 10 ^ Z.of_nat f) as Hlt
    by lia.
  apply Z.pow_lt_mono_r_iff in Hlt; lia.
Qed.

(** The shortest decimal of a whole number below [10^17]: its digits
    without the zeros at the end, and their number with them. *)
Lemma shortest_digits_integer m e n :
  e ≤ 0 → Z.pos m = n * 2 ^ (- e) → 0 < n < 10 ^ 17 →
  shortest_digits m e =
    (strip_trailing_zeros (digits n), Z.of_nat (String.length (digits n))).
Proof.
  intros He Hm Hn. unfold shortest_digits.
  pose proof (decimal_scale_nonneg m e) as Ha.
  set (a := decimal_scale m e) in *.
  assert (0 < 2 ^ (- e)) as HD by (apply Z.pow_pos_nonneg; lia).
  assert (0 < 10 ^ a) as Hpa by (apply Z.pow_pos_nonneg; lia).
  rewrite (Z.max_l 0 e), (Z.max_r 0 (- e)), Z.pow_0_r, Z.mul_1_r by lia.
  assert (Z.pos m * 10 ^ a = n * 10 ^ a * 2 ^ (- e)) as HX by (rewrite Hm; lia).
  assert (n * 10 ^ a * 2 ^ (- e) / 2 ^ (- e) = n * 10 ^ a) as HW
    by (apply Z.div_mul; lia).
  rewrite HX, HW. rewrite <- (Z2Nat.id a) by lia.
  rewrite digits_mul_pow10 by lia. autorewrite with tickets_rw.
  rewrite Nat2Z.inj_add, (Z2Nat.id a) by lia.
  pose proof (digits_length_pos n). pose proof (digits_length_lt n 17).
  rewrite (shortest_go_multiple 17 1 _ _ _ _ n a); try done; try lia.
  - rewrite <- (Z2Nat.id a) at 1 2 by lia.
    rewrite digits_mul_pow10 by lia. autorewrite with tickets_rw.
    rewrite strip_trailing_zeros_app_zeros. f_equal. lia.
  - rewrite <- HX. by apply in_interval_center.
  - intros V HV. rewrite <- HX. by apply in_interval_near in HV.
Qed.

(** The digits of a whole number come back from their shortest form. *)
Lemma format_digits_integer d :
  (String.length d ≤ 21)%nat →
  format_digits (strip_trailing_zeros d) (Z.of_nat (String.length d)) = d.
Proof.
  intros Hd. unfold format_digits.
  pose proof (strip_trailing_zeros_length d).
  rewrite (proj2 (Z.leb_le _ _)), (proj2 (Z.leb_le _ 21)) by lia.
  cbn [andb]. rewrite <- Nat2Z.inj_sub, Nat2Z.id by lia.
  apply strip_trailing_zeros_restore.
Qed.

(** Number::toString of a whole number of magnitude below [2^53]: a minus
    sign when it is negative and its decimal digits. *)
Lemma to_string_of_Z n :
  Z.abs n < 2 ^ prec →
  to_string (of_Z n) = (if n <? 0 then "-" else "") +:+ digits (Z.abs n).
Proof.
  intros Hn. destruct (Z.eq_dec n 0) as [->|Hn0]; [done|].
  destruct (of_Z_repr n Hn0 Hn) as (m & k & -> & Hm & _). unfold to_string.
  assert (Z.abs n < 10 ^ 17) by (unfold prec in Hn; lia).
  rewrite (shortest_digits_integer m _ (Z.abs n)); try lia.
  - rewrite format_digits_integer; [done|].
    apply (digits_length_lt _ 21); [|lia].
    split; [lia|]. eapply Z.lt_trans; [done|]. done.
  - by rewrite Z.opp_involutive.
Qed.

(** C23: Number::toString of a whole number of magnitude below 2^53 is a
    minus sign when the number is negative, followed by decimal digits that
    read back as its magnitude: the digits of the magnitude, with no
    leading zero, no point and no exponent. *)
Theorem to_string_whole n :
  Z.abs n < 2 ^ 53 →
  ∃ d, to_string (of_Z n) = (if n <? 0 then "-" else "") +:+ d ∧
       d = digits (Z.abs n) ∧ all_digits d = true ∧ value d = Z.abs n.
Proof.
  intros Hn. exists (digits (Z.abs n)).
  split_and!; [by apply to_string_of_Z|done|apply all_digits_digits; lia|
               apply value_digits; lia].
Qed.

Lemma to_string_whole_witness :
  ∃ d, to_string (of_Z (-42)) = "-" +:+ d ∧ value d = 42.
Proof.
  destruct (to_string_whole (-42)) as (d & H1 & _ & _ & H2); [by vm_compute|].
  exists d. split; [exact H1|exact H2].
Defined.

(** Number::toString on numbers that are no small whole numbers: the
    shortest decimal that denotes the number, with a point when the
    exponent is between -6 and 21 and in exponential notation outside. *)
Theorem to_string_examples :
  to_string (of_decimal 1 1) = "0.1" ∧
  to_string (mul (of_decimal 1 1) (of_Z 3)) = "0.30000000000000004" ∧
  to_string (of_decimal 15 1) = "1.5" ∧
  to_string (of_decimal 1 6) = "0.000001" ∧
  to_string (of_decimal 1 7) = "1e-7" ∧
  to_string (of_Z (10 ^ 20)) = "100000000000000000000" ∧
  to_string (of_Z (10 ^ 21)) = "1e+21" ∧
  to_string (of_Z (2 ^ 70)) = "1.1805916207174113e+21" ∧
  to_string (S754_finite false 1 (-1074)) = "5e-324" ∧
  to_string (S754_finite false 9007199254740991 971) = "1.7976931348623157e+308" ∧
  to_string (S754_finite true 4503599627370496 (-1074)) = "-2.2250738585072014e-308" ∧
  to_string NaN = "NaN".
Proof. vm_compute. by split_and!. Qed.
