(* ===== verification/Shortest.v ===== *)
(** * Shortest: the digit search of Number::toString

    [JsNumber.to_string] searches the decimal with the fewest digits that
    rounds to the number, trying 1 to 17 digits ([shortest_go] with fuel
    17).  This file shows that the search always succeeds: the scale
    [decimal_scale] leaves at least 17 digits before the point, with 17
    digits the two candidates around the number are closer together than
    the rounding interval is wide, so one of them rounds to the number.
    What is printed therefore denotes a real within half the distance to
    the neighbouring numbers. *)

From S2P Require Import Prelude Digits JsNumber.
From Stdlib Require Import SpecFloat.

(** ** Definitions *)

(** The decimal [W / 10^a] reads back as the number [m * 2^e]: it lies in
    the interval of the reals that round to that number. *)
Definition reads_back (m : positive) (e : Z) (W a : Z) : bool :=
  in_interval (rounding_interval m e a) (W * 2 ^ Z.max 0 (- e)).

(** ** The scale is large enough *)

Lemma digits_length_ge n f :
  10 ^ Z.of_nat f ≤ n → (f < String.length (digits n))%nat.
Proof.
  intros Hn. assert (0 < 10 ^ Z.of_nat f) by (apply Z.pow_pos_nonneg; lia).
  destruct (Nat.lt_ge_cases f (String.length (digits n))) as [|Hle]; [done|].
  apply digits_length_le in Hle; lia.
Qed.

(** The scaled value has at least 17 digits before the point. *)
Lemma decimal_scale_enough m e :
  let a := decimal_scale m e in
  0 ≤ a ∧ 10 ^ 16 * 2 ^ Z.max 0 (- e) ≤ Z.pos m * 2 ^ Z.max 0 e * 10 ^ a.
Proof.
  intros a. split; [apply decimal_scale_nonneg|]. unfold a, decimal_scale.
  destruct (Z.leb_spec 0 e) as [He|He].
  - rewrite (Z.max_l 0 (- e)), (Z.max_r 0 e), Z.pow_0_r by lia.
    assert (1 ≤ 2 ^ e) by (apply (Z.pow_le_mono_r 2 0); lia).
    destruct (at_least_pow10 16 m e) eqn:H16.
    + unfold at_least_pow10, scaled in H16. rewrite (proj2 (Z.leb_le 0 e)) in H16 by done.
      cbn [fst snd] in H16. apply Z.leb_le in H16.
      change (10 ^ Z.of_nat 16) with (10 ^ 16) in H16.
      change (10 ^ Z.of_nat 0) with 1 in H16. rewrite Z.pow_0_r. lia.
    + assert (10 ^ 16 < 10 ^ 17) by done. nia.
  - rewrite (Z.max_r 0 (- e)), (Z.max_l 0 e), Z.pow_0_r, Z.mul_1_r by lia.
    assert (0 < 2 ^ (- e)) as HD by (apply Z.pow_pos_nonneg; lia).
    destruct (digits_length_bounds (2 ^ (- e))) as [HDhi _]; [lia|].
    destruct (digits_length_bounds (Z.pos m)) as [_ Hmlo]; [lia|].
    specialize (Hmlo ltac:(lia)).
    pose proof (digits_length_pos (Z.pos m)).
    set (lD := Z.of_nat (String.length (digits (2 ^ (- e))))) in *.
    set (lm := Z.of_nat (String.length (digits (Z.pos m)))) in *.
    set (a' := Z.max 0 (17 + lD - lm)).
    assert (10 ^ (16 + lD) ≤ 10 ^ (lm - 1) * 10 ^ a') as Hpow.
    { rewrite <- Z.pow_add_r by lia. apply Z.pow_le_mono_r; lia. }
    rewrite Z.pow_add_r in Hpow by lia.
    assert (0 < 10 ^ a') by (apply Z.pow_pos_nonneg; lia).
    assert (0 < 10 ^ 16) by done. nia.
Qed.

(** ** One step of the search *)

(** When neither candidate with [k] digits rounds to the number, the step
    between them is at least the width of the rounding interval. *)
Lemma candidates_outside m e a p :
  0 ≤ a → 0 < p →
  let X := Z.pos m * (2 ^ Z.max 0 e * 10 ^ a) in
  let I := rounding_interval m e a in
  in_interval I (X / p * p) = false → in_interval I (X / p * p + p) = false →
  let gap := 2 ^ Z.max 0 e * 10 ^ a in
  (if (Z.pos m =? 2 ^ (prec - 1)) && (JsNumber.emin <? e)
   then 3 * gap else 4 * gap) ≤ 4 * p.
Proof.
  intros Ha Hp X I H1 H2 gap. unfold I, rounding_interval in H1, H2.
  fold gap X in H1, H2.
  assert (0 < gap).
  { unfold gap. apply Z.mul_pos_pos; apply Z.pow_pos_nonneg; lia. }
  pose proof (Z.mod_pos_bound X p Hp) as Hr.
  assert (X / p * p = X - X mod p) as HV by (pose proof (Z.div_mod X p); lia).
  rewrite HV in H1, H2. unfold in_interval in H1, H2. unfold X in *.
  destruct ((Z.pos m =? 2 ^ (prec - 1)) && (JsNumber.emin <? e)),
    (Z.even (Z.pos m));
    rewrite andb_false_iff, ?Z.leb_gt, ?Z.ltb_ge in H1, H2; lia.
Qed.

(** With 17 digits one of the two candidates rounds to the number. *)
Lemma candidates_17 m e a D N :
  0 ≤ a → 0 < D → 17 ≤ N → Z.pos m < 2 ^ prec →
  let X := Z.pos m * (2 ^ Z.max 0 e * 10 ^ a) in
  D * 10 ^ (N - 1) ≤ X →
  let I := rounding_interval m e a in
  let p := D * 10 ^ (N - 17) in
  in_interval I (X / p * p) = true ∨ in_interval I (X / p * p + p) = true.
Proof.
  intros Ha HD HN Hm X HX I p.
  assert (0 < 10 ^ (N - 17)) by (apply Z.pow_pos_nonneg; lia).
  assert (0 < p) as Hp by (unfold p; lia).
  destruct (in_interval I (X / p * p)) eqn:H1; [by left|].
  destruct (in_interval I (X / p * p + p)) eqn:H2; [by right|]. exfalso.
  pose proof (candidates_outside m e a p Ha Hp H1 H2) as Hw. cbv zeta in Hw.
  set (gap := 2 ^ Z.max 0 e * 10 ^ a) in *.
  assert (0 < gap).
  { unfold gap. apply Z.mul_pos_pos; apply Z.pow_pos_nonneg; lia. }
  assert (p * 10 ^ 16 ≤ Z.pos m * gap) as Hpm.
  { unfold p. replace (N - 1) with (N - 17 + 16) in HX by lia.
    rewrite Z.pow_add_r in HX by lia. fold X. lia. }
  unfold prec in *. change (2 ^ (53 - 1)) with 4503599627370496 in Hw.
  change (2 ^ 53) with 9007199254740992 in Hm.
  change (10 ^ 16) with 10000000000000000 in Hpm.
  destruct (Z.eqb_spec (Z.pos m) 4503599627370496) as [Hm2|_]; simpl in Hw.
  - rewrite Hm2 in Hpm. destruct (JsNumber.emin <? e); nia.
  - nia.
Qed.

(** ** The search *)

(** The search returns a candidate that rounds to the number, when some
    number of digits within the fuel gives one. *)
Lemma shortest_go_found fuel k X D I N :
  0 < D → 0 ≤ N - (k + Z.of_nat fuel - 1) → (0 < fuel)%nat →
  (let p := D * 10 ^ (N - (k + Z.of_nat fuel - 1)) in
   in_interval I (X / p * p) = true ∨ in_interval I (X / p * p + p) = true) →
  in_interval I (shortest_go fuel k X D I N * D) = true.
Proof.
  intros HD. revert k. induction fuel as [|fuel IH]; intros k HN Hf Hhit; [lia|].
  cbn [shortest_go].
  assert (0 < 10 ^ (N - k)) by (apply Z.pow_pos_nonneg; lia).
  set (p := D * 10 ^ (N - k)) in *.
  assert (∀ j, j * p / D * D = j * p) as Hmul.
  { intros j. unfold p. rewrite (Z.mul_comm D), Z.mul_assoc, Z.div_mul; lia. }
  assert (∀ j, (j * p + p) / D * D = j * p + p) as Hmul'.
  { intros j. replace (j * p + p) with ((j + 1) * p) by lia. apply Hmul. }
  destruct (in_interval I (X / p * p)) eqn:H1,
    (in_interval I (X / p * p + p)) eqn:H2;
    repeat case_match; rewrite ?Hmul, ?Hmul'; try done.
  destruct fuel as [|fuel].
  - exfalso. cbv zeta in Hhit.
    replace (k + Z.of_nat 1 - 1) with k in Hhit by lia. fold p in Hhit.
    rewrite H1, H2 in Hhit. by destruct Hhit.
  - apply IH; [lia|lia|].
    by replace (k + 1 + Z.of_nat (S fuel) - 1) with (k + Z.of_nat (S (S fuel)) - 1) by lia.
Qed.

(** ** The result *)

(** The digits that Number::toString prints for a finite number denote a
    decimal that rounds to the number: the search finds it with at most 17
    digits and never runs out of fuel. *)
Lemma shortest_digits_rounds_back m e :
  Z.pos m < 2 ^ prec →
  let a := decimal_scale m e in
  ∃ W, shortest_digits m e
         = (strip_trailing_zeros (digits W), Z.of_nat (String.length (digits W)) - a) ∧
       in_interval (rounding_interval m e a) (W * 2 ^ Z.max 0 (- e)) = true.
Proof.
  intros Hm a. destruct (decimal_scale_enough m e) as [Ha Hscale]. fold a in Ha, Hscale.
  unfold shortest_digits. fold a.
  set (D := 2 ^ Z.max 0 (- e)) in *.
  set (X := Z.pos m * 2 ^ Z.max 0 e * 10 ^ a) in *.
  set (N := Z.of_nat (String.length (digits (X / D)))).
  assert (0 < D) as HD by (apply Z.pow_pos_nonneg; lia).
  assert (10 ^ 16 ≤ X / D) as HW by (apply Z.div_le_lower_bound; lia).
  assert (17 ≤ N) as HN.
  { pose proof (digits_length_ge (X / D) 16 HW). unfold N. lia. }
  assert (D * 10 ^ (N - 1) ≤ X) as HX.
  { destruct (digits_length_bounds (X / D)) as [_ Hlo]; [lia|].
    specialize (Hlo ltac:(lia)). fold N in Hlo.
    pose proof (Z.mul_div_le X D HD). nia. }
  eexists. split; [done|].
  apply shortest_go_found; [done|lia|lia|].
  replace (1 + Z.of_nat 17 - 1) with 17 by lia.
  assert (X = Z.pos m * (2 ^ Z.max 0 e * 10 ^ a)) as HXa by (unfold X; lia).
  rewrite HXa in *. by apply candidates_17.
Qed.


