(* ===== verification/Rounding.v ===== *)
(** * Rounding: the error of rounding to nearest

    [SpecFloat] rounds a mantissa that is too long by shifting it right one
    bit at a time ([shr_1]), remembering the last bit shifted out and
    whether any bit before it was set, and then rounding to nearest, ties
    to even ([round_nearest_even]).  This file gives the arithmetic meaning
    of the shift and bounds the error of the rounded result: at most half a
    unit of the last place that is kept.  [mul_finite_nearest] is the
    statement for the product of two normal numbers, which the price
    conversion uses. *)

From S2P Require Import Prelude Digits JsNumber.
From Stdlib Require Import SpecFloat.

(** ** Definitions *)

(** The record after [n] right shifts of the mantissa [m]. *)
Definition shifted (m : Z) (n : nat) (r s : bool) : shr_record :=
  match n with
  | O => Build_shr_record m r s
  | S n' =>
      Build_shr_record (m / 2 ^ Z.of_nat n) (Z.testbit m (Z.of_nat n'))
                       (r || s || negb (m mod 2 ^ Z.of_nat n' =? 0))
  end.

(** The mantissa [m] rounded to a multiple of [2^n], in units of [2^n]. *)
Definition round_shift (m : Z) (n : nat) : Z :=
  let mrs := shifted m n false false in
  round_nearest_even (shr_m mrs) (loc_of_shr_record mrs).

(** ** One shift and many *)

Lemma shr_1_nonneg m r s :
  0 ≤ m →
  shr_1 (Build_shr_record m r s) = Build_shr_record (m / 2) (Z.odd m) (r || s).
Proof.
  intros Hm. rewrite <- Z.div2_div.
  destruct m as [|[p|p|]|]; by try lia.
Qed.

Lemma mod_pow2_succ m n :
  0 ≤ n →
  m mod 2 ^ (n + 1) = (if Z.testbit m n then 2 ^ n else 0) + m mod 2 ^ n.
Proof.
  intros Hn. assert (0 < 2 ^ n) by (apply Z.pow_pos_nonneg; lia).
  rewrite Z.pow_add_r, Z.pow_1_r, Z.rem_mul_r by lia.
  rewrite Z.testbit_odd, Z.shiftr_div_pow2, Zmod_odd by lia.
  destruct (Z.odd (m / 2 ^ n)); lia.
Qed.

Lemma iter_shr_1 n m r s :
  0 ≤ m → Nat.iter n shr_1 (Build_shr_record m r s) = shifted m n r s.
Proof.
  intros Hm. induction n as [|n IH]; [done|].
  rewrite Nat.iter_succ, IH. destruct n as [|n]; cbn [shifted].
  - rewrite shr_1_nonneg by done. change (Z.of_nat 1) with 1. change (Z.of_nat 0) with 0.
    rewrite Z.pow_1_r, Z.pow_0_r, Z.mod_1_r, Z.bit0_odd. simpl. by rewrite orb_false_r.
  - assert (0 < 2 ^ Z.of_nat (S n)) by (apply Z.pow_pos_nonneg; lia).
    rewrite shr_1_nonneg by (apply Z.div_pos; lia).
    rewrite Z.div_div by lia.
    replace (2 ^ Z.of_nat (S n) * 2) with (2 ^ Z.of_nat (S (S n)))
      by (rewrite (Nat2Z.inj_succ (S n)), Z.pow_succ_r; lia).
    f_equal.
    + rewrite (Z.testbit_odd m (Z.of_nat (S n))), Z.shiftr_div_pow2 by lia. done.
    + rewrite (Nat2Z.inj_succ n), <- Z.add_1_r, mod_pow2_succ by lia.
      assert (0 < 2 ^ Z.of_nat n) by (apply Z.pow_pos_nonneg; lia).
      pose proof (Z.mod_pos_bound m (2 ^ Z.of_nat n)).
      destruct (Z.testbit m (Z.of_nat n)), r, s; simpl;
        repeat case_match; rewrite ?Z.eqb_eq, ?Z.eqb_neq in *; try done; lia.
Qed.

(** ** The error of rounding *)

Lemma round_shift_error m n :
  0 ≤ m → 2 * Z.abs (round_shift m n * 2 ^ Z.of_nat n - m) ≤ 2 ^ Z.of_nat n.
Proof.
  intros Hm. unfold round_shift. destruct n as [|n].
  { simpl. rewrite Z.pow_0_r. lia. }
  cbn [shifted shr_m]. rewrite Nat2Z.inj_succ, <- Z.add_1_r.
  assert (0 < 2 ^ Z.of_nat n) by (apply Z.pow_pos_nonneg; lia).
  pose proof (Z.div_mod m (2 ^ (Z.of_nat n + 1))) as Hdm.
  rewrite mod_pow2_succ in Hdm by lia.
  pose proof (Z.mod_pos_bound m (2 ^ Z.of_nat n)).
  rewrite Z.pow_add_r, Z.pow_1_r in * by lia.
  set (q := m / (2 ^ Z.of_nat n * 2)) in *.
  destruct (Z.testbit m (Z.of_nat n)); simpl;
    destruct (Z.eqb_spec (m mod 2 ^ Z.of_nat n) 0); simpl;
    try destruct (Z.even q); lia.
Qed.

Lemma round_shift_bounds m n :
  0 ≤ m →
  m / 2 ^ Z.of_nat n ≤ round_shift m n ≤ m / 2 ^ Z.of_nat n + 1.
Proof.
  intros Hm. unfold round_shift. destruct n as [|n].
  { simpl. rewrite Z.pow_0_r, Z.div_1_r. lia. }
  cbn [shifted shr_m loc_of_shr_record].
  repeat case_match; simpl; repeat case_match; lia.
Qed.

(** ** Rounding a mantissa of more than 53 bits *)

(** A mantissa of [d] bits lies between [2^(d-1)] and [2^d]. *)
Lemma digits2_pos_bounds p :
  2 ^ (Z.pos (digits2_pos p) - 1) ≤ Z.pos p < 2 ^ Z.pos (digits2_pos p).
Proof.
  split; [|apply digits2_pos_le; lia].
  destruct (Z.le_gt_cases (2 ^ (Z.pos (digits2_pos p) - 1)) (Z.pos p)) as [|Hlt];
    [done|].
  apply digits2_pos_le in Hlt; lia.
Qed.

Lemma digits2_pos_eq p d :
  0 < d → 2 ^ (d - 1) ≤ Z.pos p < 2 ^ d → Z.pos (digits2_pos p) = d.
Proof.
  intros Hd [Hlo Hhi]. apply digits2_pos_le in Hhi; [|lia].
  destruct (Z.le_gt_cases d (Z.pos (digits2_pos p))) as [|Hlt]; [lia|].
  assert (Z.pos (digits2_pos p) ≤ d - 1) as Hle by lia.
  apply digits2_pos_le in Hle; lia.
Qed.

Lemma fexp_normal d : SpecFloat.emin prec emax ≤ d - prec → fexp prec emax d = d - prec.
Proof. unfold fexp. lia. Qed.

(** The first shift of [binary_round_aux]. *)
Lemma shr_fexp_long mx ex k :
  Z.pos (digits2_pos mx) = prec + Z.pos k →
  SpecFloat.emin prec emax ≤ ex + Z.pos k →
  shr_fexp prec emax (Z.pos mx) ex loc_Exact
  = (shifted (Z.pos mx) (Pos.to_nat k) false false, ex + Z.pos k).
Proof.
  intros Hd He. unfold shr_fexp. cbn [Zdigits2 shr_record_of_loc].
  rewrite Hd, fexp_normal by lia.
  replace (prec + Z.pos k + ex - prec - ex) with (Z.pos k) by lia.
  cbn [shr]. by rewrite iter_pos_nat, iter_shr_1.
Qed.

(** A mantissa of exactly 53 bits is not shifted. *)
Lemma shr_fexp_exact p e :
  Z.pos (digits2_pos p) = prec → SpecFloat.emin prec emax ≤ e →
  shr_fexp prec emax (Z.pos p) e loc_Exact = (Build_shr_record (Z.pos p) false false, e).
Proof.
  intros Hd He. unfold shr_fexp. cbn [Zdigits2 shr_record_of_loc].
  rewrite Hd, fexp_normal by lia.
  by replace (prec + e - prec - e) with 0 by lia.
Qed.

(** The result of [binary_round_aux] on a mantissa of [53 + k] bits: the
    mantissa rounded to a multiple of [2^k], or half of it with the next
    exponent when rounding carried into a 54th bit. *)
Lemma binary_round_aux_nearest s mx ex k :
  Z.pos (digits2_pos mx) = prec + Z.pos k →
  SpecFloat.emin prec emax ≤ ex + Z.pos k →
  ex + Z.pos k + 1 ≤ emax - prec →
  ∃ m e, binary_round_aux prec emax s (Z.pos mx) ex loc_Exact = S754_finite s m e ∧
         Z.pos (digits2_pos m) = prec ∧
         ex + Z.pos k ≤ e ≤ ex + Z.pos k + 1 ∧
         Z.pos m * 2 ^ (e - (ex + Z.pos k)) = round_shift (Z.pos mx) (Pos.to_nat k).
Proof.
  intros Hd Hlo Hhi. unfold binary_round_aux.
  rewrite (shr_fexp_long mx ex k Hd Hlo). fold (round_shift (Z.pos mx) (Pos.to_nat k)).
  pose proof (round_shift_bounds (Z.pos mx) (Pos.to_nat k) ltac:(lia)) as Hb.
  rewrite positive_nat_Z in Hb.
  pose proof (digits2_pos_bounds mx) as Hmx. rewrite Hd in Hmx.
  assert (0 < 2 ^ Z.pos k) as Hk by (apply Z.pow_pos_nonneg; lia).
  replace (prec + Z.pos k - 1) with (prec - 1 + Z.pos k) in Hmx by lia.
  rewrite !Z.pow_add_r in Hmx by (unfold prec; lia).
  assert (2 ^ (prec - 1) ≤ Z.pos mx / 2 ^ Z.pos k < 2 ^ prec) as Hq.
  { split; [apply Z.div_le_lower_bound; lia|apply Z.div_lt_upper_bound; lia]. }
  set (m1 := round_shift (Z.pos mx) (Pos.to_nat k)) in *.
  destruct (Z.eq_dec m1 (2 ^ prec)) as [->|Hne].
  - exists (2 ^ 52)%positive, (ex + Z.pos k + 1).
    replace (shr_fexp prec emax (2 ^ prec) (ex + Z.pos k) loc_Exact)
      with (Build_shr_record (2 ^ 52) false false, ex + Z.pos k + 1).
    + cbn [shr_m]. change (2 ^ 52) with (Z.pos (2 ^ 52)).
      rewrite (proj2 (Z.leb_le _ _)) by lia. split_and!; try done; try lia.
      by replace (ex + Z.pos k + 1 - (ex + Z.pos k)) with 1 by lia.
    + unfold shr_fexp. change (Zdigits2 (2 ^ prec)) with (prec + 1).
      rewrite fexp_normal by lia.
      by replace (prec + 1 + (ex + Z.pos k) - prec - (ex + Z.pos k)) with 1 by lia.
  - assert (0 < m1) as Hpos by (unfold prec in *; lia).
    destruct m1 as [|p1|] eqn:Hm1; try lia.
    exists p1, (ex + Z.pos k).
    assert (Z.pos (digits2_pos p1) = prec) as Hp1
      by (apply digits2_pos_eq; [done|lia]).
    rewrite shr_fexp_exact by (done || lia).
    cbn [shr_m]. rewrite (proj2 (Z.leb_le _ _)) by lia.
    split_and!; try done; try lia. by rewrite Z.sub_diag, Z.mul_1_r.
Qed.

(** ** The product of two numbers *)

(** The product of two normal numbers, when it neither overflows nor falls
    below the normal range: the exact product of the mantissas rounded to
    53 bits, within half a unit of the last place. *)
Lemma mul_finite_nearest sx mx ex sy my ey :
  Z.pos (digits2_pos mx) = prec → Z.pos (digits2_pos my) = prec →
  SpecFloat.emin prec emax ≤ ex + ey + 52 → ex + ey + 54 ≤ emax - prec →
  ∃ k m e,
    mul (S754_finite sx mx ex) (S754_finite sy my ey) = S754_finite (xorb sx sy) m e ∧
    Z.pos (digits2_pos m) = prec ∧
    52 ≤ k ≤ 53 ∧ ex + ey + k ≤ e ≤ ex + ey + k + 1 ∧
    2 * Z.abs (Z.pos m * 2 ^ (e - (ex + ey)) - Z.pos mx * Z.pos my) ≤ 2 ^ k.
Proof.
  intros Hx Hy Hlo Hhi.
  pose proof (digits2_pos_bounds mx) as Bx. pose proof (digits2_pos_bounds my) as By.
  rewrite Hx in Bx. rewrite Hy in By. unfold prec in Bx, By.
  change (2 ^ (53 - 1)) with 4503599627370496 in *.
  change (2 ^ 53) with 9007199254740992 in *.
  assert (2 ^ 104 ≤ Z.pos (mx * my) < 2 ^ 106) as Bxy.
  { change (2 ^ 104) with (4503599627370496 * 4503599627370496).
    change (2 ^ 106) with (9007199254740992 * 9007199254740992).
    rewrite Pos2Z.inj_mul. nia. }
  assert (∃ k : positive, 52 ≤ Z.pos k ≤ 53 ∧
            Z.pos (digits2_pos (mx * my)) = prec + Z.pos k) as (k & Hk & Hd).
  { destruct (Z.lt_ge_cases (Z.pos (mx * my)) (2 ^ 105)).
    - exists 52%positive. split; [lia|]. apply digits2_pos_eq; [done|].
      change (prec + 52 - 1) with 104. change (prec + 52) with 105. lia.
    - exists 53%positive. split; [lia|]. apply digits2_pos_eq; [done|].
      change (prec + 53 - 1) with 105. change (prec + 53) with 106. lia. }
  destruct (binary_round_aux_nearest (xorb sx sy) (mx * my) (ex + ey) k Hd)
    as (m & e & Hr & Hdm & He & Hm); [lia..|].
  exists (Z.pos k), m, e. split_and!; try done; try lia.
  pose proof (round_shift_error (Z.pos (mx * my)) (Pos.to_nat k) ltac:(lia)) as Herr.
  rewrite positive_nat_Z, <- Hm, <- Z.mul_assoc, <- Z.pow_add_r in Herr by lia.
  replace (e - (ex + ey + Z.pos k) + Z.pos k) with (e - (ex + ey)) in Herr by lia.
  by rewrite <- Pos2Z.inj_mul.
Qed.

(** A whole number below [2^53] has a mantissa of 53 bits. *)
Lemma of_Z_normal p :
  0 < p < 2 ^ prec →
  ∃ m k, of_Z p = S754_finite false m (- k) ∧ 0 ≤ k ∧
         Z.pos m = p * 2 ^ k ∧ Z.pos (digits2_pos m) = prec.
Proof.
  intros Hp. destruct (of_Z_repr p) as (m & k & Hr & Hm & Hc); [lia..|].
  rewrite (proj2 (Z.ltb_ge p 0)), Z.abs_eq in * by lia.
  exists m, (Z.of_N k). split_and!; [done|lia|done|].
  apply Z.eqb_eq in Hc. unfold fexp, SpecFloat.emin in Hc.
  destruct (Z.max_spec (Z.pos (digits2_pos m) + - Z.of_N k - prec) (3 - emax - prec))
    as [[_ Hmax]|[_ Hmax]]; rewrite Hmax in Hc; [|lia].
  assert (Z.pos (digits2_pos m) ≤ prec) as Hle by (unfold prec, emax in *; lia).
  apply digits2_pos_le in Hle; [|done].
  assert (2 ^ 1074 ≤ 2 ^ Z.of_N k) by (apply Z.pow_le_mono_r; unfold prec, emax in *; lia).
  assert (2 ^ prec < 2 ^ 1074) by (apply Z.pow_lt_mono_r; unfold prec; lia).
  nia.
Qed.

(** ** Printing a rounded product *)

(** [toFixed] on a number below [2^53]: an integer [n] nearer than one
    half to the value times [10^f] is the one whose digits are printed. *)
Lemma toFixed_unique m e f n :
  e < 0 → Z.pos m < 2 ^ prec →
  2 * Z.abs (Z.pos m * 10 ^ Z.of_nat f - n * 2 ^ (- e)) < 2 ^ (- e) →
  toFixed (S754_finite false m e) f = fixed_ref n f.
Proof.
  intros He Hm Hn. assert (0 < 2 ^ (- e)) by (apply Z.pow_pos_nonneg; lia).
  rewrite toFixed_finite.
  - rewrite string_app_nil_l. f_equal.
    unfold nearest_scaled, scaled. rewrite (proj2 (Z.leb_gt 0 e)) by done.
    by apply round_half_up_unique.
  - unfold at_least_pow10, scaled. rewrite (proj2 (Z.leb_gt 0 e)) by done.
    cbn [fst snd]. apply Z.leb_gt.
    change (10 ^ Z.of_nat 21) with (10 ^ 21). change (10 ^ Z.of_nat 0) with 1.
    assert (2 ^ prec < 10 ^ 21) by done. nia.
Qed.
