(* ===== verification/Valid.v ===== *)
(** * Valid: the numbers of the program are binary64 values

    A [spec_float] is a binary64 value when it is [valid]: its mantissa has
    at most 53 bits, its exponent lies between -1074 and 971, and the
    mantissa has exactly 53 bits unless the exponent is the least one
    (the subnormal numbers).  This is the type of JavaScript's numbers, and
    this file proves that the product [price * rate] is always of that
    type: for every two valid numbers, whether the product is normal,
    subnormal, rounds to zero, or overflows to an infinity.

    The proof follows [binary_round_aux]: the first shift brings the exact
    product to the exponent of its magnitude ([shr_fexp_shifted]), rounding
    gives a mantissa that is canonical at that exponent or the power
    [2^53] ([rounded_canonical]), and the second shift repairs the latter
    case. *)

From S2P Require Import Prelude Digits JsNumber Rounding.
From Stdlib Require Import SpecFloat.

(** ** Definitions *)

(** The exponent at which a number of the magnitude of [p * 2^e] is
    written: 53 bits below its highest bit, and not below the least
    exponent. *)
Definition exponent_of (p : positive) (e : Z) : Z :=
  fexp prec emax (Z.pos (digits2_pos p) + e).

(** ** Mantissas and their number of bits *)

Lemma Zdigits2_eq m d : 0 < d → 2 ^ (d - 1) ≤ m < 2 ^ d → Zdigits2 m = d.
Proof.
  intros Hd Hm. assert (0 < 2 ^ (d - 1)) by (apply Z.pow_pos_nonneg; lia).
  destruct m as [|p|p]; [lia| |lia]. by apply digits2_pos_eq.
Qed.

Lemma Zdigits2_pow2 k : 0 ≤ k → Zdigits2 (2 ^ k) = k + 1.
Proof.
  intros Hk. apply Zdigits2_eq; [lia|]. rewrite Z.add_simpl_r.
  split; [lia|]. apply Z.pow_lt_mono_r; lia.
Qed.

(** A mantissa of [d] bits shifted right by [n < d] bits has [d - n]. *)
Lemma div_pow2_bounds m d n :
  0 ≤ n < d → 2 ^ (d - 1) ≤ m < 2 ^ d →
  2 ^ (d - n - 1) ≤ m / 2 ^ n < 2 ^ (d - n).
Proof.
  intros Hn Hm. assert (0 < 2 ^ n) by (apply Z.pow_pos_nonneg; lia).
  replace (d - 1) with (n + (d - n - 1)) in Hm by lia.
  replace d with (n + (d - n)) in Hm at 2 by lia.
  rewrite !Z.pow_add_r in Hm by lia.
  split; [apply Z.div_le_lower_bound|apply Z.div_lt_upper_bound]; lia.
Qed.

Lemma div_pow2_small m d n : d ≤ n → 0 ≤ m < 2 ^ d → m / 2 ^ n = 0.
Proof.
  intros Hn Hm. apply Z.div_small.
  assert (2 ^ d ≤ 2 ^ n) by (apply Z.pow_le_mono_r; lia). lia.
Qed.

(** The product of two mantissas has at least [dx + dy - 1] bits. *)
Lemma digits2_pos_mul mx my :
  Z.pos (digits2_pos mx) + Z.pos (digits2_pos my) - 1
  ≤ Z.pos (digits2_pos (mx * my)).
Proof.
  pose proof (digits2_pos_bounds mx) as [Hx _].
  pose proof (digits2_pos_bounds my) as [Hy _].
  pose proof (digits2_pos_bounds (mx * my)) as [_ Hxy].
  set (dx := Z.pos (digits2_pos mx)) in *. set (dy := Z.pos (digits2_pos my)) in *.
  set (dxy := Z.pos (digits2_pos (mx * my))) in *.
  assert (2 ^ ((dx - 1) + (dy - 1)) < 2 ^ dxy) as Hlt.
  { rewrite Z.pow_add_r by lia. rewrite Pos2Z.inj_mul in Hxy.
    assert (0 < 2 ^ (dx - 1)) by (apply Z.pow_pos_nonneg; lia).
    assert (0 < 2 ^ (dy - 1)) by (apply Z.pow_pos_nonneg; lia). nia. }
  apply Z.pow_lt_mono_r_iff in Hlt; lia.
Qed.

(** ** The two shifts of [binary_round_aux] *)

Section round.
Context (p : positive) (e : Z) (He : e ≤ exponent_of p e).

Lemma exponent_of_eq :
  exponent_of p e = Z.max (Z.pos (digits2_pos p) + e - 53) (-1074).
Proof. done. Qed.

(** The first shift: to the exponent of the magnitude. *)
Lemma shr_fexp_shifted :
  shr_fexp prec emax (Z.pos p) e loc_Exact
  = (shifted (Z.pos p) (Z.to_nat (exponent_of p e - e)) false false, exponent_of p e).
Proof.
  unfold shr_fexp. cbn [Zdigits2 shr_record_of_loc]. fold (exponent_of p e).
  destruct (exponent_of p e - e) as [|n|n] eqn:Hn; [|cbn [shr]|lia].
  - cbn. f_equal. lia.
  - rewrite iter_pos_nat, iter_shr_1 by lia. cbn [Z.to_nat]. f_equal. lia.
Qed.

(** The rounded mantissa is zero, canonical at the exponent of the
    magnitude, or the power [2^53] that the second shift halves. *)
Lemma rounded_canonical :
  let e1 := exponent_of p e in
  let m2 := round_shift (Z.pos p) (Z.to_nat (e1 - e)) in
  m2 = 0 ∨ (0 < m2 ∧ fexp prec emax (Zdigits2 m2 + e1) = e1) ∨ m2 = 2 ^ prec.
Proof.
  intros e1 m2. pose proof (round_shift_bounds (Z.pos p) (Z.to_nat (e1 - e))) as Hb.
  pose proof exponent_of_eq as He1. fold e1 in He, He1.
  rewrite Z2Nat.id in Hb by lia. specialize (Hb ltac:(lia)). fold m2 in Hb.
  pose proof (digits2_pos_bounds p) as Hp.
  set (d := Z.pos (digits2_pos p)) in *. clearbody e1.
  destruct (Z.lt_ge_cases (e1 - e) d) as [Hn|Hn].
  - pose proof (div_pow2_bounds (Z.pos p) d (e1 - e) ltac:(lia) Hp) as Hq.
    set (D := d - (e1 - e)) in *.
    assert (0 < 2 ^ (D - 1)) by (apply Z.pow_pos_nonneg; lia).
    right. destruct (Z.eq_dec m2 (2 ^ D)) as [Hm|Hm].
    + destruct (Z.eq_dec D prec) as [->|HD]; [by right|left].
      rewrite Hm, Zdigits2_pow2 by lia. split; [lia|].
      unfold fexp, SpecFloat.emin, prec, emax in *. lia.
    + left. split; [lia|]. rewrite (Zdigits2_eq m2 D) by lia.
      replace (D + e1) with (d + e) by lia.
      unfold fexp, SpecFloat.emin, prec, emax. lia.
  - rewrite (div_pow2_small (Z.pos p) d) in Hb by lia.
    destruct (Z.eq_dec m2 0) as [Hm|Hm]; [by left|right; left].
    replace m2 with 1 by lia. split; [done|]. cbn [Zdigits2 digits2_pos].
    unfold fexp, SpecFloat.emin, prec, emax in *. lia.
Qed.

(** The second shift does nothing on a canonical mantissa. *)
Lemma shr_fexp_canonical m2 e1 :
  fexp prec emax (Zdigits2 m2 + e1) = e1 →
  shr_fexp prec emax m2 e1 loc_Exact = (Build_shr_record m2 false false, e1).
Proof. intros Hc. unfold shr_fexp. by rewrite Hc, Z.sub_diag. Qed.

(** The second shift halves the mantissa [2^53]. *)
Lemma shr_fexp_carry e1 :
  -1074 ≤ e1 →
  shr_fexp prec emax (2 ^ prec) e1 loc_Exact
  = (Build_shr_record (2 ^ 52) false false, e1 + 1).
Proof.
  intros Hm. unfold shr_fexp. change (Zdigits2 (2 ^ prec)) with 54.
  replace (fexp prec emax (54 + e1) - e1) with 1
    by (unfold fexp, SpecFloat.emin, prec, emax; lia).
  reflexivity.
Qed.

(** Rounding gives a zero, an infinity, or a finite binary64 value at the
    exponent of the magnitude or the next one; the sign is kept. *)
Lemma binary_round_aux_cases s :
  let r := binary_round_aux prec emax s (Z.pos p) e loc_Exact in
  r = S754_zero s ∨ r = S754_infinity s ∨
  ∃ m e', r = S754_finite s m e' ∧ bounded prec emax m e' = true ∧
          exponent_of p e ≤ e' ≤ exponent_of p e + 1.
Proof.
  cbv zeta. unfold binary_round_aux. rewrite shr_fexp_shifted.
  fold (round_shift (Z.pos p) (Z.to_nat (exponent_of p e - e))).
  pose proof exponent_of_eq as He1.
  destruct rounded_canonical as [Hm|[[Hpos Hc]|Hm]]; revert Hm || revert Hpos Hc;
    generalize (round_shift (Z.pos p) (Z.to_nat (exponent_of p e - e)));
    set (e1 := exponent_of p e) in *; clearbody e1; intros m2.
  - intros ->. unfold shr_fexp. cbn [Zdigits2 shr_record_of_loc]. left.
    destruct (fexp prec emax (0 + e1) - e1) as [|n|n] eqn:Hn; [done| |done].
    unfold fexp, SpecFloat.emin, prec, emax in *. lia.
  - intros Hpos Hc. rewrite (shr_fexp_canonical _ _ Hc). cbn [shr_m]. right.
    destruct m2 as [|p2|]; [lia| |lia].
    destruct (Z.leb_spec e1 (emax - prec)) as [Hle|]; [right|by left].
    exists p2, e1. split_and!; [done| |lia..].
    unfold bounded, canonical_mantissa.
    cbn [Zdigits2] in Hc. rewrite Hc, Z.eqb_refl. by apply Z.leb_le.
  - intros ->. rewrite shr_fexp_carry by lia. cbn [shr_m].
    change (2 ^ 52) with (Z.pos (2 ^ 52)).
    right. destruct (Z.leb_spec (e1 + 1) (emax - prec)) as [Hle|]; [right|by left].
    exists (2 ^ 52)%positive, (e1 + 1). split_and!; [done| |lia..].
    unfold bounded, canonical_mantissa.
    change (Z.pos (digits2_pos (2 ^ 52))) with 53.
    apply andb_true_intro. split; [apply Z.eqb_eq|by apply Z.leb_le].
    unfold fexp, SpecFloat.emin, prec, emax in *. lia.
Qed.

End round.

(** ** The product *)

(** The exponent of the exact product of two binary64 values is not above
    the exponent of its magnitude: rounding never needs a left shift. *)
Lemma mul_exponent sx mx ex sy my ey :
  valid (S754_finite sx mx ex) = true → valid (S754_finite sy my ey) = true →
  ex + ey ≤ exponent_of (mx * my) (ex + ey).
Proof.
  unfold exponent_of, valid, valid_binary, bounded, canonical_mantissa.
  intros [Hx _]%andb_prop [Hy _]%andb_prop. apply Z.eqb_eq in Hx, Hy.
  pose proof (digits2_pos_mul mx my).
  unfold fexp, SpecFloat.emin, prec, emax in *. lia.
Qed.

(** The product of two finite numbers: a zero on underflow, an infinity on
    overflow, a finite binary64 value otherwise. *)
Lemma mul_finite_cases sx mx ex sy my ey :
  valid (S754_finite sx mx ex) = true → valid (S754_finite sy my ey) = true →
  let z := mul (S754_finite sx mx ex) (S754_finite sy my ey) in
  z = S754_zero (xorb sx sy) ∨ z = S754_infinity (xorb sx sy) ∨
  ∃ m e, z = S754_finite (xorb sx sy) m e ∧ bounded prec emax m e = true ∧
         exponent_of (mx * my) (ex + ey) ≤ e ≤ exponent_of (mx * my) (ex + ey) + 1.
Proof.
  intros Hx Hy.
  destruct (binary_round_aux_cases (mx * my) (ex + ey)
              (mul_exponent sx mx ex sy my ey Hx Hy) (xorb sx sy))
    as [?|[?|(m & e & ? & ? & ?)]]; eauto 7.
Qed.

Lemma mul_valid x y : valid x = true → valid y = true → valid (mul x y) = true.
Proof.
  destruct x as [sx|sx| |sx mx ex], y as [sy|sy| |sy my ey]; try done.
  intros Hx Hy.
  by destruct (mul_finite_cases sx mx ex sy my ey Hx Hy)
    as [->|[->|(m & e & -> & ? & _)]].
Qed.

(** ** Whole numbers of any size *)

Lemma binary_round_aux_valid p e s :
  e ≤ exponent_of p e →
  valid (binary_round_aux prec emax s (Z.pos p) e loc_Exact) = true.
Proof.
  intros He.
  by destruct (binary_round_aux_cases p e He s) as [->|[->|(m & e' & -> & ? & _)]].
Qed.

(** [binary_round] first shifts a short mantissa left, to the exponent of
    its magnitude. *)
Lemma binary_round_valid s m e : valid (binary_round prec emax s m e) = true.
Proof.
  unfold binary_round, shl_align. fold (exponent_of m e).
  destruct (exponent_of m e - e) as [|k|k] eqn:Hk;
    apply binary_round_aux_valid; [lia..|].
  unfold exponent_of at 2. rewrite digits2_pos_iter_xO, Pos2Z.inj_add.
  replace (Z.pos (digits2_pos m) + Z.pos k + exponent_of m e)
    with (Z.pos (digits2_pos m) + e) by lia.
  done.
Qed.

Lemma of_Z_valid n : valid (of_Z n) = true.
Proof. destruct n; [done|apply binary_round_valid..]. Qed.

(** ** The type of numbers *)

(** C14: the numbers that the program computes with are binary64 values.
    A whole number of any size converts to one, and the product of two
    binary64 values is a binary64 value whatever the operands: never a
    mantissa of more than 53 bits, never an exponent out of range.  Two
    finite operands give a zero when the product is too small, an infinity
    when it is too large and otherwise a finite value at the exponent of
    the magnitude of the exact product or the next one, with the sign of
    the product, and never NaN. *)
Theorem mul_binary64 x y :
  valid x = true → valid y = true →
  valid (mul x y) = true ∧
  (∀ sx mx ex sy my ey,
     x = S754_finite sx mx ex → y = S754_finite sy my ey →
     mul x y = S754_zero (xorb sx sy) ∨ mul x y = S754_infinity (xorb sx sy) ∨
     ∃ m e, mul x y = S754_finite (xorb sx sy) m e ∧
            exponent_of (mx * my) (ex + ey) ≤ e ≤ exponent_of (mx * my) (ex + ey) + 1) ∧
  (∀ n, valid (mul x (of_Z n)) = true).
Proof.
  intros Hx Hy. split_and!; [by apply mul_valid| |].
  - intros sx mx ex sy my ey -> ->.
    destruct (mul_finite_cases sx mx ex sy my ey Hx Hy)
      as [?|[?|(m & e & ? & _ & ?)]]; eauto 6.
  - intros n. apply mul_valid; [done|apply of_Z_valid].
Qed.

Lemma mul_binary64_witness :
  valid (mul (S754_finite false 1 (-1074)) (S754_finite true 1 (-1074))) = true ∧
  valid (mul (S754_finite false (2 ^ 53 - 1) 971) (of_Z 2)) = true.
Proof.
  assert (valid (S754_finite false 1 (-1074)) = true) as H1 by (vm_compute; reflexivity).
  assert (valid (S754_finite true 1 (-1074)) = true) as H2 by (vm_compute; reflexivity).
  assert (valid (S754_finite false (2 ^ 53 - 1) 971) = true) as H3
    by (vm_compute; reflexivity).
  destruct (mul_binary64 _ _ H1 H2) as (Ha & _).
  destruct (mul_binary64 _ _ H3 H3) as (_ & _ & Hb).
  split; [exact Ha|exact (Hb 2)].
Defined.
