(* ===== verification/JsObject.v ===== *)
(** * JsObject: reading a property of an object literal

    [exchangeRates[targetCurrency]] reads a property of an object literal
    whose own properties are numbers.  The key is any string: a key that is
    no own property is looked up in [Object.prototype], which every object
    literal inherits from, and only then is the result [undefined].

    The file gives the values such a read can produce ([value]), the read
    itself ([get]), ToBoolean, the operator [||] ([js_or]) and ToNumber, which
    the multiplication applies to its operand. *)

From S2P Require Import Prelude JsNumber.
From stdpp Require Import gmap.

(** ** Definitions *)

(** What a property read of an object literal of numbers evaluates to:
    [undefined], a number, or one of the objects (functions, and the
    prototype itself under [__proto__]) that [Object.prototype] holds, named
    by its key. *)
Inductive value :=
  | VUndefined
  | VNumber (n : number)
  | VObject (key : string).

(** The property names of [Object.prototype] (ECMA-262, 20.1.3 and B.2.2). *)
Definition object_prototype_keys : list string :=
  [ "constructor"; "hasOwnProperty"; "isPrototypeOf"; "propertyIsEnumerable";
    "toLocaleString"; "toString"; "valueOf"; "__proto__";
    "__defineGetter__"; "__defineSetter__"; "__lookupGetter__";
    "__lookupSetter__" ].

(** [o[key]] for an object literal [o] with the own properties [o]. *)
Definition get (o : gmap string number) (key : string) : value :=
  match o !! key with
  | Some n => VNumber n
  | None =>
      if bool_decide (key ∈ object_prototype_keys) then VObject key
      else VUndefined
  end.

(** ToBoolean *)
Definition truthy (v : value) : bool :=
  match v with
  | VUndefined => false
  | VNumber n => to_boolean n
  | VObject _ => true
  end.

(** [v || w] *)
Definition js_or (v w : value) : value := if truthy v then v else w.

(** ToNumber: [undefined] and the objects of [Object.prototype] (whose
    string forms are no numeric literal) give [NaN]. *)
Definition to_number (v : value) : number :=
  match v with
  | VNumber n => n
  | VUndefined | VObject _ => NaN
  end.

Notation "v '||' w" := (js_or v w) : js_scope.
