(* ===== verification/Ticket.v ===== *)
(** * Ticket: the records of the ticket list

    The interface [Ticket] of src/src/components/TicketList.tsx (lines 6-18)
    as a record with the fields of the source, in its order.  The two
    numeric fields are binary64 numbers ([JsNumber.number]); the data file
    supplies integers, and [well_formed] says so without the operations
    depending on it. *)

From S2P Require Import Prelude JsNumber.
From Stdlib Require Import SpecFloat.

(** ** Definitions *)

Record Ticket := mkTicket {
  origin : string;
  origin_name : string;
  destination : string;
  destination_name : string;
  departure_date : string;
  departure_time : string;
  arrival_date : string;
  arrival_time : string;
  carrier : string;
  stops : number;
  price : number;
}.

(** What spec.md section 3 assumes of the data: the stop count is a natural
    number and the price is a finite number that is not negative. *)
Definition well_formed (t : Ticket) : Prop :=
  (∃ k : Z, 0 ≤ k < 2 ^ 53 ∧ stops t = of_Z k) ∧
  valid (price t) = true ∧ is_finite (price t) = true ∧
  match price t with S754_finite s _ _ => s = false | _ => True end.

(** A ticket with the given stop count and price in whole units, for the
    examples. *)
Definition sample (k p : Z) : Ticket :=
  mkTicket "VVO" "Владивосток" "TLV" "Тель-Авив"
           "12.05.18" "16:20" "12.05.18" "22:10" "TK" (of_Z k) (of_Z p).

#[export] Instance Ticket_eq_dec : EqDecision Ticket.
Proof. solve_decision. Defined.
