(* ===== verification/Filters.v ===== *)
(** * Filters: the stop-count selection and its handler

    The interface [Filters] (lines 20-28 of TicketList.tsx), the initial
    selection given to [useState] (lines 40-48) and the handler
    [handleFilterChange] (lines 68-90), which every check box calls with its
    key.  The key type [keyof Filters["stops"]] is the enumeration
    [FilterType].

    The selection is a transition system: [step] is one call of the
    handler, [reachable] what the user can reach from the initial selection.
    [inv] is the invariant of spec.md section 3.  [Selection] and
    [toggle] are the abstract specification that spec.md section 9
    describes (a mode "all" or an explicit subset of flags); [abs] maps the
    five booleans to it. *)

From S2P Require Import Prelude.
From stdpp Require Import gmap finite.

(** ** Definitions *)

(** The object type of [Filters["stops"]]. *)
Record Stops := mkStops {
  all : bool;
  nonStop : bool;
  oneStop : bool;
  twoStops : bool;
  threeStops : bool;
}.

Record Filters := mkFilters { stops : Stops }.

(** [keyof Filters["stops"]] *)
Module FilterType.
Inductive FilterType := all | nonStop | oneStop | twoStops | threeStops.
End FilterType.
Abbreviation FilterType := FilterType.FilterType.

(** The argument of [useState<Filters>]. *)
Definition initialFilters : Filters :=
  {| stops := {| all := true; nonStop := false; oneStop := false;
                 twoStops := false; threeStops := false |} |}.

(** [s[k]] *)
Definition get_flag (s : Stops) (k : FilterType) : bool :=
  match k with
  | FilterType.all => all s
  | FilterType.nonStop => nonStop s
  | FilterType.oneStop => oneStop s
  | FilterType.twoStops => twoStops s
  | FilterType.threeStops => threeStops s
  end.

(** [{ ...s, [k]: v }] *)
Definition set_flag (s : Stops) (k : FilterType) (v : bool) : Stops :=
  match k with
  | FilterType.all => mkStops v (nonStop s) (oneStop s) (twoStops s) (threeStops s)
  | FilterType.nonStop => mkStops (all s) v (oneStop s) (twoStops s) (threeStops s)
  | FilterType.oneStop => mkStops (all s) (nonStop s) v (twoStops s) (threeStops s)
  | FilterType.twoStops => mkStops (all s) (nonStop s) (oneStop s) v (threeStops s)
  | FilterType.threeStops => mkStops (all s) (nonStop s) (oneStop s) (twoStops s) v
  end.

#[export] Instance FilterType_eq_dec : EqDecision FilterType.
Proof. solve_decision. Defined.

(** [handleFilterChange(filterType)], with the [filters] of the render that
    created the handler; the result is the argument of [setFilters]. *)
Definition handleFilterChange (filters : Filters) (filterType : FilterType) : Filters :=
  if decide (filterType = FilterType.all) then
    {| stops := {| all := true; nonStop := false; oneStop := false;
                   twoStops := false; threeStops := false |} |}
  else
    {| stops := set_flag (set_flag (stops filters) FilterType.all false)
                         filterType (negb (get_flag (stops filters) filterType)) |}.

(** One click on a check box. *)
Inductive step : Filters → Filters → Prop :=
  | step_change filters filterType :
      step filters (handleFilterChange filters filterType).

(** The selections a sequence of clicks leads to. *)
Definition reachable (f : Filters) : Prop := rtc step initialFilters f.

(** A sequence of clicks, applied from the left. *)
Definition run (f : Filters) (ks : list FilterType) : Filters :=
  foldl handleFilterChange f ks.

(** spec.md section 3: when [all] is set no other flag is. *)
Definition inv (f : Filters) : bool :=
  implb (all (stops f))
        (negb (nonStop (stops f) || oneStop (stops f)
               || twoStops (stops f) || threeStops (stops f))).

(** The specific flags, without [all]. *)
Definition specific : list FilterType :=
  [FilterType.nonStop; FilterType.oneStop; FilterType.twoStops; FilterType.threeStops].

(** Every value of the record, for exhaustive checks. *)
Definition all_filters : list Filters :=
  a ← [true; false]; b ← [true; false]; c ← [true; false];
  d ← [true; false]; e ← [true; false];
  [mkFilters (mkStops a b c d e)].

#[export] Instance Stops_eq_dec : EqDecision Stops.
Proof. solve_decision. Defined.

#[export] Instance Filters_eq_dec : EqDecision Filters.
Proof. solve_decision. Defined.

#[export] Instance FilterType_finite : Finite FilterType.
Proof.
  refine {| enum := FilterType.all :: specific |}.
  - by apply (bool_decide_unpack _).
  - intros []; by apply (bool_decide_unpack _).
Defined.

#[export] Instance FilterType_countable : Countable FilterType := finite_countable.

(** ** Abstract specification (spec.md section 9) *)

(** Either everything is shown, or exactly the stop counts of a set of
    specific flags. *)
Inductive Selection :=
  | AllMode
  | SubsetMode (s : gset FilterType).

(** [apply(selection, action)] *)
Definition toggle (sel : Selection) (k : FilterType) : Selection :=
  if decide (k = FilterType.all) then AllMode
  else match sel with
       | AllMode => SubsetMode {[ k ]}
       | SubsetMode s => SubsetMode (if decide (k ∈ s) then s ∖ {[ k ]} else s ∪ {[ k ]})
       end.

(** The specific flags that are set. *)
Definition flags_set (s : Stops) : gset FilterType :=
  list_to_set (filter (λ k, get_flag s k) specific).

(** The abstract selection that five booleans stand for. *)
Definition abs (f : Filters) : Selection :=
  if all (stops f) then AllMode else SubsetMode (flags_set (stops f)).

(** A sequence of clicks that leads from the initial selection to [f]:
    none when [all] is set; otherwise one flag is set and cleared, which
    clears [all], and then every flag of [f] is set. *)
Definition path_to (f : Filters) : list FilterType :=
  if all (stops f) then []
  else [FilterType.nonStop; FilterType.nonStop]
       ++ filter (λ k, get_flag (stops f) k) specific.

(** ** Tactics *)

(** Case analysis on a selection, a key and every boolean, then computation. *)
Ltac filters_cases :=
  repeat match goal with
         | f : Filters |- _ => destruct f as [[? ? ? ? ?]]
         | s : Stops |- _ => destruct s as [? ? ? ? ?]
         | k : FilterType |- _ => destruct k
         end;
  bool_cases; try (vm_compute in *; done).

(** ** The handler, branch by branch *)

Lemma handleFilterChange_all f :
  handleFilterChange f FilterType.all = initialFilters.
Proof. done. Qed.

Lemma handleFilterChange_specific f k :
  k ≠ FilterType.all →
  handleFilterChange f k =
    mkFilters (set_flag (set_flag (stops f) FilterType.all false) k
                        (negb (get_flag (stops f) k))).
Proof. intros Hk. unfold handleFilterChange. by case_decide. Qed.

Lemma get_set_flag s k k' v :
  get_flag (set_flag s k v) k' = if decide (k' = k) then v else get_flag s k'.
Proof. by destruct s, k, k'. Qed.

Lemma set_get_flag s k : set_flag s k (get_flag s k) = s.
Proof. by destruct s, k. Qed.

Lemma stops_ext s1 s2 : (∀ k, get_flag s1 k = get_flag s2 k) → s1 = s2.
Proof.
  intros H. destruct s1, s2.
  pose proof (H FilterType.all). pose proof (H FilterType.nonStop).
  pose proof (H FilterType.oneStop). pose proof (H FilterType.twoStops).
  pose proof (H FilterType.threeStops). simpl in *. congruence.
Qed.

(** The flag [k'] after a click on the specific flag [k]. *)
Lemma handleFilterChange_flag f k k' :
  k ≠ FilterType.all →
  get_flag (stops (handleFilterChange f k)) k' =
    if decide (k' = k) then negb (get_flag (stops f) k)
    else if decide (k' = FilterType.all) then false
    else get_flag (stops f) k'.
Proof.
  intros Hk. rewrite handleFilterChange_specific by done. cbn [stops].
  by rewrite !get_set_flag.
Qed.

#[export] Hint Rewrite handleFilterChange_all get_set_flag set_get_flag : tickets_rw.

(** ** The invariant *)

(** One click establishes the invariant, whatever the selection was. *)
Lemma handleFilterChange_inv f k : inv (handleFilterChange f k) = true.
Proof. by filters_cases. Qed.

Lemma step_inv f g : step f g → inv g = true.
Proof. intros []. apply handleFilterChange_inv. Qed.

Lemma inv_initial : inv initialFilters = true.
Proof. done. Qed.

#[export] Hint Resolve handleFilterChange_inv inv_initial step_inv : tickets.

Lemma reachable_inv_aux f : reachable f → inv f = true.
Proof.
  apply (rtc_ind_r (λ f, inv f = true)); eauto with tickets.
Qed.

(** ** Runs *)

Lemma run_app f ks1 ks2 : run f (ks1 ++ ks2) = run (run f ks1) ks2.
Proof. apply foldl_app. Qed.

Lemma run_snoc f ks k : run f (ks ++ [k]) = handleFilterChange (run f ks) k.
Proof. by rewrite run_app. Qed.

Lemma rtc_step_run f ks : rtc step f (run f ks).
Proof.
  revert f. induction ks as [|k ks IH]; intros f; [done|].
  simpl. eapply rtc_l; [constructor|apply IH].
Qed.

Lemma rtc_step_inv_run f g : rtc step f g → ∃ ks, g = run f ks.
Proof.
  induction 1 as [f|f g h [f' k] _ [ks ->]]; [by exists []|].
  by exists (k :: ks).
Qed.

Lemma run_path_to f : inv f = true → run initialFilters (path_to f) = f.
Proof. by filters_cases. Qed.

Lemma elem_of_all_filters f : f ∈ all_filters.
Proof. filters_cases; by apply (bool_decide_unpack _). Qed.

(** ** Algebra of clicks *)

Lemma handleFilterChange_twice f k :
  k ≠ FilterType.all → all (stops f) = false →
  handleFilterChange (handleFilterChange f k) k = f.
Proof. by filters_cases. Qed.

Lemma handleFilterChange_comm f k1 k2 :
  k1 ≠ FilterType.all → k2 ≠ FilterType.all →
  handleFilterChange (handleFilterChange f k1) k2 =
  handleFilterChange (handleFilterChange f k2) k1.
Proof. by filters_cases. Qed.

(** ** The abstract selection *)

Lemma elem_of_flags_set s k :
  k ∈ flags_set s ↔ k ≠ FilterType.all ∧ get_flag s k = true.
Proof.
  unfold flags_set. rewrite elem_of_list_to_set, elem_of_filter_bool.
  unfold specific. destruct k; set_solver.
Qed.

Lemma abs_initial : abs initialFilters = AllMode.
Proof. done. Qed.

Lemma flags_set_toggle s k :
  k ≠ FilterType.all →
  flags_set (set_flag (set_flag s FilterType.all false) k (negb (get_flag s k))) =
    if decide (k ∈ flags_set s) then flags_set s ∖ {[ k ]} else flags_set s ∪ {[ k ]}.
Proof.
  intros Hk. apply set_eq. intros k'.
  case_decide as Hin; rewrite elem_of_flags_set in Hin;
    [rewrite elem_of_difference|rewrite elem_of_union];
    rewrite !elem_of_flags_set, !get_set_flag, elem_of_singleton;
    repeat case_decide; subst; destruct (get_flag s k); naive_solver.
Qed.

Lemma abs_handleFilterChange f k :
  inv f = true → abs (handleFilterChange f k) = toggle (abs f) k.
Proof.
  intros Hinv. unfold toggle. case_decide as Hk; [by subst|].
  rewrite handleFilterChange_specific by done. unfold abs at 1. cbn [stops].
  replace (all (set_flag _ k _)) with false by (by destruct k, (stops f)).
  rewrite flags_set_toggle by done.
  unfold abs. destruct (all (stops f)) eqn:Hall; [|done].
  assert (flags_set (stops f) = ∅) as ->.
  { apply set_eq. intros k'. rewrite elem_of_flags_set, elem_of_empty.
    destruct f as [[[] [] [] [] []]]; try done; destruct k'; naive_solver. }
  rewrite decide_False by set_solver. f_equal. set_solver.
Qed.

(** ** Properties *)

(** C3: a selection is reachable by clicks from the initial one exactly when
    it satisfies the invariant of spec.md section 3: while [all] is set no
    other flag is. *)
Theorem reachable_iff_inv f : reachable f ↔ inv f = true.
Proof.
  split; [apply reachable_inv_aux|]. intros Hinv.
  rewrite <- (run_path_to f Hinv). apply rtc_step_run.
Qed.

(** Exactly seventeen of the thirty-two values of [Filters] are
    reachable: the initial one and the sixteen subsets of specific flags
    with [all] cleared. *)
Theorem reachable_seventeen :
  ∃ l : list Filters,
    NoDup l ∧ length l = 17%nat ∧ ∀ f, reachable f ↔ f ∈ l.
Proof.
  exists (filter (λ f, inv f) all_filters). split_and!.
  - by apply (bool_decide_unpack _).
  - done.
  - intros f. rewrite elem_of_filter_bool. split.
    + intros H. split; [by apply reachable_inv_aux|apply elem_of_all_filters].
    + intros [Hinv _]. rewrite <- (run_path_to f Hinv). apply rtc_step_run.
Qed.

(** A click on "all" gives the initial selection from any selection,
    reachable or not, and a second click on it changes nothing. *)
Theorem click_all_resets f :
  handleFilterChange f FilterType.all = initialFilters ∧
  handleFilterChange (handleFilterChange f FilterType.all) FilterType.all
    = handleFilterChange f FilterType.all.
Proof. done. Qed.

(** A click on a specific flag clears [all], negates that flag and
    leaves the three other specific flags as they were. *)
Theorem click_specific_flags f k k' :
  k ≠ FilterType.all →
  get_flag (stops (handleFilterChange f k)) k' =
    if decide (k' = k) then negb (get_flag (stops f) k)
    else if decide (k' = FilterType.all) then false
    else get_flag (stops f) k'.
Proof. apply handleFilterChange_flag. Qed.

Lemma click_specific_flags_witness :
  FilterType.twoStops ≠ FilterType.all ∧
  get_flag (stops (handleFilterChange initialFilters FilterType.twoStops))
           FilterType.all = false.
Proof.
  split; [done|].
  by rewrite (click_specific_flags initialFilters FilterType.twoStops FilterType.all).
Defined.

(** Once [all] is cleared, two clicks on the same specific flag restore
    the selection. *)
Theorem click_twice_restores f k :
  k ≠ FilterType.all → all (stops f) = false →
  handleFilterChange (handleFilterChange f k) k = f.
Proof. apply handleFilterChange_twice. Qed.

Lemma click_twice_restores_witness :
  handleFilterChange
    (handleFilterChange (mkFilters (mkStops false true false false true))
                        FilterType.oneStop) FilterType.oneStop
  = mkFilters (mkStops false true false false true).
Proof. by apply click_twice_restores. Defined.

(** Clicks on specific flags commute: the selection after two of them
    does not depend on their order. *)
Theorem clicks_commute f k1 k2 :
  k1 ≠ FilterType.all → k2 ≠ FilterType.all →
  handleFilterChange (handleFilterChange f k1) k2 =
  handleFilterChange (handleFilterChange f k2) k1.
Proof. apply handleFilterChange_comm. Qed.

Lemma clicks_commute_witness :
  handleFilterChange (handleFilterChange initialFilters FilterType.nonStop)
                     FilterType.threeStops
  = handleFilterChange (handleFilterChange initialFilters FilterType.threeStops)
                       FilterType.nonStop.
Proof. by apply clicks_commute. Defined.

(** C6: the handler implements the abstract specification of spec.md
    section 9: after any sequence of clicks from the initial selection the
    five booleans stand for the mode and subset that [toggle] computes. *)
Theorem handler_refines_toggle ks :
  abs (run initialFilters ks) = foldl toggle AllMode ks.
Proof.
  induction ks as [|k ks IH] using rev_ind; [done|].
  rewrite run_snoc, foldl_app. simpl. rewrite <- IH.
  apply abs_handleFilterChange, reachable_inv_aux, rtc_step_run.
Qed.

