(* ===== verification/FilterEngine.v ===== *)
(** * FilterEngine: the visible tickets

    The body of the effect of TicketList.tsx (lines 52-66): the predicate
    given to [tickets.filter] is [visible], and [filterTickets] is the list
    that [setFilteredTickets] receives.  The predicate tests the flags in
    the order of the source; each test compares the stop count with [===].

    The class [FilterEngine] states what the component relies on: the
    result keeps the order of the tickets, contains exactly the visible
    ones, and is the whole list under [all].  [filter_engine] is the
    program's engine, shown to meet it. *)

From S2P Require Import Prelude JsNumber Ticket Filters.

(** ** Definitions *)

(** The arrow function given to [tickets.filter]. *)
Definition visible (filters : Filters) (ticket : Ticket) : bool :=
  if all (Filters.stops filters) then true
  else if nonStop (Filters.stops filters) && strict_eq (Ticket.stops ticket) (of_Z 0) then true
  else if oneStop (Filters.stops filters) && strict_eq (Ticket.stops ticket) (of_Z 1) then true
  else if twoStops (Filters.stops filters) && strict_eq (Ticket.stops ticket) (of_Z 2) then true
  else if threeStops (Filters.stops filters) && strict_eq (Ticket.stops ticket) (of_Z 3) then true
  else false.

(** [filterTickets]: the value given to [setFilteredTickets]. *)
Definition filterTickets (tickets : list Ticket) (filters : Filters) : list Ticket :=
  filter (λ ticket, visible filters ticket) tickets.

(** The stop count a specific flag stands for. *)
Definition stops_of (k : FilterType) : option Z :=
  match k with
  | FilterType.all => None
  | FilterType.nonStop => Some 0
  | FilterType.oneStop => Some 1
  | FilterType.twoStops => Some 2
  | FilterType.threeStops => Some 3
  end.

(** The selection with exactly the flag [k] set. *)
Definition only (k : FilterType) : Filters :=
  mkFilters (set_flag (mkStops false false false false false) k true).

(** What the rest of the program may assume of a filter engine: the
    operations and their laws. *)
Class FilterEngine := {
  shown : Filters → Ticket → bool;
  select : list Ticket → Filters → list Ticket;
  select_elem_of tickets filters t :
    t ∈ select tickets filters ↔ shown filters t = true ∧ t ∈ tickets;
  select_sublist tickets filters : select tickets filters `sublist_of` tickets;
  select_all tickets filters :
    all (Filters.stops filters) = true → select tickets filters = tickets;
}.

(** Two selections that show the same tickets. *)
#[export] Instance filters_equiv : Equiv Filters :=
  λ f g, ∀ t, visible f t = visible g t.

(** The stop count of a ticket is the integer [n]. *)
Definition has_stops (n : Z) (t : Ticket) : Prop :=
  0 ≤ n < 2 ^ 53 ∧ Ticket.stops t = of_Z n.

(** ** The predicate *)

(** The chain of tests is a disjunction. *)
Lemma visible_disj f t :
  visible f t =
    all (Filters.stops f)
    || nonStop (Filters.stops f) && strict_eq (Ticket.stops t) (of_Z 0)
    || oneStop (Filters.stops f) && strict_eq (Ticket.stops t) (of_Z 1)
    || twoStops (Filters.stops f) && strict_eq (Ticket.stops t) (of_Z 2)
    || threeStops (Filters.stops f) && strict_eq (Ticket.stops t) (of_Z 3).
Proof.
  unfold visible. destruct f as [[a b c d e]]; simpl.
  destruct a; [done|]. simpl.
  repeat (case_if; [by rewrite ?orb_true_r|]). done.
Qed.

Lemma visible_all f t : all (Filters.stops f) = true → visible f t = true.
Proof. intros H. unfold visible. by rewrite H. Qed.

Lemma visible_only k n t :
  stops_of k = Some n → visible (only k) t = strict_eq (Ticket.stops t) (of_Z n).
Proof.
  intros Hk. rewrite visible_disj.
  destruct k; simplify_eq/=; by rewrite ?orb_false_r.
Qed.

(** With [all] cleared, a ticket is visible when the selection with one of
    the set flags alone shows it. *)
Lemma visible_decompose f t :
  all (Filters.stops f) = false →
  visible f t =
    existsb (λ k, get_flag (Filters.stops f) k && visible (only k) t) specific.
Proof.
  intros Hall. rewrite visible_disj, Hall. simpl.
  rewrite (visible_only FilterType.nonStop 0), (visible_only FilterType.oneStop 1),
    (visible_only FilterType.twoStops 2), (visible_only FilterType.threeStops 3)
    by done.
  by rewrite orb_false_r, !orb_assoc.
Qed.

(** On integer stop counts the comparisons are integer equalities. *)
Lemma visible_has_stops f t n :
  has_stops n t →
  visible f t =
    all (Filters.stops f)
    || existsb (λ k, get_flag (Filters.stops f) k && bool_decide (stops_of k = Some n))
               specific.
Proof.
  intros [Hn Ht]. rewrite visible_disj, Ht.
  rewrite !strict_eq_of_Z by (unfold prec; lia).
  unfold specific. cbn [existsb get_flag stops_of].
  rewrite orb_false_r, !orb_assoc.
  repeat f_equal; apply bool_decide_ext; naive_solver.
Qed.

(** ** The filtered list *)

Lemma elem_of_filterTickets ts f t :
  t ∈ filterTickets ts f ↔ visible f t = true ∧ t ∈ ts.
Proof. apply elem_of_filter_bool. Qed.

Lemma filterTickets_sublist ts f : filterTickets ts f `sublist_of` ts.
Proof. apply sublist_filter. Qed.

Lemma filterTickets_all ts f :
  all (Filters.stops f) = true → filterTickets ts f = ts.
Proof. intros H. apply filter_bool_true. intros t _. by apply visible_all. Qed.

Lemma filterTickets_app ts1 ts2 f :
  filterTickets (ts1 ++ ts2) f = filterTickets ts1 f ++ filterTickets ts2 f.
Proof. apply filter_app. Qed.

Lemma filterTickets_cons t ts f :
  filterTickets (t :: ts) f =
    if visible f t then t :: filterTickets ts f else filterTickets ts f.
Proof. apply filter_bool_cons. Qed.

#[export] Hint Rewrite filterTickets_cons filterTickets_app : tickets_rw.
Lemma filterTickets_length ts f : (length (filterTickets ts f) ≤ length ts)%nat.
Proof. apply filter_bool_length. Qed.

#[export] Hint Resolve filterTickets_sublist filterTickets_length : tickets.

(** The program's engine meets the interface. *)
#[export] Instance filter_engine : FilterEngine := {|
  shown := visible;
  select := filterTickets;
  select_elem_of := elem_of_filterTickets;
  select_sublist := filterTickets_sublist;
  select_all := filterTickets_all;
|}.

#[export] Instance filters_equivalence : Equivalence (≡@{Filters}).
Proof.
  split; [by intros f t|by intros f g H t|].
  intros f g h H1 H2 t. by rewrite H1.
Qed.

(** The filtered list depends on the selection through visibility only. *)
#[export] Instance filterTickets_proper ts :
  Proper ((≡) ==> (=)) (filterTickets ts).
Proof. intros f g H. apply filter_bool_ext. intros t _. apply H. Qed.

Lemma visible_mono f g t :
  (∀ k, get_flag (Filters.stops f) k = true → get_flag (Filters.stops g) k = true) →
  visible f t = true → visible g t = true.
Proof.
  intros H. rewrite !visible_disj.
  pose proof (H FilterType.all). pose proof (H FilterType.nonStop).
  pose proof (H FilterType.oneStop). pose proof (H FilterType.twoStops).
  pose proof (H FilterType.threeStops). clear H. simpl in *.
  rewrite !orb_true_iff, !andb_true_iff. tauto.
Qed.

(** A test over the specific flags succeeds when it does for some key that
    is not [all]. *)
Lemma existsb_specific (p : FilterType → bool) :
  existsb p specific = true ↔ ∃ k, k ≠ FilterType.all ∧ p k = true.
Proof.
  rewrite existsb_exists. unfold specific. split.
  - intros (k & Hk & ?). exists k. split; [|done]. intros ->. simpl in Hk. naive_solver.
  - intros (k & Hk & ?). exists k. split; [|done]. destruct k; simpl; tauto.
Qed.

Lemma existsb_flag s n :
  existsb (λ k, get_flag s k && bool_decide (stops_of k = Some n)) specific = true
  ↔ ∃ k, get_flag s k = true ∧ stops_of k = Some n.
Proof.
  rewrite existsb_specific. setoid_rewrite andb_true_iff.
  setoid_rewrite bool_decide_eq_true. split; [naive_solver|].
  intros (k & ? & Hk). exists k. split_and!; [|done..]. by intros ->.
Qed.

Lemma visible_none t : visible (mkFilters (mkStops false false false false false)) t = false.
Proof. done. Qed.

(** ** Properties *)


(** C1: a ticket with an integer stop count [n] is in the filtered list
    exactly when it is one of the tickets and either [all] is set or the
    flag that stands for [n] is set. *)
Theorem filterTickets_exactly_visible ts f t n :
  has_stops n t →
  t ∈ filterTickets ts f ↔
    t ∈ ts ∧ (all (Filters.stops f) = true ∨
              ∃ k, get_flag (Filters.stops f) k = true ∧ stops_of k = Some n).
Proof.
  intros Hn. rewrite elem_of_filterTickets, (visible_has_stops f t n Hn).
  rewrite orb_true_iff, existsb_flag. naive_solver.
Qed.

Lemma filterTickets_exactly_visible_witness :
  sample 1 12400 ∈ filterTickets [sample 0 9000; sample 1 12400]
                                 (only FilterType.oneStop).
Proof.
  apply (filterTickets_exactly_visible _ _ _ 1).
  - split; [lia|reflexivity].
  - split; [by apply (bool_decide_unpack _)|].
    right. exists FilterType.oneStop. split; reflexivity.
Defined.

(** While [all] is set the filtered list is the list of tickets,
    unchanged, whatever the other flags are. *)
Theorem filterTickets_all_unchanged ts f :
  all (Filters.stops f) = true → filterTickets ts f = ts.
Proof. apply filterTickets_all. Qed.

Lemma filterTickets_all_unchanged_witness :
  filterTickets [sample 0 9000; sample 5 100] initialFilters
  = [sample 0 9000; sample 5 100].
Proof. apply filterTickets_all_unchanged. reflexivity. Defined.

(** C27: with exactly one specific flag set, the filtered list holds exactly
    the tickets whose stop count is [===] to the number of that flag. *)
Theorem filterTickets_one_flag ts k n :
  stops_of k = Some n →
  filterTickets ts (only k) = filter (λ t, strict_eq (Ticket.stops t) (of_Z n)) ts.
Proof.
  intros Hk. apply filter_bool_ext. intros t _. by apply visible_only.
Qed.

Lemma filterTickets_one_flag_witness :
  filterTickets [sample 2 1; sample 3 2; sample 2 3] (only FilterType.twoStops)
  = filter (λ t, strict_eq (Ticket.stops t) (of_Z 2)) [sample 2 1; sample 3 2; sample 2 3].
Proof. apply filterTickets_one_flag. reflexivity. Defined.

(** C26: with [all] cleared, the filtered list is the union of the lists of
    the set flags taken one at a time: a ticket is in it exactly when one of
    the set flags alone shows it. *)
Theorem filterTickets_union ts f t :
  all (Filters.stops f) = false →
  t ∈ filterTickets ts f ↔
    ∃ k, k ∈ specific ∧ get_flag (Filters.stops f) k = true ∧
         t ∈ filterTickets ts (only k).
Proof.
  intros Hall. rewrite elem_of_filterTickets, visible_decompose by done.
  rewrite existsb_exists. setoid_rewrite andb_true_iff.
  setoid_rewrite elem_of_filterTickets. setoid_rewrite <- list_elem_of_In.
  naive_solver.
Qed.

Lemma filterTickets_union_witness :
  ∃ k, k ∈ specific ∧
       get_flag (mkStops false true false true false) k = true ∧
       sample 2 100 ∈ filterTickets [sample 1 50; sample 2 100] (only k).
Proof.
  apply (filterTickets_union [sample 1 50; sample 2 100]
           (mkFilters (mkStops false true false true false)) (sample 2 100));
    [reflexivity|].
  by apply (bool_decide_unpack _).
Defined.

(** With every flag cleared, [all] included, nothing is shown. *)
Theorem filterTickets_nothing_selected ts :
  filterTickets ts (mkFilters (mkStops false false false false false)) = [].
Proof. apply filter_bool_false. intros t _. apply visible_none. Qed.

(** A ticket with four or more stops has no flag of its own: it is
    visible exactly when [all] is set. *)
Theorem four_or_more_stops f t n :
  has_stops n t → 4 ≤ n → visible f t = all (Filters.stops f).
Proof.
  intros [Hn Ht] H4. rewrite visible_disj, Ht.
  rewrite !strict_eq_of_Z by (unfold prec; lia).
  rewrite !bool_decide_eq_false_2 by lia. by rewrite !andb_false_r, !orb_false_r.
Qed.

Lemma four_or_more_stops_witness :
  visible (mkFilters (mkStops false true true true true)) (sample 4 100) = false.
Proof.
  apply (four_or_more_stops (mkFilters (mkStops false true true true true))
                            (sample 4 100) 4).
  - split; [lia|reflexivity].
  - lia.
Defined.

(** Filtering the filtered list again with the same selection changes
    nothing. *)
Theorem filterTickets_idempotent ts f :
  filterTickets (filterTickets ts f) f = filterTickets ts f.
Proof. apply filter_bool_idemp. Qed.

(** Setting more flags shows more: if every flag set in [f] is set in
    [g], the list for [f] is a sublist of the list for [g]. *)
Theorem filterTickets_monotone ts f g :
  (∀ k, get_flag (Filters.stops f) k = true → get_flag (Filters.stops g) k = true) →
  filterTickets ts f `sublist_of` filterTickets ts g.
Proof.
  intros H.
  replace (filterTickets ts f) with (filterTickets (filterTickets ts g) f);
    [apply filterTickets_sublist|].
  unfold filterTickets. rewrite filter_bool_andb. apply filter_bool_ext.
  intros t _. destruct (visible f t) eqn:Hf; [|by rewrite andb_false_r].
  by rewrite (visible_mono f g t H Hf).
Qed.

Lemma filterTickets_monotone_witness :
  filterTickets [sample 1 50; sample 2 100] (only FilterType.oneStop)
  `sublist_of`
  filterTickets [sample 1 50; sample 2 100]
                (mkFilters (mkStops false false true true false)).
Proof.
  apply filterTickets_monotone. intros k. destruct k; simpl; congruence.
Defined.

(** The scenario of spec.md section 8: of five tickets with 0, 1, 1, 2
    and 3 stops, the selection "one stop" shows the second and the third, in
    that order. *)
Theorem end_to_end_one_stop :
  filterTickets [sample 0 10; sample 1 20; sample 1 30; sample 2 40; sample 3 50]
                (handleFilterChange initialFilters FilterType.oneStop)
  = [sample 1 20; sample 1 30].
Proof. vm_compute. reflexivity. Qed.
