(* ===== verification/Price.v ===== *)
(** * Price: the displayed price

    [exchangeRates] and [defaultCurrency] (lines 30-36 of TicketList.tsx)
    and [convertCurrency] (lines 96-100): the rate is read from the table by
    the currency code, replaced by [1] when the read gives a falsy value,
    multiplied with the price, and the product is printed with two fraction
    digits.

    [convertWith] is the same function over any rate table, as spec.md
    section 9 asks for; [convertCurrency] is its instance at the program's
    table.

    The theorems on whole prices rest on [Rounding]: the product of the
    price and the rate is the exact product rounded to 53 bits, and
    [convertWith_whole] adds the rounding of [toFixed]. *)

From S2P Require Import Prelude Digits JsNumber Rounding Valid JsObject Ticket.
From Stdlib Require Import SpecFloat.
From stdpp Require Import gmap.

#[local] Open Scope Z_scope.

(** ** Definitions *)

Definition exchangeRates : gmap string number :=
  {[ "RUB" := of_Z 1; "USD" := of_decimal 1 2; "EUR" := of_decimal 95 4 ]}.

Definition defaultCurrency : string := "RUB".

(** [(rates[targetCurrency] || 1) as number] *)
Definition rate_of (rates : gmap string number) (targetCurrency : string) : number :=
  to_number (js_or (get rates targetCurrency) (VNumber (of_Z 1))).

(** [convertCurrency] over the rate table [rates]. *)
Definition convertWith (rates : gmap string number)
    (price : number) (targetCurrency : string) : string :=
  let rate := rate_of rates targetCurrency in
  toFixed (mul price rate) 2.

Definition convertCurrency (price : number) (targetCurrency : string) : string :=
  convertWith exchangeRates price targetCurrency.

(** The text of the button: [Купить {price} {currency}]. *)
Definition buy_label (ticket : Ticket) (selectedCurrency : string) : string :=
  "Купить " +:+ convertCurrency (price ticket) selectedCurrency +:+ " " +:+ selectedCurrency.

(** [n] hundredths show [num / den] times the price [m * 2^e]: they are
    within half a hundredth, and a relative error of [2^-52] of the price,
    of it.  The inequality is the one between the reals, multiplied by
    [2 * den * 2^(59 - e)]. *)
Definition shows_amount (n num den : Z) (m : positive) (e : Z) : Prop :=
  2 * Z.abs (n * den * 2 ^ (59 - e) - num * Z.pos m * 2 ^ 59)
  ≤ den * 2 ^ (59 - e) + den * Z.pos m * 2 ^ 8.

(** ** The rate *)

Lemma lookup_exchangeRates code :
  exchangeRates !! code =
    if decide (code = "RUB") then Some (of_Z 1)
    else if decide (code = "USD") then Some (of_decimal 1 2)
    else if decide (code = "EUR") then Some (of_decimal 95 4)
    else None.
Proof.
  unfold exchangeRates. repeat case_decide; subst; simplify_map_eq; done.
Qed.

Lemma rate_of_default : rate_of exchangeRates defaultCurrency = of_Z 1.
Proof. unfold rate_of, get. by rewrite lookup_exchangeRates. Qed.

(** The codes of the table read as their rates: none of them is falsy. *)
Lemma rate_of_table :
  rate_of exchangeRates "RUB" = of_Z 1 ∧
  rate_of exchangeRates "USD" = of_decimal 1 2 ∧
  rate_of exchangeRates "EUR" = of_decimal 95 4.
Proof. vm_compute. by split_and!. Qed.

(** A code that is no property at all reads as [undefined], and the rate
    is [1]. *)
Lemma rate_of_unknown (rates : gmap string number) code :
  rates !! code = None → code ∉ object_prototype_keys →
  rate_of rates code = of_Z 1.
Proof.
  intros H1 H2. unfold rate_of, get. rewrite H1.
  by rewrite bool_decide_eq_false_2.
Qed.

(** A code that only [Object.prototype] has reads as an object, which is
    truthy, and its rate is [NaN]. *)
Lemma rate_of_prototype (rates : gmap string number) code :
  rates !! code = None → code ∈ object_prototype_keys →
  rate_of rates code = NaN.
Proof.
  intros H1 H2. unfold rate_of, get. rewrite H1.
  by rewrite bool_decide_eq_true_2.
Qed.

Lemma mul_NaN_r x : mul x NaN = NaN.
Proof. by destruct x. Qed.

Lemma prototype_keys_not_rates code :
  code ∈ object_prototype_keys → exchangeRates !! code = None.
Proof.
  intros H. rewrite lookup_exchangeRates.
  repeat case_decide; subst; try done;
    by apply (bool_decide_pack _) in H.
Qed.

(** Whatever the code, the rate is one of the table, [1] or [NaN]. *)
Lemma rate_of_cases code :
  rate_of exchangeRates code ∈ [of_Z 1; of_decimal 1 2; of_decimal 95 4; NaN].
Proof.
  destruct rate_of_table as (H1 & H2 & H3).
  destruct (exchangeRates !! code) as [r|] eqn:Hl.
  - rewrite lookup_exchangeRates in Hl.
    destruct (decide (code = "RUB")) as [->|?];
      [rewrite H1; apply list_elem_of_here|].
    destruct (decide (code = "USD")) as [->|?];
      [rewrite H2; apply list_elem_of_further, list_elem_of_here|].
    destruct (decide (code = "EUR")) as [->|?]; [|discriminate Hl].
    rewrite H3. do 2 apply list_elem_of_further. apply list_elem_of_here.
  - destruct (decide (code ∈ object_prototype_keys)).
    + rewrite rate_of_prototype by done.
      do 3 apply list_elem_of_further. apply list_elem_of_here.
    + rewrite rate_of_unknown by done. apply list_elem_of_here.
Qed.

Lemma rate_of_valid code : valid (rate_of exchangeRates code) = true.
Proof.
  pose proof (rate_of_cases code) as Hr. revert Hr.
  generalize (rate_of exchangeRates code). intros r Hr.
  repeat (apply elem_of_cons in Hr as [->|Hr]; [by vm_compute|]).
  by apply elem_of_nil in Hr.
Qed.

(** ** Properties *)


(** C10: in the default currency the price is shown unconverted: the
    product with the rate [1] is the price itself. *)
Theorem convertCurrency_default price :
  valid price = true →
  convertCurrency price defaultCurrency = toFixed price 2.
Proof.
  intros Hv. unfold convertCurrency, convertWith.
  by rewrite rate_of_default, mul_1_r.
Qed.

Lemma convertCurrency_default_witness :
  convertCurrency (of_decimal 123456 2) defaultCurrency = toFixed (of_decimal 123456 2) 2.
Proof. apply convertCurrency_default. vm_compute. reflexivity. Defined.

(** C40: for a currency code that is no property of the table and none of
    [Object.prototype], the rate falls back to [1]: the price is shown as in
    the default currency. *)
Theorem convertCurrency_unknown_code price code :
  exchangeRates !! code = None → code ∉ object_prototype_keys →
  convertCurrency price code = convertCurrency price defaultCurrency.
Proof.
  intros H1 H2. unfold convertCurrency, convertWith.
  by rewrite rate_of_default, rate_of_unknown.
Qed.

Lemma convertCurrency_unknown_code_witness :
  convertCurrency (of_Z 1000) "GBP" = convertCurrency (of_Z 1000) defaultCurrency.
Proof.
  apply convertCurrency_unknown_code.
  - vm_compute. reflexivity.
  - apply (bool_decide_unpack _). vm_compute. reflexivity.
Defined.

(** C21: for a currency code that names a property of [Object.prototype]
    ("toString", "constructor", ...), the read gives an object, the rate is
    not replaced by [1], and the text shown is "NaN" for every price. *)
Theorem convertCurrency_prototype_key price code :
  code ∈ object_prototype_keys → convertCurrency price code = "NaN".
Proof.
  intros H. unfold convertCurrency, convertWith.
  rewrite rate_of_prototype by auto using prototype_keys_not_rates.
  by rewrite mul_NaN_r.
Qed.

Lemma convertCurrency_prototype_key_witness :
  convertCurrency (of_Z 1000) "toString" = "NaN".
Proof.
  apply convertCurrency_prototype_key.
  apply (bool_decide_unpack _). vm_compute. reflexivity.
Defined.



(** ** Whole prices

    The price is a whole number [p] below [2^52] and the rate a normal
    number [mr * 2^er] below one.  The product is rounded to 53 bits and
    [toFixed] rounds it again, to hundredths; when the exact product is
    nearer to [n] hundredths than the two rounding errors can bridge, [n]
    is what is printed. *)

Lemma convertWith_whole rates code mr er p n :
  rate_of rates code = S754_finite false mr er →
  Z.pos (digits2_pos mr) = prec → -1000 ≤ er ≤ -54 →
  0 < p < 2 ^ 52 →
  2 * Z.abs (100 * p * Z.pos mr - n * 2 ^ (- er)) + 200 * p < 2 ^ (- er) →
  convertWith rates (of_Z p) code = fixed_ref n 2.
Proof.
  intros Hrate Hdr Her Hp Hn.
  destruct (of_Z_normal p) as (mp & kp & Hrep & Hkp & Hmp & Hdp); [unfold prec; lia|].
  unfold convertWith. rewrite Hrate, Hrep.
  pose proof (digits2_pos_bounds mp) as Bp. rewrite Hdp in Bp. unfold prec in Bp.
  change (2 ^ (53 - 1)) with (2 ^ 52) in Bp.
  assert (0 < 2 ^ kp) as Hpk by (apply Z.pow_pos_nonneg; lia).
  assert (1 ≤ kp ≤ 53) as Hk1.
  { split.
    - destruct (Z.eq_dec kp 0) as [->|]; [|lia]. rewrite Z.pow_0_r in Hmp. lia.
    - destruct (Z.le_gt_cases kp 53) as [|Hgt]; [done|].
      assert (2 ^ 53 < 2 ^ kp) by (apply Z.pow_lt_mono_r; lia). nia. }
  destruct (mul_finite_nearest false mp (- kp) false mr er)
    as (k & m & e & -> & Hdm & Hk & He & Herr);
    [done|done|unfold prec, emax, SpecFloat.emin; lia..|].
  cbn [xorb]. destruct (digits2_pos_bounds m) as [_ Bm]. rewrite Hdm in Bm.
  set (t := e - (- kp + er)) in *.
  assert (0 < 2 ^ (- e)) as HE by (apply Z.pow_pos_nonneg; lia).
  assert (0 < 2 ^ t) as HT by (apply Z.pow_pos_nonneg; lia).
  assert (0 < 2 ^ (- er)) as HR by (apply Z.pow_pos_nonneg; lia).
  assert (2 ^ (- e) * 2 ^ t = 2 ^ kp * 2 ^ (- er)) as HET.
  { rewrite <- !Z.pow_add_r by lia. f_equal. lia. }
  assert (2 ^ k ≤ 2 ^ 53) as Hk53 by (apply Z.pow_le_mono_r; lia).
  apply toFixed_unique; [lia|done|]. change (10 ^ Z.of_nat 2) with 100.
  set (A := Z.pos m * 2 ^ t) in *. set (E := 2 ^ (- e)) in *.
  set (T := 2 ^ t) in *. set (R := 2 ^ (- er)) in *. set (K := 2 ^ kp) in *.
  assert (2 * Z.abs (100 * A - n * (E * T)) < E * T) as Hscaled.
  { rewrite HET. rewrite Hmp in *.
    assert (100 * (p * K * Z.pos mr) - n * (K * R)
            = K * (100 * p * Z.pos mr - n * R)) as Hx by lia.
    assert (2 * Z.abs (100 * (p * K * Z.pos mr) - n * (K * R)) + 200 * (p * K) < K * R)
      by (rewrite Hx, Z.abs_mul, (Z.abs_eq K) by lia; nia).
    lia. }
  assert (100 * A - n * (E * T) = (Z.pos m * 100 - n * E) * T) as Heq by (unfold A; lia).
  rewrite Heq, Z.abs_mul, (Z.abs_eq T) in Hscaled by lia. nia.
Qed.

(** The rates of USD and EUR as binary64 values: [0.01 * (1 + 12 / 2^59)]
    and [0.0095 * (1 - 272 / (19 * 2^59))]. *)
Lemma rates_binary :
  rate_of exchangeRates "USD" = S754_finite false 5764607523034235 (-59) ∧
  100 * 5764607523034235 = 2 ^ 59 + 12 ∧
  rate_of exchangeRates "EUR" = S754_finite false 5476377146882523 (-59) ∧
  2000 * 5476377146882523 = 19 * 2 ^ 59 - 272.
Proof. by vm_compute. Qed.

(** C7: every whole price from 0 to 2^51 is shown in USD as the exact
    hundredth of the price: neither the binary rounding of the rate 0.01
    nor that of the product shows in the two printed digits. *)
Theorem convertCurrency_usd_exact p :
  0 ≤ p ≤ 2 ^ 51 → convertCurrency (of_Z p) "USD" = fixed_ref p 2.
Proof.
  intros Hp. destruct (Z.eq_dec p 0) as [->|Hp0]; [by vm_compute|].
  destruct rates_binary as (Hrate & H100 & _).
  apply (convertWith_whole _ _ _ _ _ _ Hrate); [done|lia|lia|].
  change (- -59) with 59. change (2 ^ 51) with 2251799813685248 in Hp.
  change (2 ^ 59) with 576460752303423488 in *. lia.
Qed.

Lemma convertCurrency_usd_exact_witness :
  convertCurrency (of_Z 123456789) "USD" = fixed_ref 123456789 2.
Proof. apply convertCurrency_usd_exact. lia. Defined.

(** C28: every whole price from 0 to 2^47 whose amount in EUR is no tie
    between two hundredths is shown as the hundredth nearest to the exact
    amount [0.0095 * p]; the amount is a tie exactly when [p mod 20 = 10]. *)
Theorem convertCurrency_eur_nearest p :
  0 ≤ p ≤ 2 ^ 47 → p mod 20 ≠ 10 →
  convertCurrency (of_Z p) "EUR" = fixed_ref (round_half_up (95 * p) 100) 2.
Proof.
  intros Hp Htie. destruct (Z.eq_dec p 0) as [->|Hp0]; [by vm_compute|].
  destruct rates_binary as (_ & _ & Hrate & H2000).
  pose proof (round_half_up_bounds (95 * p) 100 ltac:(lia)) as Hb.
  set (n := round_half_up (95 * p) 100) in *. clearbody n.
  apply (convertWith_whole _ _ _ _ _ _ Hrate); [done|lia|lia|].
  change (- -59) with 59. change (2 ^ 47) with 140737488355328 in Hp.
  change (2 ^ 59) with 576460752303423488 in *.
  assert (19 * p - 20 * n ≠ -10) as Hne.
  { intros H. apply Htie.
    assert (∃ q, p = 10 + q * 20) as [q ->] by (exists (p - n); lia).
    by rewrite Z.mod_add by lia. }
  assert (20 * (100 * p * 5476377146882523 - n * 576460752303423488)
          = 576460752303423488 * (19 * p - 20 * n) - 272 * p) by lia.
  lia.
Qed.

Lemma convertCurrency_eur_nearest_witness :
  convertCurrency (of_Z 123456789) "EUR"
  = fixed_ref (round_half_up (95 * 123456789) 100) 2.
Proof. apply convertCurrency_eur_nearest; [lia|vm_compute; intros [=]]. Defined.



(** ** Every price

    The price is any normal number [mx * 2^ex] and the rate a normal number
    [mr * 2^er] small enough for the product to lie below [2^52]: the
    hundredths that are printed differ from the exact product of the two
    binary numbers by at most one half, for [toFixed], and [50 * 2^53]
    units of the scale [2^-(ex+er)], for the rounding of the product. *)

Lemma convertWith_normal rates code mr er mx ex :
  rate_of rates code = S754_finite false mr er →
  Z.pos (digits2_pos mr) = prec → Z.pos (digits2_pos mx) = prec →
  SpecFloat.emin prec emax ≤ ex + er + 52 → ex + er ≤ -55 →
  ∃ n, convertWith rates (S754_finite false mx ex) code = fixed_ref n 2 ∧ 0 ≤ n ∧
       2 * Z.abs (n * 2 ^ (- (ex + er)) - 100 * Z.pos mx * Z.pos mr)
       ≤ 2 ^ (- (ex + er)) + 100 * 2 ^ 53.
Proof.
  intros Hrate Hdr Hdx Hlo Hhi. unfold convertWith. rewrite Hrate.
  destruct (mul_finite_nearest false mx ex false mr er)
    as (k & m & e & -> & Hdm & Hk & He & Herr);
    [done|done|done|unfold prec, emax; lia|].
  cbn [xorb]. destruct (digits2_pos_bounds m) as [_ Bm]. rewrite Hdm in Bm.
  set (t := e - (ex + er)) in *.
  assert (0 < 2 ^ (- e)) as HE by (apply Z.pow_pos_nonneg; lia).
  assert (0 < 2 ^ t) as HT by (apply Z.pow_pos_nonneg; lia).
  assert (2 ^ (- (ex + er)) = 2 ^ (- e) * 2 ^ t) as ->
    by (rewrite <- Z.pow_add_r by lia; f_equal; lia).
  assert (2 ^ k ≤ 2 ^ 53) as Hk53 by (apply Z.pow_le_mono_r; lia).
  exists (nearest_scaled 2 m e). rewrite toFixed_finite.
  - split_and!; [by rewrite string_app_nil_l|auto with tickets|].
    unfold nearest_scaled, scaled. rewrite (proj2 (Z.leb_gt 0 e)) by lia.
    cbn [fst snd]. change (10 ^ Z.of_nat 2) with 100.
    pose proof (round_half_up_bounds (Z.pos m * 100) (2 ^ (- e)) HE) as Hb.
    set (n := round_half_up _ _) in *. clearbody n.
    set (E := 2 ^ (- e)) in *. set (T := 2 ^ t) in *. nia.
  - unfold at_least_pow10, scaled. rewrite (proj2 (Z.leb_gt 0 e)) by lia.
    cbn [fst snd]. apply Z.leb_gt.
    change (10 ^ Z.of_nat 21) with (10 ^ 21). change (10 ^ Z.of_nat 0) with 1.
    assert (2 ^ prec < 10 ^ 21) by done. nia.
Qed.

(** C8: every price from [2^-1015] to [2^57], whole or not, is shown in USD
    and in EUR as a number of hundredths that differs from the exact
    amount ([0.01] and [0.0095] times the price) by at most half a
    hundredth and a relative error of [2^-52] of the price: the rounding
    of the rate, of the product and of [toFixed] add up to no more. *)
Theorem convertCurrency_accuracy mx ex code num den :
  Z.pos (digits2_pos mx) = prec → -1067 ≤ ex ≤ 4 →
  (code, (num, den)) ∈ [("USD", (1, 1)); ("EUR", (19, 20))] →
  ∃ n, convertCurrency (S754_finite false mx ex) code = fixed_ref n 2 ∧ 0 ≤ n ∧
       shows_amount n num den mx ex.
Proof.
  intros Hdx Hex Hc.
  apply elem_of_cons in Hc as [[= -> -> ->]|Hc];
    [|apply elem_of_cons in Hc as [[= -> -> ->]|Hc]; [|by apply elem_of_nil in Hc]].
  all: destruct rates_binary as (Husd & H100 & Heur & H2000).
  all: pose proof (digits2_pos_bounds mx) as Bx; rewrite Hdx in Bx.
  all: change (2 ^ (prec - 1)) with (2 ^ 52) in Bx.
  all: assert (0 < 2 ^ (59 - ex)) as HE by (apply Z.pow_pos_nonneg; lia).
  - destruct (convertWith_normal exchangeRates "USD" _ _ mx ex Husd)
      as (n & Hn & Hpos & Herr); [done|done|unfold SpecFloat.emin, prec, emax; lia|lia|].
    exists n. split_and!; [exact Hn|done|]. unfold shows_amount.
    replace (- (ex + -59)) with (59 - ex) in Herr by lia.
    set (P := 2 ^ (59 - ex)) in *. clearbody P.
    change (2 ^ 59) with 576460752303423488 in *. change (2 ^ 53) with 9007199254740992 in *.
    change (2 ^ 52) with 4503599627370496 in *. change (2 ^ 8) with 256. lia.
  - destruct (convertWith_normal exchangeRates "EUR" _ _ mx ex Heur)
      as (n & Hn & Hpos & Herr); [done|done|unfold SpecFloat.emin, prec, emax; lia|lia|].
    exists n. split_and!; [exact Hn|done|]. unfold shows_amount.
    replace (- (ex + -59)) with (59 - ex) in Herr by lia.
    set (P := 2 ^ (59 - ex)) in *. clearbody P.
    change (2 ^ 59) with 576460752303423488 in *. change (2 ^ 53) with 9007199254740992 in *.
    change (2 ^ 52) with 4503599627370496 in *. change (2 ^ 8) with 256. lia.
Qed.

Lemma convertCurrency_accuracy_witness :
  ∃ n, convertCurrency (S754_finite false 6787103858842665 (-39)) "EUR"
       = fixed_ref n 2 ∧ 0 ≤ n.
Proof.
  destruct (convertCurrency_accuracy 6787103858842665 (-39) "EUR" 19 20)
    as (n & Hn & Hpos & _);
    [vm_compute; reflexivity|lia|apply list_elem_of_further, list_elem_of_here|].
  exists n. split; [exact Hn|exact Hpos].
Defined.
