(* ===== verification/Component.v ===== *)
(** * Component: the function component [TicketList] as a state machine

    [TicketList] (lines 38-94 of TicketList.tsx) keeps three state cells
    ([filteredTickets], [filters], [selectedCurrency]) beside its prop
    [tickets], and one effect with the dependency list [[tickets, filters]]
    that recomputes [filteredTickets].  React runs the component in rounds:
    a render reads the cells, the commit puts the result on the screen, and
    the effect of that render runs afterwards when one of its dependencies
    is another object than at the previous render; a state setter queues
    the next render.

    - [State] holds the prop and the cells.  [tickets] and [filters] carry
      an identity ([tickets_id], [filters_id]): the dependency list is
      compared with [Object.is], and every [setFilters] of the program
      passes a new object.
    - [Machine] holds the current cells, the cells of the last committed
      render (what the screen shows, and what the handlers and the effect
      created by that render close over), whether a render is queued
      ([dirty]) and whether the effect has still to run ([effect_pending]).
    - [step_fn] gives the actions: the two internal ones ([Render],
      [RunEffect]) and the events ([ClickFilter], [ClickCurrency], and
      [SetTickets] for a parent passing another array).  A pending effect
      runs before the next render, and an event is taken only when no
      render is queued: React renders synchronously after a click.
    - [settle] runs the internal actions until none is enabled; four steps
      are enough from any machine state.  [dispatch] is an event followed
      by [settle].

    The machine is defined over any [FilterEngine]; the program's is the
    instance [filter_engine]. *)

From S2P Require Import Prelude JsNumber Ticket Filters FilterEngine Price.
From stdpp Require Import relations.

(** ** Definitions *)

Record State := mkState {
  tickets : list Ticket;
  tickets_id : nat;
  filteredTickets : list Ticket;
  filters : Filters;
  filters_id : nat;
  selectedCurrency : string;
}.

Record Machine := mkMachine {
  current : State;
  committed : State;
  dirty : bool;
  effect_pending : bool;
}.

Inductive Action :=
  | Render
  | RunEffect
  | ClickFilter (filterType : FilterType)
  | ClickCurrency (newCurrency : string)
  | SetTickets (newTickets : list Ticket).

(** [setFilteredTickets(v)] *)
Definition setFilteredTickets (v : list Ticket) (s : State) : State :=
  mkState (tickets s) (tickets_id s) v (filters s) (filters_id s) (selectedCurrency s).

(** [setFilters(v)], [v] a new object. *)
Definition setFilters (v : Filters) (s : State) : State :=
  mkState (tickets s) (tickets_id s) (filteredTickets s) v (S (filters_id s))
          (selectedCurrency s).

(** [setSelectedCurrency(v)] *)
Definition setSelectedCurrency (v : string) (s : State) : State :=
  mkState (tickets s) (tickets_id s) (filteredTickets s) (filters s) (filters_id s) v.

(** The parent renders [<TicketList tickets={v} />] with a new array. *)
Definition setTickets (v : list Ticket) (s : State) : State :=
  mkState v (S (tickets_id s)) (filteredTickets s) (filters s) (filters_id s)
          (selectedCurrency s).

(** [handleCurrencyChange(newCurrency)] *)
Definition handleCurrencyChange (newCurrency : string) (s : State) : State :=
  setSelectedCurrency newCurrency s.

(** The dependency list [[tickets, filters]], as identities. *)
Definition deps (s : State) : nat * nat := (tickets_id s, filters_id s).

(** The values of the cells at the first render. *)
Definition initialState (ts : list Ticket) : State :=
  mkState ts 0 ts initialFilters 0 defaultCurrency.

(** The machine after the first render: its effect has still to run. *)
Definition mount (ts : list Ticket) : Machine :=
  mkMachine (initialState ts) (initialState ts) false true.

Section machine.
Context `{!FilterEngine}.

(** The body of the effect, with the [tickets] and [filters] of the render
    that created it. *)
Definition run_effect (m : Machine) : Machine :=
  mkMachine
    (setFilteredTickets (select (tickets (committed m)) (filters (committed m)))
                        (current m))
    (committed m) true false.

(** A render and its commit: the effect is scheduled when a dependency is
    another object than at the previous render. *)
Definition render (m : Machine) : Machine :=
  mkMachine (current m) (current m) false
            (bool_decide (deps (current m) ≠ deps (committed m))).

Definition step_fn (a : Action) (m : Machine) : option Machine :=
  match a with
  | RunEffect => if effect_pending m then Some (run_effect m) else None
  | Render =>
      if dirty m && negb (effect_pending m) then Some (render m) else None
  | ClickFilter filterType =>
      if dirty m then None
      else Some (mkMachine
                   (setFilters (handleFilterChange (filters (committed m)) filterType)
                               (current m))
                   (committed m) true (effect_pending m))
  | ClickCurrency newCurrency =>
      if dirty m then None
      else if decide (newCurrency = selectedCurrency (current m)) then Some m
      else Some (mkMachine (handleCurrencyChange newCurrency (current m))
                           (committed m) true (effect_pending m))
  | SetTickets newTickets =>
      if dirty m then None
      else Some (mkMachine (setTickets newTickets (current m))
                           (committed m) true (effect_pending m))
  end.

Inductive machine_step : Machine → Machine → Prop :=
  | step_action a m m' : step_fn a m = Some m' → machine_step m m'.

(** The machine states that events and React's rounds lead to. *)
Definition reachable_from (ts : list Ticket) (m : Machine) : Prop :=
  rtc machine_step (mount ts) m.

(** The internal action that is enabled, if any: a pending effect first. *)
Definition internal_action (m : Machine) : option Action :=
  if effect_pending m then Some RunEffect
  else if dirty m then Some Render
  else None.

Fixpoint settle (fuel : nat) (m : Machine) : Machine :=
  match fuel with
  | O => m
  | S fuel' =>
      match internal_action m with
      | Some a => from_option (settle fuel') m (step_fn a m)
      | None => m
      end
  end.

(** The internal actions that [settle] takes, in order. *)
Fixpoint settle_trace (fuel : nat) (m : Machine) : list Action :=
  match fuel with
  | O => []
  | S fuel' =>
      match internal_action m with
      | Some a => a :: from_option (settle_trace fuel') [] (step_fn a m)
      | None => []
      end
  end.

(** Nothing is queued: the screen shows the current cells. *)
Definition quiescent (m : Machine) : bool :=
  negb (dirty m) && negb (effect_pending m).

(** An event and the rounds it causes. *)
Definition dispatch (a : Action) (m : Machine) : Machine :=
  from_option (settle 4) m (step_fn a m).

(** The machine with the cells [s] on the screen and nothing queued. *)
Definition settled (s : State) : Machine := mkMachine s s false false.

(** What holds in every reachable machine state. *)
Definition machine_inv (m : Machine) : Prop :=
  (dirty m = false → current m = committed m) ∧
  (filters_id (current m) = filters_id (committed m) →
   filters (current m) = filters (committed m)) ∧
  (tickets_id (current m) = tickets_id (committed m) →
   tickets (current m) = tickets (committed m)) ∧
  (effect_pending m = false →
   filteredTickets (current m) =
     select (tickets (committed m)) (filters (committed m))).

End machine.

(** The number of internal steps until nothing is queued. *)
Definition measure (m : Machine) : nat :=
  let changed := bool_decide (deps (current m) ≠ deps (committed m)) in
  if effect_pending m then (if changed then 4 else 2)
  else if dirty m then (if changed then 3 else 1)
  else 0.

(** The clicks on check boxes among a list of events, in order. *)
Definition filter_clicks (evs : list Action) : list FilterType :=
  omap (λ a, match a with ClickFilter k => Some k | _ => None end) evs.

(** An event of the user: a click on a check box or on a currency button. *)
Definition user_event (a : Action) : bool :=
  match a with
  | ClickFilter _ | ClickCurrency _ => true
  | _ => false
  end.

(** The currency after a list of events. *)
Definition last_currency (c : string) (evs : list Action) : string :=
  foldl (λ c a, match a with ClickCurrency c' => c' | _ => c end) c evs.

Section cells.
Context `{!FilterEngine}.

(** The cells after a list of user events on the tickets [ts]. *)
Definition cells_after (ts : list Ticket) (evs : list Action) : State :=
  let f := run initialFilters (filter_clicks evs) in
  mkState ts 0 (select ts f) f (length (filter_clicks evs))
          (last_currency defaultCurrency evs).

End cells.

Lemma deps_setFilters v s : deps (setFilters v s) ≠ deps s.
Proof. unfold deps. simpl. intros [=]. lia. Qed.

Lemma deps_setTickets v s : deps (setTickets v s) ≠ deps s.
Proof. unfold deps. simpl. intros [=]. lia. Qed.

(** Runs the rounds of [settle] on a machine state given by its fields. *)
Ltac rounds :=
  unfold dispatch, settled;
  repeat first
    [ progress cbn [settle settle_trace step_fn from_option effect_pending
                    dirty current committed andb negb]
    | progress unfold internal_action, render, run_effect
    | rewrite bool_decide_eq_true_2 by (apply deps_setFilters || apply deps_setTickets)
    | rewrite bool_decide_eq_false_2 by naive_solver
    | rewrite decide_False by done
    | rewrite decide_True by done ].

Section machine_facts.
Context `{!FilterEngine}.
Implicit Types (m : Machine) (a : Action) (ts : list Ticket).

(** ** The invariant *)

Lemma machine_inv_mount ts : machine_inv (mount ts).
Proof. by split_and!. Qed.

Lemma deps_eq s1 s2 :
  deps s1 = deps s2 ↔ tickets_id s1 = tickets_id s2 ∧ filters_id s1 = filters_id s2.
Proof. unfold deps. naive_solver. Qed.

Lemma run_effect_inv m : machine_inv m → machine_inv (run_effect m).
Proof. intros (Ha & Hf & Ht & He). by split_and!. Qed.

Lemma render_inv m :
  machine_inv m → effect_pending m = false → machine_inv (render m).
Proof.
  intros (Ha & Hf & Ht & He) Hp. split_and!; try done. simpl.
  intros [Hti Hfi]%bool_decide_eq_false%dec_stable%deps_eq.
  by rewrite He, Hf, Ht.
Qed.

Lemma step_fn_inv a m m' : machine_inv m → step_fn a m = Some m' → machine_inv m'.
Proof.
  intros Hinv Hs. destruct a; simpl in Hs; repeat case_match; simplify_eq;
    try (by apply run_effect_inv); try done.
  - apply render_inv; [done|]. by destruct (effect_pending m), (dirty m).
  - destruct Hinv as (Ha & Hf & Ht & He). rewrite <- Ha in * by done.
    split_and!; simpl; try done; lia.
  - destruct Hinv as (Ha & Hf & Ht & He). rewrite <- Ha in * by done.
    by split_and!.
  - destruct Hinv as (Ha & Hf & Ht & He). rewrite <- Ha in * by done.
    split_and!; simpl; try done; lia.
Qed.

Lemma reachable_machine_inv ts m : reachable_from ts m → machine_inv m.
Proof.
  apply (rtc_ind_r (λ m, machine_inv m)); [apply machine_inv_mount|].
  intros m1 m2 _ [a ? ? Hs] IH. by eapply step_fn_inv.
Qed.

(** ** Internal steps *)

Lemma internal_action_enabled m a :
  internal_action m = Some a → ∃ m', step_fn a m = Some m'.
Proof.
  unfold internal_action. destruct (effect_pending m) eqn:Hp, (dirty m) eqn:Hd;
    intros; simplify_eq; simpl; rewrite ?Hp, ?Hd; eauto.
Qed.

Lemma internal_action_measure_S m a m' :
  internal_action m = Some a → step_fn a m = Some m' →
  measure m = S (measure m').
Proof.
  unfold internal_action, measure.
  destruct m as [c k [] []]; intros; simplify_eq/=;
    repeat case_bool_decide; done.
Qed.

Lemma settle_S fuel m :
  settle (S fuel) m =
    match internal_action m with
    | Some a => from_option (settle fuel) m (step_fn a m)
    | None => m
    end.
Proof. done. Qed.

Lemma settle_quiescent_id fuel m : quiescent m = true → settle fuel m = m.
Proof.
  destruct fuel; [done|]. rewrite settle_S. unfold quiescent, internal_action.
  by destruct (effect_pending m), (dirty m).
Qed.

(** Fuel above the measure is enough. *)
Lemma settle_measure fuel m :
  (measure m ≤ fuel)%nat → quiescent (settle fuel m) = true.
Proof.
  revert m. induction fuel as [|fuel IH]; intros m Hm.
  - unfold measure, quiescent in *. simpl.
    destruct (effect_pending m), (dirty m); try done; case_bool_decide; lia.
  - rewrite settle_S. destruct (internal_action m) as [a|] eqn:Ha.
    + destruct (internal_action_enabled m a Ha) as [m' Hs]. rewrite Hs. simpl.
      apply IH. pose proof (internal_action_measure_S m a m' Ha Hs). lia.
    + unfold internal_action, quiescent in *.
      by destruct (effect_pending m), (dirty m).
Qed.

Lemma settle_rtc fuel m : rtc machine_step m (settle fuel m).
Proof.
  revert m. induction fuel as [|fuel IH]; intros m; [done|].
  rewrite settle_S. destruct (internal_action m) as [a|] eqn:Ha; [|done].
  destruct (internal_action_enabled m a Ha) as [m' Hs]. rewrite Hs. simpl.
  eapply rtc_l; [by econstructor|apply IH].
Qed.

Lemma dispatch_rtc a m : rtc machine_step m (dispatch a m).
Proof.
  unfold dispatch. destruct (step_fn a m) as [m'|] eqn:Hs; [|done].
  cbn [from_option]. eapply rtc_l; [by econstructor|apply settle_rtc].
Qed.

Lemma reachable_dispatch ts a m :
  reachable_from ts m → reachable_from ts (dispatch a m).
Proof. unfold reachable_from. intros Hm. etrans; [done|apply dispatch_rtc]. Qed.

Lemma settle_trace_length fuel m :
  (measure m ≤ fuel)%nat → length (settle_trace fuel m) = measure m.
Proof.
  revert m. induction fuel as [|fuel IH]; intros m Hm; [simpl; lia|].
  simpl. destruct (internal_action m) as [a|] eqn:Ha.
  - destruct (internal_action_enabled m a Ha) as [m' Hs]. rewrite Hs. simpl.
    pose proof (internal_action_measure_S m a m' Ha Hs). rewrite IH; lia.
  - unfold internal_action, measure in *.
    by destruct (effect_pending m), (dirty m).
Qed.

(** ** Rounds from a state where nothing is queued *)

Lemma quiescent_settled ts m :
  reachable_from ts m → quiescent m = true → m = settled (current m).
Proof.
  intros Hr Hq. destruct (reachable_machine_inv ts m Hr) as (Ha & _).
  destruct m as [c k [] []]; try done. simpl in *. by rewrite Ha.
Qed.

(** A click on a check box: render, effect, render. *)
Lemma dispatch_click_filter s k :
  let f := handleFilterChange (filters s) k in
  dispatch (ClickFilter k) (settled s) =
    settled (setFilteredTickets (select (tickets s) f) (setFilters f s)) ∧
  settle_trace 4 (mkMachine (setFilters f s) s true false)
    = [Render; RunEffect; Render].
Proof. by rounds. Qed.

(** A click on a currency button: one render, no effect. *)
Lemma dispatch_click_currency s c :
  c ≠ selectedCurrency s →
  dispatch (ClickCurrency c) (settled s) = settled (setSelectedCurrency c s) ∧
  settle_trace 4 (mkMachine (setSelectedCurrency c s) s true false) = [Render].
Proof.
  intros Hc. by rounds.
Qed.

Lemma dispatch_click_same_currency s :
  dispatch (ClickCurrency (selectedCurrency s)) (settled s) = settled s.
Proof. by rounds. Qed.

(** A new array of tickets: render, effect, render. *)
Lemma dispatch_set_tickets s ts :
  dispatch (SetTickets ts) (settled s) =
    settled (setFilteredTickets (select ts (filters s)) (setTickets ts s)).
Proof. by rounds. Qed.

(** The first rounds after mounting: effect, render. *)
Lemma settle_mount ts :
  settle 4 (mount ts) =
    settled (setFilteredTickets (select ts initialFilters) (initialState ts)).
Proof. done. Qed.

(** A click that arrives before the pending effect has run leads to the
    same machine state as the click after it. *)
Lemma dispatch_click_pending s k p :
  dispatch (ClickFilter k) (mkMachine s s false p)
  = dispatch (ClickFilter k) (settle 4 (mkMachine s s false p)).
Proof.
  destruct p; by rounds.
Qed.

Lemma filter_clicks_snoc evs a :
  filter_clicks (evs ++ [a]) =
    filter_clicks evs ++ match a with ClickFilter k => [k] | _ => [] end.
Proof. unfold filter_clicks. rewrite omap_app. by destruct a. Qed.

Lemma last_currency_snoc c evs a :
  last_currency c (evs ++ [a]) =
    match a with ClickCurrency c' => c' | _ => last_currency c evs end.
Proof. unfold last_currency. by rewrite foldl_app. Qed.

(** The machine after mounting and any list of user events. *)
Lemma dispatch_events ts evs :
  forallb user_event evs = true →
  foldl (λ m a, dispatch a m) (settle 4 (mount ts)) evs
  = settled (cells_after ts evs).
Proof.
  induction evs as [|a evs IH] using rev_ind; intros Hev; [done|].
  rewrite forallb_app in Hev. apply andb_prop in Hev as [Hevs Ha].
  rewrite foldl_app, IH by done. cbn [foldl].
  destruct a as [| |k|c|]; try done.
  - rewrite (proj1 (dispatch_click_filter _ k)).
    unfold cells_after, setFilteredTickets, setFilters.
    rewrite filter_clicks_snoc, last_currency_snoc. cbn.
    by rewrite run_snoc, length_app, Nat.add_1_r.
  - destruct (decide (c = selectedCurrency (cells_after ts evs))) as [->|Hc].
    + rewrite dispatch_click_same_currency. unfold cells_after.
      by rewrite filter_clicks_snoc, last_currency_snoc, !app_nil_r.
    + rewrite (proj1 (dispatch_click_currency _ c Hc)). unfold cells_after.
      by rewrite filter_clicks_snoc, last_currency_snoc, !app_nil_r.
Qed.

(** The selections of a reachable machine state are reachable selections
    of the handler. *)
Lemma reachable_filters_inv ts m :
  reachable_from ts m →
  Filters.inv (filters (current m)) = true ∧
  Filters.inv (filters (committed m)) = true.
Proof.
  apply (rtc_ind_r (λ m, Filters.inv (filters (current m)) = true ∧
                         Filters.inv (filters (committed m)) = true)); [done|].
  intros m1 m2 _ [a ? ? Hs] [IH1 IH2].
  destruct a; simpl in Hs; repeat case_match; simplify_eq; simpl;
    auto using handleFilterChange_inv.
Qed.

Lemma handleFilterChange_all_set f :
  Filters.inv f = true → Filters.all (Filters.stops f) = true →
  handleFilterChange f FilterType.all = f.
Proof. rewrite handleFilterChange_all. by filters_cases. Qed.

Lemma quiescent_filtered ts m :
  reachable_from ts m → quiescent m = true →
  committed m = current m ∧
  filteredTickets (committed m)
  = select (tickets (committed m)) (filters (committed m)).
Proof.
  intros Hr Hq. destruct (reachable_machine_inv ts m Hr) as (Ha & _ & _ & He).
  apply andb_prop in Hq as [Hd%negb_true_iff Hp%negb_true_iff].
  split; [by rewrite Ha|]. rewrite <- He by done. by rewrite Ha.
Qed.

Lemma measure_le_4 m : (measure m ≤ 4)%nat.
Proof.
  unfold measure. destruct (effect_pending m), (dirty m);
    try case_bool_decide; lia.
Qed.

End machine_facts.

(** ** The program: the machine over [filter_engine] *)

Section program.
Implicit Types (m : Machine) (ts : list Ticket) (k : FilterType) (c : string).

(** C2: after the first render on [ts] and any list of clicks on check boxes
    and currency buttons, each followed by React's rounds, nothing is queued
    and the screen shows: the selection that the handler computes from the
    clicks on check boxes in order, the tickets that selection lets through,
    and the currency of the last click on a currency button. *)
Theorem screen_after_events ts evs :
  forallb user_event evs = true →
  let m := foldl (λ m a, dispatch a m) (settle 4 (mount ts)) evs in
  let f := run initialFilters (filter_clicks evs) in
  quiescent m = true ∧
  tickets (committed m) = ts ∧
  filters (committed m) = f ∧
  filteredTickets (committed m) = filterTickets ts f ∧
  selectedCurrency (committed m) = last_currency defaultCurrency evs.
Proof. intros Hev. cbv zeta. by rewrite dispatch_events. Qed.

Lemma screen_after_events_witness :
  let evs := [ClickFilter FilterType.oneStop; ClickCurrency "USD";
              ClickFilter FilterType.twoStops] in
  let m := foldl (λ m a, dispatch a m)
                 (settle 4 (mount [sample 0 100; sample 1 200; sample 2 300])) evs in
  filteredTickets (committed m)
  = filterTickets [sample 0 100; sample 1 200; sample 2 300]
                  (run initialFilters (filter_clicks evs)).
Proof. intros evs m. apply (screen_after_events _ evs). reflexivity. Defined.

(** C5: in every machine state that events and rounds lead to, in any
    interleaving, once nothing is queued the screen shows the current cells
    and the list on it is the tickets filtered by the selection on it. *)
Theorem quiescent_shows_filtered ts m :
  reachable_from ts m → quiescent m = true →
  committed m = current m ∧
  filteredTickets (committed m)
  = filterTickets (tickets (committed m)) (filters (committed m)).
Proof. apply (@quiescent_filtered filter_engine). Qed.

Lemma quiescent_shows_filtered_witness :
  let m := settle 4 (mount [sample 0 100; sample 3 200]) in
  committed m = current m ∧
  filteredTickets (committed m)
  = filterTickets (tickets (committed m)) (filters (committed m)).
Proof.
  apply (quiescent_shows_filtered [sample 0 100; sample 3 200]);
    [apply settle_rtc|reflexivity].
Defined.

(** C11: from any machine state, React's rounds end: after at most four
    internal steps nothing is queued, the number of steps taken is [measure],
    and every one of them is a step of the machine. *)
Theorem settle_terminates m :
  quiescent (settle 4 m) = true ∧
  length (settle_trace 4 m) = measure m ∧
  (measure m ≤ 4)%nat ∧
  rtc machine_step m (settle 4 m).
Proof.
  pose proof (measure_le_4 m).
  split_and!; [by apply settle_measure|by apply settle_trace_length|done|
               apply settle_rtc].
Qed.

(** A click on a check box, with nothing queued, takes three internal
    steps (a render, the effect, a render) and ends with the selection of
    [handleFilterChange] and the tickets it lets through on the screen. *)
Theorem filter_click_rounds ts m k :
  reachable_from ts m → quiescent m = true →
  let f := handleFilterChange (filters (committed m)) k in
  let clicked := mkMachine (setFilters f (current m)) (committed m) true false in
  step_fn (ClickFilter k) m = Some clicked ∧
  settle_trace 4 clicked = [Render; RunEffect; Render] ∧
  dispatch (ClickFilter k) m
  = settled (setFilteredTickets (filterTickets (tickets (current m)) f)
                                (setFilters f (current m))).
Proof.
  intros Hr Hq. rewrite (quiescent_settled ts m Hr Hq). cbn [current committed].
  destruct (dispatch_click_filter (current m) k) as [Hd Ht].
  by split_and!.
Qed.

Lemma filter_click_rounds_witness :
  dispatch (ClickFilter FilterType.nonStop)
           (settle 4 (mount [sample 0 100; sample 3 200]))
  = settled (mkState [sample 0 100; sample 3 200] 0
                     (filterTickets [sample 0 100; sample 3 200] (only FilterType.nonStop))
                     (only FilterType.nonStop) 1 "RUB").
Proof.
  apply (filter_click_rounds [sample 0 100; sample 3 200]);
    [apply settle_rtc|reflexivity].
Defined.

(** C9: a click on a currency button never runs the effect: the filtered
    list and the selection on the screen stay as they are, the currency on
    the screen is the clicked one, and nothing is left queued. *)
Theorem currency_click_keeps_list ts m c :
  reachable_from ts m → quiescent m = true →
  let m' := dispatch (ClickCurrency c) m in
  (∀ m1, step_fn (ClickCurrency c) m = Some m1 → RunEffect ∉ settle_trace 4 m1) ∧
  filteredTickets (committed m') = filteredTickets (committed m) ∧
  filters (committed m') = filters (committed m) ∧
  filters_id (committed m') = filters_id (committed m) ∧
  selectedCurrency (committed m') = c ∧
  quiescent m' = true.
Proof.
  intros Hr Hq. rewrite (quiescent_settled ts m Hr Hq). cbn [current committed].
  destruct (decide (c = selectedCurrency (current m))) as [->|Hc].
  - rewrite dispatch_click_same_currency. split_and!; try done.
    intros m1. rounds. intros [= <-]. rounds. set_solver.
  - destruct (dispatch_click_currency (current m) c Hc) as [-> Ht].
    split_and!; try done.
    intros m1. rounds. intros [= <-]. rounds. set_solver.
Qed.

Lemma currency_click_keeps_list_witness :
  filteredTickets (committed (dispatch (ClickCurrency "EUR")
                                       (settle 4 (mount [sample 0 100]))))
  = filteredTickets (committed (settle 4 (mount [sample 0 100]))).
Proof.
  apply (currency_click_keeps_list [sample 0 100]);
    [apply settle_rtc|reflexivity].
Defined.

(** Between the render that follows a click on a check box and the
    effect of that render, the committed output holds the new selection
    with the list of the previous one, and the effect is pending. *)
Theorem stale_commit_after_click ts m k m1 m2 :
  reachable_from ts m → quiescent m = true →
  step_fn (ClickFilter k) m = Some m1 → step_fn Render m1 = Some m2 →
  filters (committed m2) = handleFilterChange (filters (committed m)) k ∧
  filteredTickets (committed m2)
  = filterTickets (tickets (committed m)) (filters (committed m)) ∧
  effect_pending m2 = true.
Proof.
  intros Hr Hq. destruct (quiescent_filtered ts m Hr Hq) as [_ Hf].
  revert Hf. rewrite (quiescent_settled ts m Hr Hq). cbn [current committed].
  intros Hf. rounds. intros [= <-]. rounds. intros [= <-]. by rounds.
Qed.

Lemma stale_commit_after_click_witness :
  let m := settle 4 (mount [sample 0 100; sample 1 200]) in
  let m1 := mkMachine (setFilters (only FilterType.oneStop) (current m))
                      (committed m) true false in
  filteredTickets (committed (render m1))
  = filterTickets (tickets (committed m)) (filters (committed m)).
Proof.
  intros m m1.
  apply (stale_commit_after_click [sample 0 100; sample 1 200] m
           FilterType.oneStop m1 (render m1));
    [apply settle_rtc|reflexivity..].
Defined.



(** A click on the check box [all] while it is set leaves the selection
    and the list on the screen as they are, yet passes a new object to
    [setFilters], so that the effect runs again. *)
Theorem reselect_all_same_screen ts m :
  reachable_from ts m → quiescent m = true →
  Filters.all (Filters.stops (filters (committed m))) = true →
  let m' := dispatch (ClickFilter FilterType.all) m in
  filters (committed m') = filters (committed m) ∧
  filteredTickets (committed m') = filteredTickets (committed m) ∧
  selectedCurrency (committed m') = selectedCurrency (committed m) ∧
  filters_id (committed m') = S (filters_id (committed m)).
Proof.
  intros Hr Hq Hall. destruct (quiescent_filtered ts m Hr Hq) as [_ Hf].
  destruct (reachable_filters_inv ts m Hr) as [_ Hinv].
  revert Hf Hall Hinv. rewrite (quiescent_settled ts m Hr Hq).
  cbn [current committed]. intros Hf Hall Hinv.
  rewrite (proj1 (dispatch_click_filter _ _)), handleFilterChange_all_set by done.
  by split_and!.
Qed.

Lemma reselect_all_same_screen_witness :
  let m := settle 4 (mount [sample 0 100]) in
  filters_id (committed (dispatch (ClickFilter FilterType.all) m))
  = S (filters_id (committed m)).
Proof.
  apply (reselect_all_same_screen [sample 0 100]);
    [apply settle_rtc|reflexivity..].
Defined.

(** When the parent passes another array of tickets, the rounds end
    with that array filtered by the selection on the screen. *)
Theorem set_tickets_refilters ts m ts' :
  reachable_from ts m → quiescent m = true →
  dispatch (SetTickets ts') m
  = settled (setFilteredTickets (filterTickets ts' (filters (current m)))
                                (setTickets ts' (current m))).
Proof.
  intros Hr Hq. rewrite (quiescent_settled ts m Hr Hq).
  exact (dispatch_set_tickets (current m) ts').
Qed.

Lemma set_tickets_refilters_witness :
  dispatch (SetTickets [sample 1 5]) (settle 4 (mount []))
  = settled (mkState [sample 1 5] 1 [sample 1 5] initialFilters 0 "RUB").
Proof.
  apply (set_tickets_refilters []); [apply settle_rtc|reflexivity].
Defined.

End program.
