(* ===== verification/Liveness.v ===== *)
(** * Liveness: React's rounds always end with the click on the screen

    The rounds of [Component] (the pending effect first, then the queued
    render) as a relation [internal_step] on machine states, studied with
    stdpp's notions for rewriting relations:

    - the relation is deterministic, and every step lowers [measure] by
      one, so that every run is finite ([sn]) and has at most four steps;
    - its normal forms ([nf]) are the machine states with nothing queued;
    - [settle 4] computes the normal form, which every run from a machine
      state reaches however far it has got;
    - hence an event is always shown in the end: the rounds that follow a
      click cannot go on for ever, cannot get stuck before the screen is
      up to date, and cannot end in another screen than the one that
      [dispatch] computes. *)

From S2P Require Import Prelude Ticket Filters FilterEngine Component.
From stdpp Require Import relations.

(** ** Definitions *)

Section rounds.
Context `{!FilterEngine}.

(** The machine state after the round that is due, if one is. *)
Definition next (m : Machine) : option Machine :=
  internal_action m ≫= λ a, step_fn a m.

(** One round of React: the internal action that is enabled is taken. *)
Definition internal_step (m m' : Machine) : Prop := next m = Some m'.

End rounds.

(** ** One round *)

Section rounds_facts.
Context `{!FilterEngine}.
Implicit Types (m : Machine) (a : Action) (n : nat).

(** The rounds are the two internal actions of the machine. *)
Lemma internal_step_action m m' :
  internal_step m m' ↔
  step_fn RunEffect m = Some m' ∨ step_fn Render m = Some m'.
Proof.
  unfold internal_step, next, internal_action.
  destruct (effect_pending m) eqn:Hp, (dirty m) eqn:Hd; simpl;
    rewrite ?Hp, ?Hd; simpl; intuition congruence.
Qed.

Lemma internal_step_machine_step m m' : internal_step m m' → machine_step m m'.
Proof. intros [?|?]%internal_step_action; by econstructor. Qed.

Lemma internal_step_det : deterministic internal_step.
Proof. unfold internal_step. intros m m1 m2 H1 H2. congruence. Qed.

Lemma internal_step_measure m m' :
  internal_step m m' → measure m = S (measure m').
Proof.
  unfold internal_step, next. destruct (internal_action m) as [a|] eqn:Ha; [|done].
  apply internal_action_measure_S, Ha.
Qed.

Lemma next_quiescent m : next m = None ↔ quiescent m = true.
Proof.
  unfold next, internal_action, quiescent.
  destruct (effect_pending m) eqn:Hp, (dirty m) eqn:Hd; simpl;
    rewrite ?Hp, ?Hd; simpl; intuition congruence.
Qed.

(** The normal forms are the states with nothing queued. *)
Lemma nf_quiescent m : nf internal_step m ↔ quiescent m = true.
Proof.
  rewrite <- next_quiescent. unfold nf, red, internal_step.
  destruct (next m); naive_solver.
Qed.

#[export] Instance red_internal_step_dec m : Decision (red internal_step m).
Proof.
  refine (cast_if (decide (is_Some (next m))));
    unfold red, internal_step, is_Some in *; naive_solver.
Defined.

(** ** Runs *)

Lemma nsteps_internal_measure n m m' :
  nsteps internal_step n m m' → measure m = (n + measure m')%nat.
Proof.
  induction 1 as [|n m1 m2 m3 Hs _ IH]; [done|].
  apply internal_step_measure in Hs. lia.
Qed.

(** No run of rounds goes on for ever. *)
Lemma internal_step_sn m : sn internal_step m.
Proof.
  remember (measure m) as n eqn:Hn. revert m Hn.
  induction n as [|n IH]; intros m Hn; constructor; intros m' Hs;
    apply internal_step_measure in Hs; [lia|]. apply IH. lia.
Qed.

Lemma settle_next fuel m m' :
  next m = Some m' → settle (S fuel) m = settle fuel m'.
Proof.
  unfold next. rewrite settle_S. destruct (internal_action m); [|done].
  simpl. by intros ->.
Qed.

(** [settle] takes [measure] rounds when the fuel allows it. *)
Lemma settle_nsteps fuel m :
  (measure m ≤ fuel)%nat → nsteps internal_step (measure m) m (settle fuel m).
Proof.
  revert m. induction fuel as [|fuel IH]; intros m Hm.
  - replace (measure m) with 0%nat by lia. constructor.
  - destruct (next m) as [m'|] eqn:Hn.
    + pose proof (internal_step_measure m m' Hn) as Hs.
      rewrite Hs, (settle_next _ _ _ Hn). econstructor; [done|]. apply IH. lia.
    + apply next_quiescent in Hn. rewrite settle_quiescent_id by done.
      unfold quiescent, measure in *.
      destruct (effect_pending m), (dirty m); try done. constructor.
Qed.

(** The result of [settle] on enough fuel: the normal form. *)
Lemma settle_4_step m m' : internal_step m m' → settle 4 m = settle 4 m'.
Proof.
  intros Hs. pose proof (internal_step_measure m m' Hs) as Hm.
  pose proof (measure_le_4 m).
  apply (confluent_rtc_nf (R:=internal_step) m);
    [apply deterministic_confluent, internal_step_det
    |eapply rtc_nsteps_2, settle_nsteps; lia
    |apply nf_quiescent, settle_measure; lia
    |eapply rtc_l; [done|]; eapply rtc_nsteps_2, settle_nsteps; lia
    |apply nf_quiescent, settle_measure; lia].
Qed.

Lemma settle_4_rtc m m' : rtc internal_step m m' → settle 4 m = settle 4 m'.
Proof.
  induction 1 as [|m1 m2 m3 Hs _ IH]; [done|]. by rewrite (settle_4_step m1 m2).
Qed.

(** However far a run has got, it goes on to the result of [settle]. *)
Lemma rounds_continue m m' :
  rtc internal_step m m' → rtc internal_step m' (settle 4 m).
Proof.
  intros ->%settle_4_rtc. eapply rtc_nsteps_2, settle_nsteps, measure_le_4.
Qed.

Lemma rounds_end m m' :
  rtc internal_step m m' → nf internal_step m' → m' = settle 4 m.
Proof.
  intros ->%settle_4_rtc ?%nf_quiescent. by rewrite settle_quiescent_id.
Qed.

(** The bound of four is reached: a click on a check box that arrives
    before the first effect has run needs the effect, a render, the effect
    again and a render; three rounds leave a render queued. *)
Lemma four_rounds_needed (ts : list Ticket) (k : FilterType) :
  ∃ m, reachable_from ts m ∧ measure m = 4%nat ∧ quiescent (settle 3 m) = false.
Proof.
  exists (mkMachine (setFilters (handleFilterChange initialFilters k) (initialState ts))
                    (initialState ts) true true).
  split_and!; [|by rounds..].
  apply rtc_once. by apply (step_action (ClickFilter k)).
Qed.

End rounds_facts.

(** ** The program *)

Section program.
Implicit Types (m : Machine) (ts : list Ticket) (k : FilterType).

(** C15: React's rounds converge from every machine state: no run of rounds
    is infinite, a run has at most [measure m], hence at most four, steps,
    the states where no round is due are those with nothing queued, and
    every run, however far it has got, goes on to the one state
    [settle 4 m], the only state in which a run can end. *)
Theorem rounds_converge m :
  sn internal_step m ∧
  (∀ n m', nsteps internal_step n m m' →
           (n ≤ measure m ≤ 4)%nat ∧ rtc internal_step m' (settle 4 m)) ∧
  (∀ m', rtc internal_step m m' →
         (nf internal_step m' ↔ quiescent m' = true) ∧
         (nf internal_step m' → m' = settle 4 m)).
Proof.
  split_and!; [apply internal_step_sn|..].
  - intros n m' Hn. pose proof (nsteps_internal_measure n m m' Hn).
    pose proof (measure_le_4 m). split; [lia|].
    eapply rounds_continue, rtc_nsteps_2, Hn.
  - intros m' Hr. split; [apply nf_quiescent|by apply rounds_end].
Qed.

(** C13: a click on a check box is shown in the end.  After the click,
    taken in any reachable state that accepts it, every run of rounds,
    however far it has got, goes on to a reachable state with nothing
    queued whose screen holds the selection of [handleFilterChange], the
    tickets that selection lets through, and the currency as it was. *)
Theorem click_eventually_shown ts m k m1 m2 :
  reachable_from ts m → step_fn (ClickFilter k) m = Some m1 →
  rtc internal_step m1 m2 →
  let f := handleFilterChange (filters (committed m)) k in
  ∃ m3, rtc internal_step m2 m3 ∧ reachable_from ts m3 ∧ nf internal_step m3 ∧
        filters (committed m3) = f ∧
        filteredTickets (committed m3) = filterTickets (tickets (committed m)) f ∧
        selectedCurrency (committed m3) = selectedCurrency (committed m).
Proof.
  intros Hr Hs Hrun f. exists (settle 4 m1).
  split; [by apply rounds_continue|].
  split.
  { unfold reachable_from. etrans; [exact Hr|].
    eapply rtc_l; [by econstructor|]. apply settle_rtc. }
  split; [apply nf_quiescent, settle_measure, measure_le_4|].
  destruct (reachable_machine_inv ts m Hr) as (Ha & _).
  destruct m as [c s d p]. simpl in Hs. destruct d; [done|].
  simpl in Ha. rewrite Ha in Hs by done. simplify_eq. subst f. simpl.
  destruct p; by rounds.
Qed.

Lemma click_eventually_shown_witness :
  let ts := [sample 0 100; sample 1 200] in
  let m := settle 4 (mount ts) in
  let m1 := mkMachine (setFilters (only FilterType.oneStop) (current m))
                      (committed m) true false in
  ∃ m3, rtc internal_step (render m1) m3 ∧ reachable_from ts m3 ∧
        nf internal_step m3 ∧
        filters (committed m3) = only FilterType.oneStop ∧
        filteredTickets (committed m3) = filterTickets ts (only FilterType.oneStop) ∧
        selectedCurrency (committed m3) = "RUB".
Proof.
  intros ts m m1.
  apply (click_eventually_shown ts m FilterType.oneStop m1 (render m1));
    [apply settle_rtc|reflexivity|by apply rtc_once].
Defined.

End program.
