(* ===== verification/View.v ===== *)
(** * View: the tree that [TicketList] returns

    The JSX of src/src/components/TicketList.tsx (lines 102-208) as data: a
    [Node] is a text or an element with its attributes and children, in the
    order of the source.  The elements of the widget library ([Button],
    [Checkbox], [Space], [Card]) are kept as elements with their names; an
    event handler is the [Action] of the component's machine that the
    handler raises.

    - [carrierImages] and [carrier_image]: the table of the images and the
      read [carrierImages[ticket.carrier]];
    - [stops_label]: the text under the carrier (lines 185-189), with the
      stop count printed by [to_string] as a template literal does;
    - [ticket_card]: one element of [filteredTickets.map];
    - [view]: the whole tree, a function of the state cells of a render;
    - [handlers], [texts], [ui_step]: the events the tree can raise, the
      texts it shows, and the steps of the machine that the tree allows. *)

From S2P Require Import Prelude Digits JsNumber JsObject Ticket Filters FilterEngine Price Component.
From stdpp Require Import gmap relations.
#[local] Open Scope Z_scope.

(** ** Definitions *)

(** The value of [carrierImages[key]]: the address of an image, a property
    inherited from [Object.prototype], or [undefined]. *)
Inductive Src :=
  | SrcUrl (url : string)
  | SrcInherited (key : string)
  | SrcUndefined.

Inductive Attr :=
  | className (v : string)
  | key (v : nat)
  | type (v : string)
  | wrap
  | checked (v : bool)
  | onClick (a : Action)
  | onChange (a : Action)
  | src (v : Src)
  | alt (v : string).

#[local] Set Warnings "-register-all".

Inductive Node :=
  | Text (s : string)
  | Elem (tag : string) (attrs : list Attr) (children : list Node).

(** [carrierImages]: the modules that the bundler resolves, by their paths. *)
Definition carrierImages : gmap string string :=
  {[ "TK" := "./svg/TK.svg"; "S7" := "./svg/S7.svg"; "SU" := "./svg/SU.svg";
     "BA" := "./svg/BA.svg"; "Arrow" := "./svg/Arrow.svg" ]}.

(** [carrierImages[name]] *)
Definition carrier_image (name : string) : Src :=
  match carrierImages !! name with
  | Some url => SrcUrl url
  | None =>
      if bool_decide (name ∈ object_prototype_keys) then SrcInherited name
      else SrcUndefined
  end.

(** The text that tells the number of stops (lines 185-189). *)
Definition stops_label (ticket : Ticket) : string :=
  if strict_eq (Ticket.stops ticket) (of_Z 0) then "Без пересадок"
  else to_string (Ticket.stops ticket) +:+ " " +:+
       (if strict_eq (Ticket.stops ticket) (of_Z 1) then "пересадка" else "пересадки").

(** [<Button onClick={() => handleCurrencyChange(code)}>code</Button>] *)
Definition currency_button (code : string) : Node :=
  Elem "Button" [onClick (ClickCurrency code)] [Text code].

(** The three buttons (lines 114-118). *)
Definition currency_buttons : Node :=
  Elem "Space" [wrap]
       [currency_button "RUB"; currency_button "USD"; currency_button "EUR"].

(** One check box (lines 121-150). *)
Definition filter_checkbox (value : bool) (filterType : FilterType) (label : string) : Node :=
  Elem "Checkbox" [checked value; onChange (ClickFilter filterType)] [Text label].

(** The block of check boxes (lines 119-151). *)
Definition filter_checkboxes (filters : Filters) : Node :=
  Elem "div" [className "tickets__filters"]
       [ Text "Количество пересадок";
         filter_checkbox (all (Filters.stops filters)) FilterType.all "Все";
         filter_checkbox (nonStop (Filters.stops filters)) FilterType.nonStop "Без пересадок";
         filter_checkbox (oneStop (Filters.stops filters)) FilterType.oneStop "1 пересадка";
         filter_checkbox (twoStops (Filters.stops filters)) FilterType.twoStops "2 пересадки";
         filter_checkbox (threeStops (Filters.stops filters)) FilterType.threeStops "3 пересадки" ].

(** The button of a card (lines 169-172). *)
Definition buy_button (ticket : Ticket) (selectedCurrency : string) : Node :=
  Elem "Button" [type "primary"; className "tickets__buy"]
       [ Text "Купить "; Text (convertCurrency (price ticket) selectedCurrency);
         Text " "; Text selectedCurrency ].

(** A column with a time, a place and a date (lines 175-181, 194-200). *)
Definition time_column (time code name date : string) : Node :=
  Elem "div" []
       [ Elem "p" [className "tickets__times"] [Text time];
         Elem "p" [] [Text code; Text ","; Text name];
         Elem "p" [] [Text date] ].

(** The element that [filteredTickets.map] gives for a ticket and its index
    (lines 156-204). *)
Definition ticket_card (selectedCurrency : string) (index : nat) (ticket : Ticket) : Node :=
  Elem "div" [key index; className "tickets__list"]
    [ Elem "Card" []
      [ Elem "div" [className "tickets__info"]
        [ Elem "div" [className "tickets__price"]
            [ Elem "img" [src (carrier_image (carrier ticket)); alt (carrier ticket)] [];
              buy_button ticket selectedCurrency ];
          Elem "div" [className "tickets__time"]
            [ time_column (departure_time ticket) (origin ticket)
                          (origin_name ticket) (departure_date ticket);
              Elem "div" []
                [ Elem "div" []
                    [ Elem "p" [] [Text (stops_label ticket)];
                      Elem "img" [src (carrier_image "Arrow"); alt "Arrow"] [] ] ];
              time_column (arrival_time ticket) (destination ticket)
                          (destination_name ticket) (arrival_date ticket) ] ] ] ].

(** The list of cards (lines 154-206). *)
Definition ticket_group (filteredTickets : list Ticket) (selectedCurrency : string) : Node :=
  Elem "div" [className "tickets__group"]
       (imap (ticket_card selectedCurrency) filteredTickets).

(** What [TicketList] returns in a render with the cells [s]. *)
Definition view (s : State) : Node :=
  Elem "div" [className "tickets"]
    [ Elem "div" []
        [ Elem "p" [] [Text "Валюта"];
          currency_buttons;
          filter_checkboxes (filters s) ];
      ticket_group (filteredTickets s) (selectedCurrency s) ].

(** The events that the attributes of an element raise. *)
Definition attr_handlers (attrs : list Attr) : list Action :=
  omap (λ a, match a with onClick e | onChange e => Some e | _ => None end) attrs.

(** The events that a tree can raise, in document order. *)
Fixpoint handlers (n : Node) : list Action :=
  match n with
  | Text _ => []
  | Elem _ attrs children =>
      attr_handlers attrs ++ flat_map handlers children
  end.

(** The texts of a tree, in document order. *)
Fixpoint texts (n : Node) : list string :=
  match n with
  | Text s => [s]
  | Elem _ _ children => flat_map texts children
  end.

(** The text content of a tree. *)
Definition text_content (n : Node) : string := foldr String.append "" (texts n).

(** The [key] of an element, if it has one. *)
Definition key_of (n : Node) : option nat :=
  match n with
  | Elem _ attrs _ => head (omap (λ a, match a with key k => Some k | _ => None end) attrs)
  | Text _ => None
  end.

Definition children_of (n : Node) : list Node :=
  match n with Elem _ _ children => children | Text _ => [] end.

(** The check boxes of a tree with their state, in document order. *)
Fixpoint checkboxes (n : Node) : list (Action * bool) :=
  match n with
  | Text _ => []
  | Elem tag attrs children =>
      match attrs with
      | [checked v; onChange e] => [(e, v)]
      | _ => []
      end ++ flat_map checkboxes children
  end.

(** Whether an element has the class [cls]. *)
Definition has_class (cls : string) (attrs : list Attr) : bool :=
  existsb (λ a, match a with className v => String.eqb v cls | _ => false end) attrs.

(** The elements of a tree that have the class [cls], in document order. *)
Fixpoint find_class (cls : string) (n : Node) : list Node :=
  match n with
  | Text _ => []
  | Elem tag attrs children =>
      (if has_class cls attrs then [n] else []) ++ flat_map (find_class cls) children
  end.

(** The elements of a tree with the tag [name], in document order. *)
Fixpoint find_tag (name : string) (n : Node) : list Node :=
  match n with
  | Text _ => []
  | Elem tag attrs children =>
      (if String.eqb tag name then [n] else []) ++ flat_map (find_tag name) children
  end.

(** The currencies that have a button. *)
Definition currencies : list string := ["RUB"; "USD"; "EUR"].

(** The check boxes, in the order of the tree. *)
Definition filter_types : list FilterType :=
  [FilterType.all; FilterType.nonStop; FilterType.oneStop;
   FilterType.twoStops; FilterType.threeStops].

(** What holds of the cells in every state that a user reaches. *)
Definition ui_inv (ts : list Ticket) (m : Machine) : Prop :=
  selectedCurrency (current m) ∈ currencies ∧
  selectedCurrency (committed m) ∈ currencies ∧
  tickets (current m) = ts ∧ tickets (committed m) = ts ∧
  tickets_id (current m) = 0%nat ∧ tickets_id (committed m) = 0%nat.

Section ui.
Context `{!FilterEngine}.

(** A step of the machine that the screen allows: a round of React, or an
    event that an element of the committed tree raises. *)
Inductive ui_step : Machine → Machine → Prop :=
  | ui_internal a m m' :
      internal_action m = Some a → step_fn a m = Some m' → ui_step m m'
  | ui_event a m m' :
      a ∈ handlers (view (committed m)) → step_fn a m = Some m' → ui_step m m'.

(** The machine states that a user reaches from the first render. *)
Definition ui_reachable (ts : list Ticket) (m : Machine) : Prop :=
  rtc ui_step (mount ts) m.

End ui.

(** ** The events and the check boxes of the tree *)

Lemma flat_map_imap {A B C} (f : nat → A → B) (g : B → list C)
    (h : nat → A → list C) (l : list A) :
  (∀ i x, g (f i x) = h i x) → flat_map g (imap f l) = mjoin (imap h l).
Proof.
  revert f h. induction l as [|x l IH]; intros f h Hf; [done|].
  simpl. rewrite Hf. f_equal. apply IH. intros i y. apply Hf.
Qed.

Lemma mjoin_imap_nil {A C} (l : list A) : mjoin (imap (λ _ _, @nil C) l) = [].
Proof. induction l as [|x l IH]; [done|]. simpl. by rewrite imap_ext with (g := λ _ _, []). Qed.

Lemma mjoin_imap_singleton {A C} (h : nat → A → C) (l : list A) :
  mjoin (imap (λ i x, [h i x]) l) = imap h l.
Proof.
  revert h. induction l as [|x l IH]; intros h; [done|].
  simpl. f_equal. apply (IH (h ∘ S)).
Qed.

Lemma mjoin_imap_const {A C} (h : A → list C) (l : list A) :
  mjoin (imap (λ _, h) l) = flat_map h l.
Proof. induction l as [|x l IH]; [done|]. simpl. by rewrite <- IH. Qed.

Lemma handlers_ticket_group fts cur : handlers (ticket_group fts cur) = [].
Proof.
  simpl. rewrite (flat_map_imap _ _ (λ _ _, [])) by done. apply mjoin_imap_nil.
Qed.

Lemma checkboxes_ticket_group fts cur : checkboxes (ticket_group fts cur) = [].
Proof.
  simpl. rewrite (flat_map_imap _ _ (λ _ _, [])) by done. apply mjoin_imap_nil.
Qed.

Lemma handlers_view s :
  handlers (view s) = (ClickCurrency <$> currencies) ++ (ClickFilter <$> filter_types).
Proof.
  unfold view. cbn [handlers flat_map attr_handlers omap].
  rewrite handlers_ticket_group. done.
Qed.

Lemma checkboxes_view s :
  checkboxes (view s) =
    (λ k, (ClickFilter k, get_flag (Filters.stops (filters s)) k)) <$> filter_types.
Proof.
  unfold view. cbn [checkboxes flat_map]. rewrite checkboxes_ticket_group. done.
Qed.

(** ** The cards *)

Lemma find_class_cards fts cur :
  find_class "tickets__list" (ticket_group fts cur) = imap (ticket_card cur) fts.
Proof.
  simpl. rewrite (flat_map_imap _ _ (λ i t, [ticket_card cur i t])) by done.
  apply mjoin_imap_singleton.
Qed.

Lemma find_class_buy fts cur :
  find_class "tickets__buy" (ticket_group fts cur) = (λ t, buy_button t cur) <$> fts.
Proof.
  simpl. rewrite (flat_map_imap _ _ (λ _ t, [buy_button t cur])) by done.
  rewrite mjoin_imap_singleton. apply imap_const.
Qed.

Lemma text_content_buy_button t cur :
  text_content (buy_button t cur) = buy_label t cur.
Proof.
  unfold text_content, buy_label. simpl.
  by rewrite !string_app_cons, !string_app_nil_l, string_app_nil_r.
Qed.

(** The cards and the texts of the buy buttons of the whole tree. *)
Lemma cards_view s :
  find_class "tickets__list" (view s)
  = imap (ticket_card (selectedCurrency s)) (filteredTickets s).
Proof. unfold view. cbn -[ticket_group]. rewrite app_nil_r. apply find_class_cards. Qed.

Lemma buy_buttons_view s :
  text_content <$> find_class "tickets__buy" (view s)
  = (λ t, buy_label t (selectedCurrency s)) <$> filteredTickets s.
Proof.
  unfold view. cbn [find_class has_class existsb flat_map app filter_checkboxes].
  cbn -[ticket_group text_content]. rewrite app_nil_r, find_class_buy.
  rewrite <- list_fmap_compose. apply list_fmap_ext. intros _ t _.
  apply text_content_buy_button.
Qed.

Lemma key_of_ticket_cards cur fts :
  key_of <$> imap (ticket_card cur) fts = Some <$> seq 0 (length fts).
Proof. rewrite fmap_imap. apply (imap_seq_0 fts Some). Qed.

(** ** The stop-count label *)

Lemma stops_label_of_Z t k :
  Ticket.stops t = of_Z k → 0 ≤ k < 2 ^ prec →
  stops_label t =
    if decide (k = 0) then "Без пересадок"
    else digits k +:+ " " +:+ (if decide (k = 1) then "пересадка" else "пересадки").
Proof.
  intros Ht Hk. unfold stops_label. rewrite Ht.
  rewrite !strict_eq_of_Z, to_string_of_Z by (unfold prec in *; lia).
  rewrite (proj2 (Z.ltb_ge k 0)), Z.abs_eq, string_app_nil_l by lia.
  by repeat case_decide; repeat case_bool_decide.
Qed.

(** ** What a user can reach *)

Section ui_facts.
Context `{!FilterEngine}.

Lemma ui_step_machine_step m m' : ui_step m m' → machine_step m m'.
Proof. intros [a ? ? _ Hs|a ? ? _ Hs]; by econstructor. Qed.

Lemma ui_reachable_reachable ts m : ui_reachable ts m → reachable_from ts m.
Proof. apply rtc_subrel. intros ? ?. apply ui_step_machine_step. Qed.

Lemma ui_inv_mount ts : ui_inv ts (mount ts).
Proof. unfold ui_inv, currencies. simpl. set_solver. Qed.

Lemma elem_of_handlers_view s a :
  a ∈ handlers (view s) ↔
    (∃ c, a = ClickCurrency c ∧ c ∈ currencies) ∨ (∃ k, a = ClickFilter k).
Proof.
  rewrite handlers_view, elem_of_app, !list_elem_of_fmap. split.
  - intros [(c & -> & Hc)|(k & -> & _)]; eauto.
  - intros [(c & -> & Hc)|(k & ->)]; [eauto|]. right. exists k. split; [done|].
    unfold filter_types. destruct k; set_solver.
Qed.

Lemma ui_step_inv ts m m' : ui_inv ts m → ui_step m m' → ui_inv ts m'.
Proof.
  intros Hinv Hstep. inversion Hstep as [a ? ? Ha Hs|a ? ? Ha Hs]; subst.
  - destruct Hinv as (Hc1 & Hc2 & Ht1 & Ht2 & Hi1 & Hi2). unfold internal_action in Ha.
    destruct (effect_pending m) eqn:Hp, (dirty m) eqn:Hd; simplify_eq/=;
      rewrite ?Hp, ?Hd in Hs; simplify_eq/=; by split_and!.
  - destruct Hinv as (Hc1 & Hc2 & Ht1 & Ht2 & Hi1 & Hi2).
    apply elem_of_handlers_view in Ha as [(c & -> & Hc)|(k & ->)];
      simpl in Hs; repeat case_match; simplify_eq/=; by split_and!.
Qed.

Lemma ui_reachable_inv ts m : ui_reachable ts m → ui_inv ts m.
Proof.
  apply (rtc_ind_r (λ m, ui_inv ts m)); [apply ui_inv_mount|].
  intros m1 m2 _ Hs IH. by eapply ui_step_inv.
Qed.

End ui_facts.

Lemma currencies_in_table c : c ∈ currencies → is_Some (exchangeRates !! c).
Proof.
  unfold currencies. rewrite !elem_of_cons, elem_of_nil.
  intros [->|[->|[->|[]]]]; by rewrite lookup_exchangeRates.
Qed.

Lemma rate_of_currencies c :
  c ∈ currencies →
  rate_of exchangeRates c ∈ [of_Z 1; of_decimal 1 2; of_decimal 95 4].
Proof.
  destruct rate_of_table as (H1 & H2 & H3). intros Hc.
  unfold currencies in Hc. rewrite !elem_of_cons, elem_of_nil in Hc.
  destruct Hc as [->|[->|[->|[]]]]; rewrite ?H1, ?H2, ?H3;
    [|apply list_elem_of_further|do 2 apply list_elem_of_further];
    apply list_elem_of_here.
Qed.

(** ** The screen *)

Section screen.
Implicit Types (m : Machine) (ts : list Ticket) (s : State).

(** C19: whatever a user does with the buttons and check boxes of the tree,
    in any interleaving with React's rounds, the currency on the screen is
    one of the three that have a button, its rate is read from the table
    (never the fallback, never a property of [Object.prototype]), and the
    prop [tickets] is the list the component was mounted with. *)
Theorem ui_currency_has_rate ts m :
  ui_reachable ts m →
  reachable_from ts m ∧
  tickets (committed m) = ts ∧
  selectedCurrency (committed m) ∈ currencies ∧
  is_Some (exchangeRates !! selectedCurrency (committed m)) ∧
  rate_of exchangeRates (selectedCurrency (committed m))
    ∈ [of_Z 1; of_decimal 1 2; of_decimal 95 4].
Proof.
  intros Hr. destruct (ui_reachable_inv ts m Hr) as (_ & Hc & _ & Ht & _).
  split_and!; [by apply ui_reachable_reachable|done|done|
               by apply currencies_in_table|by apply rate_of_currencies].
Qed.

Lemma ui_currency_has_rate_witness :
  let m := dispatch (ClickCurrency "EUR") (settle 4 (mount [sample 1 100])) in
  selectedCurrency (committed m) ∈ currencies.
Proof.
  apply (ui_currency_has_rate [sample 1 100]).
  eapply rtc_r; [eapply rtc_r; [eapply rtc_r; [eapply rtc_l; [|apply rtc_refl]|]|]|].
  - by eapply (ui_internal RunEffect).
  - by eapply (ui_internal Render).
  - eapply (ui_event (ClickCurrency "EUR")); [|done].
    apply elem_of_handlers_view. left. eexists. split; [done|].
    unfold currencies. set_solver.
  - by eapply (ui_internal Render).
Defined.

(** C17: after the first render on [ts] and any list of clicks, the check
    boxes on the screen show the flags of the selection that the handler
    computes from the clicks, each raising the click on its own flag, and
    the buy buttons read, in order, the price of each ticket that the
    selection lets through, converted to the currency clicked last. *)
Theorem screen_shows_selection_and_prices ts evs :
  forallb user_event evs = true →
  let m := foldl (λ m a, dispatch a m) (settle 4 (mount ts)) evs in
  let f := run initialFilters (filter_clicks evs) in
  let cur := last_currency defaultCurrency evs in
  checkboxes (view (committed m))
    = (λ k, (ClickFilter k, get_flag (Filters.stops f) k)) <$> filter_types ∧
  text_content <$> find_class "tickets__buy" (view (committed m))
    = (λ t, buy_label t cur) <$> filterTickets ts f.
Proof.
  intros Hev. cbv zeta. rewrite dispatch_events by done. split.
  - apply checkboxes_view.
  - apply buy_buttons_view.
Qed.

Lemma screen_shows_selection_and_prices_witness :
  let evs := [ClickFilter FilterType.oneStop; ClickCurrency "USD"] in
  let m := foldl (λ m a, dispatch a m)
                 (settle 4 (mount [sample 0 100; sample 1 200])) evs in
  text_content <$> find_class "tickets__buy" (view (committed m))
  = (λ t, buy_label t (last_currency defaultCurrency evs))
      <$> filterTickets [sample 0 100; sample 1 200]
                        (run initialFilters (filter_clicks evs)).
Proof.
  intros evs m. apply (screen_shows_selection_and_prices _ evs). reflexivity.
Defined.

(** The tree holds one card for each ticket of the filtered list, in
    its order, keyed by its position; with an empty list the container of
    the cards is there and empty. *)
Theorem cards_keyed_by_position s :
  find_class "tickets__list" (view s)
    = imap (ticket_card (selectedCurrency s)) (filteredTickets s) ∧
  key_of <$> find_class "tickets__list" (view s)
    = Some <$> seq 0 (length (filteredTickets s)) ∧
  (filteredTickets s = [] →
   find_class "tickets__group" (view s)
     = [Elem "div" [className "tickets__group"] []]).
Proof.
  split_and!; [apply cards_view|rewrite cards_view; apply key_of_ticket_cards|].
  intros Hnil. unfold view, ticket_group. rewrite Hnil. reflexivity.
Qed.

(** C30: for a ticket whose stop count is the whole number [k], the label
    reads [Без пересадок] for 0, [1 пересадка] for 1, and the digits of [k]
    followed by [пересадки] for every other [k]. *)
Theorem stops_label_whole t k :
  Ticket.stops t = of_Z k → 0 ≤ k < 2 ^ 53 →
  stops_label t =
    if decide (k = 0) then "Без пересадок"
    else if decide (k = 1) then "1 пересадка"
    else digits k +:+ " пересадки".
Proof.
  intros Ht Hk. rewrite (stops_label_of_Z t k Ht Hk).
  by repeat case_decide; subst.
Qed.

Lemma stops_label_whole_witness : stops_label (sample 3 0) = "3 пересадки".
Proof. apply (stops_label_whole (sample 3 0) 3); [reflexivity|lia]. Defined.


End screen.
