(* ===== verification/App.v ===== *)
(** * App: the root component

    [App] (src/src/App.tsx) renders [TicketList] inside [div.App] and
    [main], with the tickets of the data file as its prop.  The data file is
    a module: every render of [App] passes the same array, so the machine of
    [TicketList] takes no [SetTickets] step, and the steps of the
    application are the steps that the screen allows ([View.ui_step]).

    The data file is not part of the sources; the definitions take its list
    of tickets as the parameter [ticketsData]. *)

From S2P Require Import Prelude Ticket Filters FilterEngine Price Component View.
From stdpp Require Import relations.

(** ** Definitions *)

(** What [App] returns while [TicketList] is in the machine state [m]. *)
Definition App (m : Machine) : Node :=
  Elem "div" [className "App"] [Elem "main" [] [view (committed m)]].

(** The application after its first render. *)
Definition start (ticketsData : list Ticket) : Machine := mount ticketsData.

(** The application after a list of events, each with React's rounds. *)
Definition after (ticketsData : list Ticket) (evs : list Action) : Machine :=
  foldl (λ m a, dispatch a m) (settle 4 (start ticketsData)) evs.

(** ** The application as a function of the data and the clicks *)

Lemma after_cells ts evs :
  forallb user_event evs = true → after ts evs = settled (cells_after ts evs).
Proof. apply dispatch_events. Qed.

Lemma ui_step_dispatch a m :
  a ∈ handlers (view (committed m)) → dirty m = false → rtc ui_step m (dispatch a m).
Proof.
  intros Ha Hd. unfold dispatch.
  destruct (step_fn a m) as [m'|] eqn:Hs; [|done]. cbn [from_option].
  eapply rtc_l; [by eapply ui_event|]. clear Hs Ha Hd m.
  generalize 4%nat. intros fuel. revert m'.
  induction fuel as [|fuel IH]; intros m; [done|].
  rewrite settle_S. destruct (internal_action m) as [b|] eqn:Hb; [|done].
  destruct (internal_action_enabled m b Hb) as [m2 Hs]. rewrite Hs. simpl.
  eapply rtc_l; [by eapply ui_internal|apply IH].
Qed.

Lemma user_event_handler a s :
  user_event a = true →
  (∀ c, a = ClickCurrency c → c ∈ currencies) → a ∈ handlers (view s).
Proof.
  intros Ha Hc. apply elem_of_handlers_view. destruct a; try done; eauto.
Qed.

(** The tree of the application is a function of the data and of the
    clicks: after any list of clicks it is [div.App > main] around the view
    of the cells that the clicks determine, the prop [tickets] is still the
    array of the data file, and nothing is queued. *)
Theorem app_tree_after_events ts evs :
  forallb user_event evs = true →
  App (after ts evs)
    = Elem "div" [className "App"] [Elem "main" [] [view (cells_after ts evs)]] ∧
  tickets (committed (after ts evs)) = ts ∧
  tickets_id (committed (after ts evs)) = 0%nat ∧
  quiescent (after ts evs) = true.
Proof. intros Hev. by rewrite after_cells. Qed.

Lemma app_tree_after_events_witness :
  tickets (committed (after [sample 2 700] [ClickFilter FilterType.twoStops]))
  = [sample 2 700].
Proof. apply app_tree_after_events. reflexivity. Defined.

(** Clicks on the elements of the tree lead to states that the screen
    allows: when every currency click is on one of the three buttons, the
    state after the clicks is reachable by steps of the screen. *)
Theorem after_ui_reachable ts evs :
  forallb user_event evs = true →
  Forall (λ a, ∀ c, a = ClickCurrency c → c ∈ currencies) evs →
  ui_reachable ts (after ts evs).
Proof.
  intros Hev Hcur. induction evs as [|a evs IH] using rev_ind.
  - unfold after, start, ui_reachable. simpl.
    eapply rtc_l; [by eapply (ui_internal RunEffect)|].
    eapply rtc_l; [by eapply (ui_internal Render)|]. done.
  - rewrite forallb_app in Hev. apply andb_prop in Hev as [Hevs Ha].
    apply Forall_app in Hcur as [Hcurs Hc]. rewrite Forall_singleton in Hc.
    unfold after. rewrite foldl_app. cbn [foldl]. fold (after ts evs).
    unfold ui_reachable. etrans; [by apply IH|].
    apply ui_step_dispatch; [|by rewrite after_cells].
    apply user_event_handler; [by apply andb_prop in Ha as [? _]|exact Hc].
Qed.

Lemma after_ui_reachable_witness :
  ui_reachable [sample 0 5] (after [sample 0 5] [ClickCurrency "USD"]).
Proof.
  apply after_ui_reachable; [reflexivity|].
  apply Forall_singleton. intros c [= <-]. unfold currencies. set_solver.
Defined.

(** C31: the order in which clicks on currency buttons and clicks on check
    boxes interleave cannot be observed: two lists of clicks with the same
    clicks on check boxes, in order, and the same currency clicked last
    lead to the same machine state and the same tree. *)
Theorem interleaving_unobservable ts evs1 evs2 :
  forallb user_event evs1 = true → forallb user_event evs2 = true →
  filter_clicks evs1 = filter_clicks evs2 →
  last_currency defaultCurrency evs1 = last_currency defaultCurrency evs2 →
  after ts evs1 = after ts evs2 ∧ App (after ts evs1) = App (after ts evs2).
Proof.
  intros H1 H2 Hf Hc. rewrite !after_cells by done. unfold cells_after.
  by rewrite Hf, Hc.
Qed.

Lemma interleaving_unobservable_witness :
  after [sample 1 100; sample 2 200]
        [ClickCurrency "USD"; ClickFilter FilterType.oneStop; ClickCurrency "EUR"]
  = after [sample 1 100; sample 2 200]
          [ClickFilter FilterType.oneStop; ClickCurrency "EUR"].
Proof. apply interleaving_unobservable; reflexivity. Defined.

(** C32: the idempotence of spec.md section 8.  With nothing queued, a click
    on the button of the selected currency changes nothing at all, and a
    click on the check box [all] while it is set leaves the tree of the
    application as it is; the latter still passes a new object to
    [setFilters], so that the effect runs once more. *)
Theorem reselect_idempotent ts m :
  reachable_from ts m → quiescent m = true →
  dispatch (ClickCurrency (selectedCurrency (committed m))) m = m ∧
  (Filters.all (Filters.stops (filters (committed m))) = true →
   App (dispatch (ClickFilter FilterType.all) m) = App m ∧
   settle_trace 4 (mkMachine (setFilters initialFilters (current m)) (committed m)
                             true false)
   = [Render; RunEffect; Render]).
Proof.
  intros Hr Hq. destruct (quiescent_filtered ts m Hr Hq) as [_ Hf].
  destruct (reachable_filters_inv ts m Hr) as [_ Hinv].
  revert Hf Hinv. rewrite (quiescent_settled ts m Hr Hq). cbn [current committed].
  set (s := current m). intros Hf Hinv.
  split; [apply dispatch_click_same_currency|]. intros Hall.
  destruct (dispatch_click_filter s FilterType.all) as [Hd Ht].
  rewrite handleFilterChange_all_set in Hd by done. rewrite Hd. split; [|exact Ht].
  unfold App, settled. cbn [committed]. do 3 f_equal.
  unfold view. cbn [filteredTickets filters selectedCurrency setFilteredTickets setFilters].
  change (filteredTickets s = select (tickets s) (filters s)) in Hf.
  by rewrite Hf.
Qed.

Lemma reselect_idempotent_witness :
  let m := after [sample 0 100; sample 1 200] [ClickCurrency "USD"] in
  dispatch (ClickCurrency "USD") m = m.
Proof.
  intros m. apply (reselect_idempotent [sample 0 100; sample 1 200] m);
    [|reflexivity].
  apply reachable_dispatch, settle_rtc.
Defined.
