(* ===== verification/Wellformed.v ===== *)
(** * Wellformed: the tree of the application is a well-formed element tree

    What React and the browser require of the tree that a component
    returns, as a check [wf_node] on [View.Node]:

    - the keys of the children of an element are distinct, and either no
      child has a key or every child has one (the rule for the elements of
      [filteredTickets.map]);
    - an [img] has an address that is a string, an [alt] and no children;
    - a [Checkbox] is controlled: it has [checked] and [onChange];
    - event handlers sit on [Button] and [Checkbox] only.

    The tree of [TicketList] passes the check exactly when every ticket on
    the screen has a carrier of the table [carrierImages]: the read
    [carrierImages[ticket.carrier]] is the one place where the data decides
    the shape of the tree.  With such data the check holds in every state
    that a user reaches, where the tickets on the screen are always a
    sublist of the data. *)

From S2P Require Import Prelude JsNumber JsObject Ticket Filters FilterEngine Price Component View App.
From stdpp Require Import gmap relations.

(** ** Definitions *)

(** The keys of a list of siblings. *)
Definition keys (children : list Node) : list nat := omap key_of children.

Definition has_url (attrs : list Attr) : bool :=
  existsb (λ a, match a with src (SrcUrl _) => true | _ => false end) attrs.

Definition has_alt (attrs : list Attr) : bool :=
  existsb (λ a, match a with alt _ => true | _ => false end) attrs.

Definition has_checked (attrs : list Attr) : bool :=
  existsb (λ a, match a with checked _ => true | _ => false end) attrs.

Definition has_onChange (attrs : list Attr) : bool :=
  existsb (λ a, match a with onChange _ => true | _ => false end) attrs.

(** The rules for one element. *)
Definition elem_ok (tag : string) (attrs : list Attr) (children : list Node) : bool :=
  (if String.eqb tag "img"
   then has_url attrs && has_alt attrs && bool_decide (children = [])
   else if String.eqb tag "Checkbox" then has_checked attrs && has_onChange attrs
   else if String.eqb tag "Button" then true
   else bool_decide (attr_handlers attrs = []))
  && bool_decide (NoDup (keys children))
  && (bool_decide (keys children = [])
      || bool_decide (length (keys children) = length children)).

(** The rules hold of every element of the tree. *)
Fixpoint wf_node (n : Node) : bool :=
  match n with
  | Text _ => true
  | Elem tag attrs children => elem_ok tag attrs children && forallb wf_node children
  end.

(** The carrier of the ticket has an image in the table. *)
Definition known_carrier (t : Ticket) : bool :=
  bool_decide (is_Some (carrierImages !! carrier t)).

(** The two images of the card of a ticket: the carrier and the arrow. *)
Definition card_images (t : Ticket) : list Node :=
  [ Elem "img" [src (carrier_image (carrier t)); alt (carrier t)] [];
    Elem "img" [src (carrier_image "Arrow"); alt "Arrow"] [] ].

(** ** The images *)

Lemma carrier_image_url name :
  match carrier_image name with SrcUrl _ => true | _ => false end
  = bool_decide (is_Some (carrierImages !! name)).
Proof.
  unfold carrier_image. destruct (carrierImages !! name) eqn:H.
  - by rewrite bool_decide_eq_true_2.
  - rewrite (bool_decide_eq_false_2 (is_Some None)) by apply is_Some_None.
    by case_bool_decide.
Qed.

Lemma carrier_image_Arrow : carrier_image "Arrow" = SrcUrl "./svg/Arrow.svg".
Proof. reflexivity. Qed.

Lemma carrier_image_unknown name :
  carrierImages !! name = None → name ∉ object_prototype_keys →
  carrier_image name = SrcUndefined.
Proof. intros Hn Hp. unfold carrier_image. by rewrite Hn, bool_decide_eq_false_2. Qed.

(** ** The cards *)

Lemma wf_ticket_card cur i t : wf_node (ticket_card cur i t) = known_carrier t.
Proof.
  unfold ticket_card. rewrite carrier_image_Arrow. cbn -[carrier_image].
  unfold elem_ok, has_url. cbn -[carrier_image].
  by rewrite carrier_image_url, !andb_true_r, orb_false_r.
Qed.

Lemma forallb_imap {A B} (p : B → bool) (q : A → bool) (f : nat → A → B) l :
  (∀ i x, p (f i x) = q x) → forallb p (imap f l) = forallb q l.
Proof.
  revert f. induction l as [|x l IH]; intros f Hf; [done|].
  simpl. rewrite Hf. f_equal. apply IH. intros i y. apply Hf.
Qed.

Lemma omap_fmap_Some {A B} (f : A → option B) (l : list A) (k : list B) :
  f <$> l = Some <$> k → omap f l = k.
Proof.
  revert k. induction l as [|x l IH]; intros [|y k] Hk; simplify_eq/=; [done|].
  by rewrite H, (IH k).
Qed.

Lemma keys_ticket_cards cur fts :
  keys (imap (ticket_card cur) fts) = seq 0 (length fts).
Proof. apply omap_fmap_Some, key_of_ticket_cards. Qed.

Lemma wf_ticket_group fts cur :
  wf_node (ticket_group fts cur) = forallb known_carrier fts.
Proof.
  unfold ticket_group. cbn [wf_node]. unfold elem_ok. cbn [String.eqb Ascii.eqb].
  rewrite keys_ticket_cards, length_imap, length_seq.
  rewrite (bool_decide_eq_true_2 (NoDup _)) by apply NoDup_seq.
  rewrite (bool_decide_eq_true_2 (length fts = length fts)), orb_true_r by done.
  cbn. apply forallb_imap, wf_ticket_card.
Qed.

Lemma wf_view s : wf_node (view s) = forallb known_carrier (filteredTickets s).
Proof.
  unfold view. cbn -[ticket_group]. rewrite wf_ticket_group.
  by rewrite andb_true_r.
Qed.

(** The images of the tree: for each card its carrier and the arrow. *)
Lemma images_view s :
  find_tag "img" (view s) = flat_map card_images (filteredTickets s).
Proof.
  unfold view, ticket_group. cbn [find_tag flat_map String.eqb Ascii.eqb app].
  cbn -[carrier_image imap]. rewrite app_nil_r.
  by rewrite (flat_map_imap _ _ (λ _, card_images)), mjoin_imap_const.
Qed.

(** ** The tickets on the screen *)

Section screen_facts.
Context `{!FilterEngine}.
Implicit Types (m : Machine) (ts : list Ticket).

(** In every state a user reaches, the lists of both generations of cells
    are sublists of the data. *)
Lemma ui_reachable_sublist ts m :
  ui_reachable ts m →
  filteredTickets (current m) `sublist_of` ts ∧
  filteredTickets (committed m) `sublist_of` ts.
Proof.
  intros Hr.
  cut (ui_inv ts m ∧ filteredTickets (current m) `sublist_of` ts ∧
       filteredTickets (committed m) `sublist_of` ts); [naive_solver|].
  revert m Hr. apply rtc_ind_r; [split; [apply ui_inv_mount|done]|].
  intros m1 m2 _ Hs (Hinv & IH1 & IH2). split; [by eapply ui_step_inv|].
  destruct Hinv as (_ & _ & _ & Ht & _).
  apply ui_step_machine_step in Hs. destruct Hs as [a m1 m2 Hs].
  destruct a; simpl in Hs; repeat case_match; simplify_eq/=; try done.
  split; [|done]. apply select_sublist.
Qed.

Lemma sublist_forallb (p : Ticket → bool) (l k : list Ticket) :
  l `sublist_of` k → forallb p k = true → forallb p l = true.
Proof.
  rewrite !forallb_forall. intros Hs Hk t Ht%list_elem_of_In.
  apply Hk, list_elem_of_In. by eapply elem_of_sublist.
Qed.

End screen_facts.

(** ** The tree is well formed *)

Section wellformed.
Implicit Types (m : Machine) (ts : list Ticket) (s : State).

(** C25: the tree of a render passes the check exactly when every ticket of
    the filtered list has a carrier of the table of images; the check boxes
    and buttons, the keys of the cards and the arrow are well formed
    whatever the cells hold. *)
Theorem view_well_formed s :
  wf_node (view s) = forallb known_carrier (filteredTickets s) ∧
  wf_node (view (setFilteredTickets [] s)) = true ∧
  NoDup (keys (children_of (ticket_group (filteredTickets s) (selectedCurrency s)))).
Proof.
  split_and!; [apply wf_view|by rewrite wf_view|].
  cbn [children_of ticket_group]. rewrite keys_ticket_cards. apply NoDup_seq.
Qed.

(** C18: when every ticket of the data has a carrier of the table, the tree
    of the application is well formed in every state that a user reaches,
    in any interleaving of clicks and rounds, and the tickets on the screen
    are a sublist of the data. *)
Theorem app_well_formed ts m :
  forallb known_carrier ts = true → ui_reachable ts m →
  wf_node (App m) = true ∧
  filteredTickets (committed m) `sublist_of` ts.
Proof.
  intros Hk Hr. destruct (ui_reachable_sublist ts m Hr) as [_ Hs].
  split; [|done]. unfold App. cbn -[view]. rewrite wf_view, !andb_true_r.
  by eapply sublist_forallb.
Qed.

Lemma app_well_formed_witness :
  wf_node (App (settle 4 (mount [sample 0 100; sample 2 300]))) = true.
Proof.
  apply (app_well_formed [sample 0 100; sample 2 300]); [reflexivity|].
  eapply rtc_l; [by eapply (ui_internal RunEffect)|].
  eapply rtc_l; [by eapply (ui_internal Render)|]. done.
Defined.

(** C35: a ticket whose carrier is no key of the table and no property of
    [Object.prototype] gets an [img] whose [src] is [undefined]: the image
    is in the tree, with the code of the carrier as [alt], and the tree is
    not well formed. *)
Theorem unknown_carrier_no_image s t :
  t ∈ filteredTickets s →
  carrierImages !! carrier t = None → carrier t ∉ object_prototype_keys →
  Elem "img" [src SrcUndefined; alt (carrier t)] [] ∈ find_tag "img" (view s) ∧
  wf_node (view s) = false.
Proof.
  intros Ht Hn Hp. split.
  - rewrite images_view. apply list_elem_of_In, in_flat_map. exists t.
    split; [by apply list_elem_of_In|]. left. unfold card_images.
    by rewrite (carrier_image_unknown _ Hn Hp).
  - rewrite wf_view. apply not_true_is_false. rewrite forallb_forall.
    intros Hall. specialize (Hall t (proj1 (list_elem_of_In _ _) Ht)).
    unfold known_carrier in Hall. apply bool_decide_eq_true in Hall.
    rewrite Hn in Hall. by apply is_Some_None in Hall.
Qed.

Lemma unknown_carrier_no_image_witness :
  let t := mkTicket "VVO" "Владивосток" "TLV" "Тель-Авив" "12.05.18" "16:20"
                    "12.05.18" "22:10" "LH" (of_Z 1) (of_Z 100) in
  wf_node (view (initialState [t])) = false.
Proof.
  intros t. apply (unknown_carrier_no_image (initialState [t]) t);
    [apply list_elem_of_here|reflexivity|].
  unfold object_prototype_keys. cbn. set_solver.
Defined.

End wellformed.
