(* ===== verification/Spec.v ===== *)
(** * Spec: what spec.md promises, and the refinement

    spec.md describes the program without React: a state made of a filter
    selection (the mode "all" or a subset of stop counts) and a currency,
    three user actions (section 6: [selectAllStops], [toggleStopFilter],
    [selectCurrency]), and the list of visible tickets as a function of the
    selection (section 4.1).  This file gives that description as the
    state [Abstract] with [apply_action] and [visible_tickets], maps the
    machine of [Component] to it ([abstract], [action_of]), and proves that
    the application refines it: every event with its rounds is one action,
    and the list on the screen is the list the specification gives. *)

From S2P Require Import Prelude JsNumber Ticket Filters FilterEngine Price Component View App.
From stdpp Require Import gmap.

(** ** Definitions *)

Record Abstract := mkAbstract {
  selection : Selection;
  currency : string;
}.

(** The user-facing actions of spec.md section 6. *)
Inductive UserAction :=
  | selectAllStops
  | toggleStopFilter (flag : FilterType)
  | selectCurrency (code : string).

Definition initial : Abstract := mkAbstract AllMode defaultCurrency.

Definition apply_action (s : Abstract) (a : UserAction) : Abstract :=
  match a with
  | selectAllStops => mkAbstract AllMode (currency s)
  | toggleStopFilter flag => mkAbstract (toggle (selection s) flag) (currency s)
  | selectCurrency code => mkAbstract (selection s) code
  end.

(** spec.md section 4.1: a ticket is shown in the mode "all", and otherwise
    when its stop count is the one of a flag of the subset. *)
Definition shows (sel : Selection) (t : Ticket) : bool :=
  match sel with
  | AllMode => true
  | SubsetMode s =>
      existsb (λ k, bool_decide (k ∈ s) &&
                    match stops_of k with
                    | Some n => strict_eq (Ticket.stops t) (of_Z n)
                    | None => false
                    end) specific
  end.

Definition visible_tickets (ts : list Ticket) (s : Abstract) : list Ticket :=
  filter (λ t, shows (selection s) t) ts.

(** The action that an event of the screen stands for. *)
Definition action_of (a : Action) : option UserAction :=
  match a with
  | ClickFilter k =>
      Some (if decide (k = FilterType.all) then selectAllStops else toggleStopFilter k)
  | ClickCurrency c => Some (selectCurrency c)
  | _ => None
  end.

(** The abstract state that the screen of a machine state stands for. *)
Definition abstract (m : Machine) : Abstract :=
  mkAbstract (abs (filters (committed m))) (selectedCurrency (committed m)).

(** The actions that a list of events stands for, in order. *)
Definition actions_of (evs : list Action) : list UserAction := omap action_of evs.

(** Whether the check box of a flag is ticked in a selection: the box
    [all] in the mode "all", the boxes of the subset otherwise. *)
Definition box_checked (sel : Selection) (k : FilterType) : bool :=
  match sel with
  | AllMode => bool_decide (k = FilterType.all)
  | SubsetMode s => bool_decide (k ∈ s)
  end.

(** What the specification expects on the screen in the state [s]: the
    check boxes, and the texts of the buy buttons (section 4.2: one price
    for each visible ticket, in the selected currency). *)
Definition expected_boxes (s : Abstract) : list (Action * bool) :=
  (λ k, (ClickFilter k, box_checked (selection s) k)) <$> filter_types.

Definition expected_prices (ts : list Ticket) (s : Abstract) : list string :=
  (λ t, buy_label t (currency s)) <$> visible_tickets ts s.

(** ** The selection *)

Lemma bool_decide_flags_set s k :
  k ≠ FilterType.all → bool_decide (k ∈ flags_set s) = get_flag s k.
Proof.
  intros Hk. rewrite (bool_decide_ext _ _ (elem_of_flags_set s k)).
  destruct (get_flag s k);
    [by rewrite bool_decide_eq_true_2|by rewrite bool_decide_eq_false_2 by naive_solver].
Qed.

(** The chain of tests of the program is the membership test of the
    specification. *)
Lemma shows_abs f t : visible f t = shows (abs f) t.
Proof.
  unfold abs. destruct (all (Filters.stops f)) eqn:Hall; [by apply visible_all|].
  rewrite visible_decompose by done. unfold shows, specific. cbn [existsb].
  rewrite !bool_decide_flags_set by done.
  by rewrite (visible_only FilterType.nonStop 0), (visible_only FilterType.oneStop 1),
    (visible_only FilterType.twoStops 2), (visible_only FilterType.threeStops 3).
Qed.

Lemma filterTickets_visible_tickets ts f c :
  filterTickets ts f = visible_tickets ts (mkAbstract (abs f) c).
Proof. apply filter_bool_ext. intros t _. apply shows_abs. Qed.

Lemma toggle_all sel : toggle sel FilterType.all = AllMode.
Proof. done. Qed.

Lemma abstract_click_filter s k :
  Filters.inv (filters s) = true →
  mkAbstract (abs (handleFilterChange (filters s) k)) (selectedCurrency s)
  = apply_action (mkAbstract (abs (filters s)) (selectedCurrency s))
                 (if decide (k = FilterType.all) then selectAllStops
                  else toggleStopFilter k).
Proof.
  intros Hinv. rewrite abs_handleFilterChange by done.
  by case_decide; subst.
Qed.

Lemma get_flag_abs f k :
  Filters.inv f = true → get_flag (Filters.stops f) k = box_checked (abs f) k.
Proof.
  intros Hinv. unfold abs, box_checked.
  destruct (decide (k = FilterType.all)) as [->|Hk].
  - destruct (all (Filters.stops f)) eqn:Hall; [done|].
    rewrite bool_decide_eq_false_2; [done|]. rewrite elem_of_flags_set. naive_solver.
  - destruct (all (Filters.stops f)) eqn:Hall; [|by rewrite bool_decide_flags_set].
    rewrite bool_decide_eq_false_2 by done. revert Hinv Hall.
    destruct f as [[[] [] [] [] []]], k; done.
Qed.

(** ** Traces *)

Lemma actions_of_snoc evs a :
  actions_of (evs ++ [a]) = actions_of evs ++ option_list (action_of a).
Proof. unfold actions_of. rewrite omap_app. simpl. by destruct (action_of a). Qed.

Lemma inv_run_clicks evs : Filters.inv (run initialFilters (filter_clicks evs)) = true.
Proof. apply reachable_inv_aux, rtc_step_run. Qed.

(** The cells after a list of events stand for the state that the actions
    of the events lead to. *)
Lemma abstract_cells ts evs :
  forallb user_event evs = true →
  abstract (settled (cells_after ts evs)) = foldl apply_action initial (actions_of evs).
Proof.
  induction evs as [|a evs IH] using rev_ind; intros Hev; [done|].
  rewrite forallb_app in Hev. apply andb_prop in Hev as [Hevs Ha].
  rewrite actions_of_snoc, foldl_app, <- IH by done. unfold abstract. cbn.
  rewrite filter_clicks_snoc, last_currency_snoc.
  destruct a as [| |k|c|]; try done; cbn; rewrite ?app_nil_r; [|done].
  rewrite run_snoc.
  apply (abstract_click_filter (cells_after ts evs)), inv_run_clicks.
Qed.

(** ** The refinement *)

(** C16: the application refines the specification, step by step: from a
    reachable state with nothing queued, an event of the screen with its
    rounds is the action it stands for, the list on the screen after it is
    the list of visible tickets of the specification, and again nothing is
    queued. *)
Theorem dispatch_refines_action ts m a ua :
  reachable_from ts m → quiescent m = true → action_of a = Some ua →
  let m' := dispatch a m in
  abstract m' = apply_action (abstract m) ua ∧
  filteredTickets (committed m')
    = visible_tickets (tickets (committed m)) (apply_action (abstract m) ua) ∧
  tickets (committed m') = tickets (committed m) ∧
  quiescent m' = true.
Proof.
  intros Hr Hq Ha. destruct (reachable_filters_inv ts m Hr) as [_ Hinv].
  destruct (quiescent_filtered ts m Hr Hq) as [_ Hf].
  revert Hinv Hf. rewrite (quiescent_settled ts m Hr Hq). unfold abstract.
  cbn [committed settled]. set (s := current m). intros Hinv Hf.
  destruct a as [| |k|c|]; simplify_eq/=.
  - rewrite (proj1 (dispatch_click_filter s k)). cbn.
    rewrite <- abstract_click_filter by done.
    split_and!; try done. apply filterTickets_visible_tickets.
  - destruct (decide (c = selectedCurrency s)) as [->|Hc].
    + rewrite dispatch_click_same_currency. cbn. split_and!; try done.
      rewrite Hf. apply filterTickets_visible_tickets.
    + rewrite (proj1 (dispatch_click_currency s c Hc)). cbn. split_and!; try done.
      rewrite Hf. apply filterTickets_visible_tickets.
Qed.

Lemma dispatch_refines_action_witness :
  abstract (dispatch (ClickFilter FilterType.oneStop) (settle 4 (mount [sample 1 10])))
  = apply_action (abstract (settle 4 (mount [sample 1 10])))
                 (toggleStopFilter FilterType.oneStop).
Proof.
  apply (dispatch_refines_action [sample 1 10]);
    [apply settle_rtc|reflexivity|reflexivity].
Defined.

(** The first screen is the initial state of the specification: the
    mode "all", the default currency, and every ticket visible. *)
Theorem start_refines_initial ts :
  abstract (after ts []) = initial ∧
  filteredTickets (committed (after ts [])) = visible_tickets ts initial ∧
  visible_tickets ts initial = ts.
Proof.
  split_and!; [done| |].
  - unfold after, start. rewrite settle_mount. cbn.
    apply (filterTickets_visible_tickets ts initialFilters).
  - unfold visible_tickets. apply filter_bool_true. done.
Qed.

(** C12: the application refines the specification on every trace.  After
    the first render and any list of clicks, the screen stands for the
    state that the actions of the clicks lead to from the initial state of
    the specification, and shows what the specification expects in that
    state: the ticked check boxes, and on the buy buttons, in order, the
    prices of the visible tickets in the selected currency. *)
Theorem after_refines_trace ts evs :
  forallb user_event evs = true →
  let s := foldl apply_action initial (actions_of evs) in
  abstract (after ts evs) = s ∧
  filteredTickets (committed (after ts evs)) = visible_tickets ts s ∧
  checkboxes (view (committed (after ts evs))) = expected_boxes s ∧
  text_content <$> find_class "tickets__buy" (view (committed (after ts evs)))
    = expected_prices ts s.
Proof.
  intros Hev s. pose proof (abstract_cells ts evs Hev) as Hs. fold s in Hs.
  rewrite after_cells, <- Hs by done. unfold expected_prices, expected_boxes.
  rewrite checkboxes_view, buy_buttons_view. set (c := cells_after ts evs).
  change (abstract (settled c)) with (mkAbstract (abs (filters c)) (selectedCurrency c)).
  change (committed (settled c)) with c. cbn [selection currency].
  assert (filteredTickets c
          = visible_tickets ts (mkAbstract (abs (filters c)) (selectedCurrency c)))
    as Hf by apply filterTickets_visible_tickets.
  split_and!; [done|done| |by rewrite Hf].
  apply list_fmap_ext. intros _ k _. f_equal. apply get_flag_abs, inv_run_clicks.
Qed.

Lemma after_refines_trace_witness :
  let ts := [sample 0 100; sample 1 200; sample 1 300] in
  let evs := [ClickFilter FilterType.oneStop; ClickCurrency "USD"] in
  text_content <$> find_class "tickets__buy" (view (committed (after ts evs)))
  = expected_prices ts (foldl apply_action initial (actions_of evs)).
Proof. intros ts evs. apply (after_refines_trace ts evs). reflexivity. Defined.
